(** * tip-chain: validation, rate limiting and transaction preparation

    A shallow embedding of the frame back end of tip-chain
    (lib/validation.ts, lib/rate-limit.ts, lib/contracts.ts, lib/chain.ts,
    lib/currency.ts, lib/frames.ts, app/api/frame/route.ts and
    app/api/frame/prepare-tip/route.ts) together with the properties its
    specification states about it and further properties of the code.

    Conventions.
    - A JavaScript string is the list of its UTF-16 code units.
    - A JavaScript number that the code only uses as an integer (counters,
      millisecond timestamps, chain ids) is a [Z]; a number that the code
      compares after [parseFloat], or reads from a JSON body, is a [number]:
      NaN, an infinity, or the exact rational value of a double.
    - [Date.now()] and the outcome of [Math.random() < 0.01] are arguments of
      the functions that read them. *)

From Stdlib Require Import ZArith QArith List Ascii String Lia Bool.
From stdpp Require Import gmap list.

Local Open Scope Z_scope.

(** ** JavaScript strings *)

Module JS.

(** UTF-16 code units. *)
Abbreviation jsstring := (list N).

(** An ASCII literal as a JavaScript string. *)
Definition str (s : string) : jsstring :=
  List.map N_of_ascii (list_ascii_of_string s).

Definition streq (a b : jsstring) : bool := bool_decide (a = b).

(** WhiteSpace and LineTerminator of ECMA-262: TAB, LF, VT, FF, CR, SP,
    NBSP, U+1680, U+2000..U+200A, LS, PS, U+202F, U+205F, U+3000, BOM.
    These are the code units that [trim] and [parseFloat] strip. *)
Definition is_whitespace (c : N) : bool :=
  ((9 <=? c) && (c <=? 13) || (c =? 32) || (c =? 160) || (c =? 5760)
   || (8192 <=? c) && (c <=? 8202) || (c =? 8232) || (c =? 8233)
   || (c =? 8239) || (c =? 8287) || (c =? 12288) || (c =? 65279))%N.

Fixpoint trimStart (s : jsstring) : jsstring :=
  match s with
  | c :: s' => if is_whitespace c then trimStart s' else s
  | [] => []
  end.

Definition trimEnd (s : jsstring) : jsstring := rev (trimStart (rev s)).

(** [s.trim()] *)
Definition trim (s : jsstring) : jsstring := trimEnd (trimStart s).

(** [s.slice(start)] and [s.slice(start, end)] for indices that are not
    negative. *)
Definition slice_from (start : nat) (s : jsstring) : jsstring := drop start s.
Definition slice (start stop : nat) (s : jsstring) : jsstring :=
  take (stop - start) (drop start s).

(** [s.padStart(targetLength, fill)] with a one-unit filler. *)
Definition padStart (targetLength : nat) (fill : N) (s : jsstring) : jsstring :=
  replicate (targetLength - length s) fill ++ s.

(** [s.startsWith(prefix)], also giving what follows the prefix. *)
Fixpoint strip_prefix (prefix s : jsstring) : option jsstring :=
  match prefix, s with
  | [], _ => Some s
  | p :: prefix', c :: s' => if (p =? c)%N then strip_prefix prefix' s' else None
  | _ :: _, [] => None
  end.

(** [s.split(sep)] for a one-unit separator; the result is never empty. *)
Fixpoint split (sep : N) (s : jsstring) : list jsstring :=
  match s with
  | [] => [[]]
  | c :: s' =>
      if (c =? sep)%N then [] :: split sep s'
      else match split sep s' with
           | part :: parts => (c :: part) :: parts
           | [] => [[c]]
           end
  end.

(** The longest prefix whose units satisfy [p], and the rest. *)
Fixpoint span (p : N → bool) (s : jsstring) : jsstring * jsstring :=
  match s with
  | c :: s' => if p c then let '(a, b) := span p s' in (c :: a, b) else ([], s)
  | [] => ([], [])
  end.

Definition is_digit (c : N) : bool := ((48 <=? c) && (c <=? 57))%N.
Definition is_lower (c : N) : bool := ((97 <=? c) && (c <=? 122))%N.
Definition is_upper (c : N) : bool := ((65 <=? c) && (c <=? 90))%N.
(** [[a-fA-F0-9]] *)
Definition is_hex (c : N) : bool :=
  (is_digit c || (97 <=? c) && (c <=? 102) || (65 <=? c) && (c <=? 70))%N.

(** [toLowerCase] on the ASCII letters; the embedding applies it to the
    chain names of the registry only, which are ASCII. *)
Definition toLowerCase (s : jsstring) : jsstring :=
  List.map (λ c, if is_upper c then (c + 32)%N else c) s.

Definition digit_value (c : N) : Z := Z.of_N c - 48.

(** The value of a run of decimal digits. *)
Definition digits_value (ds : jsstring) : Z :=
  fold_left (λ acc d, 10 * acc + digit_value d) ds 0.

End JS.
Import JS.

(** ** JavaScript numbers and [parseFloat] *)

Module JSNumber.

(** A Number value: NaN, an infinity, or a finite double given by its exact
    rational value, kept in lowest terms ([-0] is not told apart from [0];
    no comparison of the code can tell them apart). *)
Inductive number :=
| NaN
| Infinity (negative : bool)
| Finite (q : Q).

Definition of_Z (z : Z) : number := Finite (inject_Z z).

Definition isNaN (x : number) : bool :=
  match x with NaN => true | _ => false end.

(** [x < y] of JavaScript: false as soon as one side is NaN. *)
Definition lt (x y : number) : bool :=
  match x, y with
  | NaN, _ | _, NaN => false
  | Infinity true, Infinity true => false
  | Infinity true, _ => true
  | _, Infinity true => false
  | Infinity false, _ => false
  | Finite _, Infinity false => true
  | Finite a, Finite b => match (a ?= b)%Q with Lt => true | _ => false end
  end.

(** [x > y] *)
Definition gt (x y : number) : bool := lt y x.

(** [x <= y]: [x < y] or [x == y]; false as soon as one side is NaN. *)
Definition le (x y : number) : bool :=
  match x, y with
  | NaN, _ | _, NaN => false
  | _, _ => negb (lt y x)
  end.

(** Number.isInteger *)
Definition isInteger (x : number) : bool :=
  match x with
  | Finite q => (Zpos (Qden (Qred q)) =? 1)
  | _ => false
  end.

(** Rounding of [n / d] ([n >= 0], [d > 0]) to the nearest integer, ties
    to even. *)
Definition round_half_even (n d : Z) : Z :=
  let q := n / d in
  let r := n mod d in
  match 2 * r ?= d with
  | Lt => q
  | Gt => q + 1
  | Eq => if Z.even q then q else q + 1
  end.

(** [floor (log2 (n / d))] for [n, d > 0]. *)
Definition floor_log2_ratio (n d : Z) : Z :=
  let e0 := Z.log2 n - Z.log2 d in
  let below :=
    if 0 <=? e0 then n <? d * 2 ^ e0 else n * 2 ^ (- e0) <? d in
  if below then e0 - 1 else e0.

(** The double nearest to the positive rational [n / d] (IEEE 754
    binary64, round to nearest, ties to even): 53 significant bits,
    least exponent -1074, overflow to Infinity from [2^1024] on. *)
Definition to_double_pos (n d : Z) : number :=
  let e := floor_log2_ratio n d in
  let ex := Z.max (e - 52) (-1074) in
  if 0 <=? ex then
    let m := round_half_even n (d * 2 ^ ex) in
    if 2 ^ 1024 <=? m * 2 ^ ex then Infinity false
    else Finite (inject_Z (m * 2 ^ ex))
  else
    let m := round_half_even (n * 2 ^ (- ex)) d in
    Finite (Qred (m # Z.to_pos (2 ^ (- ex)))).

Definition negate (x : number) : number :=
  match x with
  | NaN => NaN
  | Infinity s => Infinity (negb s)
  | Finite q => Finite (Qred (- q))
  end.

(** The Number value of the decimal [mant * 10^exp10], [mant >= 0]. *)
Definition of_decimal (mant exp10 : Z) : number :=
  if mant =? 0 then Finite 0
  else if 0 <=? exp10 then to_double_pos (mant * 10 ^ exp10) 1
  else to_double_pos mant (10 ^ (- exp10)).

(** The optional ExponentPart of a StrDecimalLiteral: [e] or [E], an
    optional sign, at least one digit.  A malformed exponent is not part
    of the literal. *)
Definition exponent_part (s : jsstring) : Z :=
  match s with
  | c :: s1 =>
      if ((c =? 101) || (c =? 69))%N then
        let '(neg, s2) :=
          match s1 with
          | c1 :: s2 =>
              if (c1 =? 45)%N then (true, s2)
              else if (c1 =? 43)%N then (false, s2) else (false, s1)
          | [] => (false, s1)
          end in
        let ds := (span is_digit s2).1 in
        match ds with
        | [] => 0
        | _ => if neg then - digits_value ds else digits_value ds
        end
      else 0
  | [] => 0
  end.

(** [parseFloat(string)]: strip leading white space, then read the longest
    prefix that is a StrDecimalLiteral: a sign, then [Infinity] or decimal
    digits with an optional fraction and exponent; NaN when there is none. *)
Definition parseFloat (input : jsstring) : number :=
  let s0 := trimStart input in
  let '(neg, s1) :=
    match s0 with
    | c :: s' =>
        if (c =? 45)%N then (true, s')
        else if (c =? 43)%N then (false, s') else (false, s0)
    | [] => (false, s0)
    end in
  let magnitude :=
    match strip_prefix (str "Infinity") s1 with
    | Some _ => Infinity false
    | None =>
        let '(ip, r1) := span is_digit s1 in
        let '(fp, r2) :=
          match r1 with
          | c :: r =>
              if (c =? 46)%N then
                let '(fp, r2) := span is_digit r in
                match ip, fp with
                | [], [] => ([], r1)
                | _, _ => (fp, r2)
                end
              else ([], r1)
          | [] => ([], r1)
          end in
        match ip, fp with
        | [], [] => NaN
        | _, _ =>
            of_decimal (digits_value (ip ++ fp))
                       (exponent_part r2 - Z.of_nat (length fp))
        end
    end in
  if neg then negate magnitude else magnitude.

End JSNumber.

(** ** JavaScript values read from a JSON body *)

Module JSValue.
Import JSNumber.

(** An object is the list of its own properties; a property is read at its
    first occurrence. *)
#[warnings="-register-all"]
Inductive value :=
| VUndefined
| VNull
| VBool (b : bool)
| VNumber (n : number)
| VString (s : jsstring)
| VArray (items : list value)
| VObject (fields : list (jsstring * value)).

(** [fields[key]] on own properties. *)
Fixpoint get (key : jsstring) (fields : list (jsstring * value)) : option value :=
  match fields with
  | [] => None
  | (k, v) :: rest => if streq k key then Some v else get key rest
  end.

(** [key in v] for a key that is neither an array index, [length], nor a
    member of [Object.prototype]. *)
Definition has (key : jsstring) (v : value) : bool :=
  match v with
  | VObject fields => bool_decide (is_Some (get key fields))
  | _ => false
  end.

(** [v.key] for such a key; a missing property and a property of a
    primitive or of an array read as [undefined]. *)
Definition prop (key : jsstring) (v : value) : value :=
  match v with
  | VObject fields => default VUndefined (get key fields)
  | _ => VUndefined
  end.

(** ToBoolean *)
Definition truthy (v : value) : bool :=
  match v with
  | VUndefined | VNull => false
  | VBool b => b
  | VNumber n =>
      match n with
      | NaN => false
      | Infinity _ => true
      | Finite q => negb (Qeq_bool q 0)
      end
  | VString s => negb (streq s [])
  | VArray _ | VObject _ => true
  end.

(** [typeof v === 'object'] *)
Definition typeof_object (v : value) : bool :=
  match v with VNull | VArray _ | VObject _ => true | _ => false end.

End JSValue.

(** ** lib/validation.ts *)

Module Validation.
Import JSNumber JSValue.

(** lib/types.ts [ValidationResult] *)
Record ValidationResult := mkValidation {
  isValid : bool;
  error : option jsstring
}.

Definition valid : ValidationResult := mkValidation true None.
Definition invalid (msg : string) : ValidationResult :=
  mkValidation false (Some (str msg)).

(** [[a-zA-Z0-9-]] *)
Definition is_ens_char (c : N) : bool :=
  is_lower c || is_upper c || is_digit c || (c =? 45)%N.

(** [validateENS]: [/^[a-zA-Z0-9-]+\.eth$/.test(name)] *)
Definition validateENS (name : jsstring) : bool :=
  let n := length name in
  let label := take (n - 4) name in
  negb (streq label []) && forallb is_ens_char label
  && streq (drop (n - 4) name) (str ".eth").

(** [validateAmount] *)
Definition validateAmount (amount : jsstring) : ValidationResult :=
  let numAmount := parseFloat amount in
  if isNaN numAmount then invalid "Amount must be a valid number"
  else if le numAmount (of_Z 0) then invalid "Amount must be greater than 0"
  else if gt numAmount (of_Z 1000000) then invalid "Amount is too large"
  else
    let decimalParts := split 46 amount in
    match decimalParts with
    | _ :: fraction :: _ =>
        if (18 <? length fraction)%nat then invalid "Too many decimal places"
        else valid
    | _ => valid
    end.

(** [sanitizeInput]: [input.trim().replace(/[<>]/g, '').slice(0, 1000)] *)
Definition sanitizeInput (input : jsstring) : jsstring :=
  take 1000 (List.filter (λ c, negb ((c =? 60) || (c =? 62))%N) (trim input)).

Section WithPlatform.

(** [isAddress] of viem and the URL parser behind [new URL(url)] are not
    part of the repository. *)
Variable isAddress : jsstring → bool.
Variable isValidUrl : jsstring → bool.

(** The [recipient] field of [tipRequestSchema]:
    [z.string().min(1).refine(val => isAddress(val) || validateENS(val))] *)
Definition tipRequestSchema_recipient (val : jsstring) : bool :=
  (1 <=? length val)%nat && (isAddress val || validateENS val).

(** [validateFrameMessage]; the asynchronous function has no await
    inside, and its [catch] returns false as well. *)
Definition validateFrameMessage (message : value) : bool :=
  if negb (truthy message) || negb (typeof_object message) then false
  else if negb (forallb (λ field, has field message)
                  [str "fid"; str "url"; str "messageHash";
                   str "timestamp"; str "network"]) then false
  else if match prop (str "fid") message with
          | VNumber n => le n (of_Z 0)
          | _ => true
          end then false
  else if match prop (str "url") message with
          | VString u => negb (isValidUrl u)
          | _ => true
          end then false
  else if match prop (str "messageHash") message with
          | VString h => (length h <? 10)%nat
          | _ => true
          end then false
  else if match prop (str "timestamp") message with
          | VNumber n => le n (of_Z 0)
          | _ => true
          end then false
  else if match prop (str "network") message with
          | VNumber _ => false
          | _ => true
          end then false
  else if has (str "buttonIndex") message &&
          match prop (str "buttonIndex") message with
          | VNumber n => lt n (of_Z 1) || gt n (of_Z 4)
          | _ => true
          end then false
  else if has (str "inputText") message &&
          match prop (str "inputText") message with
          | VString t => (256 <? length t)%nat
          | _ => true
          end then false
  else if has (str "castId") message &&
          (let castId := prop (str "castId") message in
           negb (truthy castId)
           || match prop (str "fid") castId with
              | VNumber _ => false
              | _ => true
              end
           || match prop (str "hash") castId with
              | VString _ => false
              | _ => true
              end) then false
  else true.

End WithPlatform.

End Validation.

(** ** BigInt: [toString(radix)] and [BigInt(string)] *)

Module JSBigInt.

(** The digit characters [0-9a-z] that [toString] writes. *)
Definition digit_char (d : Z) : N :=
  Z.to_N (if d <? 10 then 48 + d else 87 + d).

(** The value of a digit character, read as [BigInt] reads it (either
    case), when it is a digit of the radix. *)
Definition char_digit (radix : Z) (c : N) : option Z :=
  let d :=
    if is_digit c then Z.of_N c - 48
    else if is_lower c then Z.of_N c - 87
    else if is_upper c then Z.of_N c - 55
    else radix in
  if d <? radix then Some d else None.

(** The digits of [n >= 0], most significant first, written in front of
    [acc]; [fuel] bounds the number of digits. *)
Fixpoint digits_from (fuel : nat) (radix n : Z) (acc : jsstring) : jsstring :=
  let acc' := digit_char (n mod radix) :: acc in
  match fuel with
  | O => acc'
  | S fuel' =>
      if n / radix =? 0 then acc' else digits_from fuel' radix (n / radix) acc'
  end.

(** [n.toString(radix)]: a number below [2^(k+1)] has at most [k+1]
    digits in any radix from 2 on. *)
Definition toString (radix n : Z) : jsstring :=
  if n <? 0 then 45%N :: digits_from (Z.to_nat (Z.log2 (- n))) radix (- n) []
  else digits_from (Z.to_nat (Z.log2 n)) radix n [].

(** The value of a run of digits of the radix; [None] on any other
    character (where [BigInt] throws a SyntaxError). *)
Definition parse_step (radix : Z) (acc : option Z) (c : N) : option Z :=
  a ← acc; d ← char_digit radix c; Some (radix * a + d).

Definition parse_digits (radix : Z) (s : jsstring) : option Z :=
  fold_left (parse_step radix) s (Some 0).

End JSBigInt.

(** ** lib/chain.ts *)

Module Chain.

(** The fields of lib/types.ts [SupportedChain] that the back end reads. *)
Record SupportedChain := mkChain { id : Z; name : jsstring }.

Definition SUPPORTED_CHAINS : list SupportedChain :=
  [mkChain 1 (str "Ethereum"); mkChain 8453 (str "Base");
   mkChain 10 (str "Optimism")].

Definition TESTNET_CHAINS : list SupportedChain :=
  [mkChain 11155111 (str "Sepolia"); mkChain 84532 (str "Base Sepolia");
   mkChain 11155420 (str "Optimism Sepolia")].

(** [getSupportedChains()]; [isProduction] is
    [process.env.NODE_ENV === 'production']. *)
Definition getSupportedChains (isProduction : bool) : list SupportedChain :=
  if isProduction then SUPPORTED_CHAINS else SUPPORTED_CHAINS ++ TESTNET_CHAINS.

End Chain.

(** ** lib/currency.ts and lib/contracts.ts *)

Module Contracts.

(** What reading [record[key]] on an object literal gives: an own
    property, a member inherited from [Object.prototype] (a function or
    object, truthy and not [undefined]), or [undefined]. *)
Inductive looked (A : Type) :=
| Own (a : A)
| Inherited
| Undefined.
Arguments Own {A} a.
Arguments Inherited {A}.
Arguments Undefined {A}.

(** The names of the members of [Object.prototype]. *)
Definition Object_prototype_keys : list jsstring :=
  [str "constructor"; str "hasOwnProperty"; str "isPrototypeOf";
   str "propertyIsEnumerable"; str "toLocaleString"; str "toString";
   str "valueOf"; str "__proto__"; str "__defineGetter__";
   str "__defineSetter__"; str "__lookupGetter__"; str "__lookupSetter__"].

Fixpoint assoc {A} (key : jsstring) (record : list (jsstring * A)) : option A :=
  match record with
  | [] => None
  | (k, v) :: rest => if streq k key then Some v else assoc key rest
  end.

(** [record[key]] *)
Definition lookup_property {A} (record : list (jsstring * A)) (key : jsstring)
  : looked A :=
  match assoc key record with
  | Some v => Own v
  | None =>
      if bool_decide (key ∈ Object_prototype_keys) then Inherited else Undefined
  end.

(** lib/currency.ts [TOKEN_ADDRESSES] *)
Definition TOKEN_ADDRESSES : list (Z * list (jsstring * jsstring)) :=
  [(1, [(str "USDC", str "0xA0b86a33E6C17B8D8600Ff3C9C6d5f8a9A1F8C7E");
        (str "USDT", str "0xdAC17F958D2ee523a2206206994597C13D831ec7");
        (str "WETH", str "0xC02aaA39b223FE8D0A0e5C4F27eAD9083C756Cc2")]);
   (8453, [(str "USDC", str "0x833589fCD6eDb6E08f4c7C32D4f71b54bdA02913");
           (str "WETH", str "0x4200000000000000000000000000000000000006")]);
   (10, [(str "USDC", str "0x7F5c764cBc14f9669B88837ca1490cCa17c31607");
         (str "USDT", str "0x94b008aA00579c1307B0EF2c499aD98a8ce58e58");
         (str "WETH", str "0x4200000000000000000000000000000000000006")])].

(** lib/contracts.ts [TOKEN_DECIMALS] *)
Definition TOKEN_DECIMALS : list (jsstring * Z) :=
  [(str "ETH", 18); (str "WETH", 18); (str "USDC", 6); (str "USDT", 6);
   (str "DAI", 18)].

(** [TOKEN_ADDRESSES[chainId]] for a chain id that is a number. *)
Fixpoint chain_tokens (chainId : Z) (table : list (Z * list (jsstring * jsstring)))
  : option (list (jsstring * jsstring)) :=
  match table with
  | [] => None
  | (c, tokens) :: rest => if c =? chainId then Some tokens else chain_tokens chainId rest
  end.

(** lib/types.ts [TokenContract], without the constant [abi]. *)
Record TokenContract := mkTokenContract {
  address : looked jsstring;
  chainId : Z;
  symbol : jsstring;
  decimals : looked Z
}.

(** [getTokenContract(symbol, chainId)]; [None] is [null]. *)
Definition getTokenContract (symbol : jsstring) (chainId : Z) : option TokenContract :=
  if streq symbol (str "ETH") then None
  else
    let address :=
      match chain_tokens chainId TOKEN_ADDRESSES with
      | Some tokens => lookup_property tokens symbol
      | None => Undefined
      end in
    if match address with
       | Undefined => true
       | Own a => streq a []
       | Inherited => false
       end then None
    else
      let decimals := lookup_property TOKEN_DECIMALS symbol in
      match decimals with
      | Undefined => None
      | _ => Some (mkTokenContract address chainId symbol decimals)
      end.

(** [getTokenDecimals(symbol)]: [TOKEN_DECIMALS[symbol] || 18] *)
Definition getTokenDecimals (symbol : jsstring) : looked Z :=
  match lookup_property TOKEN_DECIMALS symbol with
  | Own d => if d =? 0 then Own 18 else Own d
  | Inherited => Inherited
  | Undefined => Own 18
  end.

(** [encodeTransfer(to, amount)] *)
Definition encodeTransfer (to : jsstring) (amount : Z) : jsstring :=
  str "0xa9059cbb"
  ++ padStart 64 48 (slice_from 2 to)
  ++ padStart 64 48 (JSBigInt.toString 16 amount).

End Contracts.

(** ** lib/rate-limit.ts : InMemoryRateLimiter *)

Module RateLimit.

(** The value type of the [requests] map. *)
Record Entry := mkEntry { count : Z; resetTime : Z }.

(** lib/types.ts [RateLimitResult]; the field [limit_] is [limit] in the
    source, the name that the method below has. *)
Record RateLimitResult := mkResult {
  success : bool;
  limit_ : Z;
  remaining : Z;
  reset : Z
}.

(** The fields of an [InMemoryRateLimiter] instance. *)
Record InMemoryRateLimiter := mkLimiter {
  requests : gmap jsstring Entry;
  maxRequests : Z;
  windowMs : Z
}.

#[export] Instance Entry_eq_dec : EqDecision Entry.
Proof. solve_decision. Defined.

(** [constructor(maxRequests = 100, windowMs = 60000)] *)
Definition new (maxRequests windowMs : option Z) : InMemoryRateLimiter :=
  mkLimiter ∅ (default 100 maxRequests) (default 60000 windowMs).

(** [cleanup(now)]: delete every entry with [now > entry.resetTime]. *)
Definition cleanup (now : Z) (reqs : gmap jsstring Entry) : gmap jsstring Entry :=
  filter (λ kv : jsstring * Entry, ¬ (now > resetTime kv.2)) reqs.

(** [limit(identifier)].  [now] is the value of [Date.now()], [rnd] tells
    whether [Math.random() < 0.01] held.  The entry is read before the
    clean-up runs, as in the source; [entry.count++] updates the object
    that the map holds, hence [alter]. *)
Definition limit (rl : InMemoryRateLimiter) (identifier : jsstring)
    (now : Z) (rnd : bool) : RateLimitResult * InMemoryRateLimiter :=
  let entry := requests rl !! identifier in
  let reqs := if rnd then cleanup now (requests rl) else requests rl in
  let fresh :=
    (mkResult true (maxRequests rl) (maxRequests rl - 1) (now + windowMs rl),
     mkLimiter (<[identifier := mkEntry 1 (now + windowMs rl)]> reqs)
               (maxRequests rl) (windowMs rl)) in
  match entry with
  | None => fresh
  | Some e =>
      if now >? resetTime e then fresh
      else
        let reqs' :=
          alter (λ e0, mkEntry (count e0 + 1) (resetTime e0)) identifier reqs in
        let rl' := mkLimiter reqs' (maxRequests rl) (windowMs rl) in
        let count' := count e + 1 in
        if count' >? maxRequests rl
        then (mkResult false (maxRequests rl) 0 (resetTime e), rl')
        else (mkResult true (maxRequests rl) (maxRequests rl - count')
                       (resetTime e), rl')
  end.

(** [getStatus(identifier)] *)
Definition getStatus (rl : InMemoryRateLimiter) (identifier : jsstring)
  : option Entry := requests rl !! identifier.

(** Successive calls of [limit] by one identifier; each call comes with
    its clock reading and its clean-up coin. *)
Fixpoint limit_many (rl : InMemoryRateLimiter) (identifier : jsstring)
    (calls : list (Z * bool)) : list RateLimitResult * InMemoryRateLimiter :=
  match calls with
  | [] => ([], rl)
  | (now, rnd) :: rest =>
      let '(r, rl1) := limit rl identifier now rnd in
      let '(rs, rl2) := limit_many rl1 identifier rest in
      (r :: rs, rl2)
  end.

(** lib/rate-limit.ts [RATE_LIMIT_CONFIGS] *)
Definition RATE_LIMIT_CONFIGS_api := (100, 60000).
Definition RATE_LIMIT_CONFIGS_frames := (50, 60000).
Definition RATE_LIMIT_CONFIGS_tips := (10, 60000).
Definition RATE_LIMIT_CONFIGS_images := (200, 60000).
Definition RATE_LIMIT_CONFIGS_auth := (5, 300000).

(** [createRateLimiter(config)]: the Redis branch is commented out in the
    source, so every instance is an in-memory limiter. *)
Definition createRateLimiter (config : Z * Z) : InMemoryRateLimiter :=
  new (Some config.1) (Some config.2).

End RateLimit.

(** ** app/api/frame/prepare-tip/route.ts *)

Module PrepareTip.
Import JSNumber JSValue Validation RateLimit Chain Contracts.

(** The [amount] field of [tipSchema]:
    [!isNaN(parseFloat(val)) && parseFloat(val) > 0] *)
Definition tipSchema_amount (val : jsstring) : bool :=
  negb (isNaN (parseFloat val)) && gt (parseFloat val) (of_Z 0).

(** The [token] field of [tipSchema]: [z.string().min(1)] *)
Definition tipSchema_token (val : jsstring) : bool := (1 <=? length val)%nat.

(** The [recipient] field of [tipSchema]: [/^0x[a-fA-F0-9]{40}$/] *)
Definition tipSchema_recipient (val : jsstring) : bool :=
  match strip_prefix (str "0x") val with
  | Some digits => (length digits =? 40)%nat && forallb is_hex digits
  | None => false
  end.

(** [tipSchema.safeParse({ amount, token, recipient }).success] *)
Definition tipSchema_safeParse (amount token recipient : jsstring) : bool :=
  tipSchema_amount amount && tipSchema_token token && tipSchema_recipient recipient.

(** What the handler reads of a request: [request.ip], the JSON body
    ([None] when [request.json()] throws) and three query parameters
    ([None] when [searchParams.get] gives [null]). *)
Record Request := mkRequest {
  ip : option jsstring;
  body : option value;
  query_amount : option jsstring;
  query_token : option jsstring;
  query_recipient : option jsstring
}.

(** [searchParams.get(name) || fallback] *)
Definition param_or (param : option jsstring) (fallback : jsstring) : jsstring :=
  match param with
  | Some (c :: v) => c :: v
  | _ => fallback
  end.

(** [transactionData] *)
Record TransactionData := mkTx {
  to : looked jsstring;
  value : jsstring;
  data : jsstring
}.

(** The responses of [POST], by status and content. *)
Inductive Response :=
| TooManyRequests                                   (* 429 *)
| InvalidFrameMessage                               (* 400 *)
| InvalidParameters                                 (* 400 *)
| NoSupportedChains                                 (* 500 *)
| TokenNotSupported (token chainName : jsstring)    (* 400 *)
| TransactionFrame (chain_id : Z) (tx : TransactionData)
    (amount token recipient : jsstring)             (* 200, frame document *)
| ErrorFrame.                                       (* 500, the catch block *)

Section WithLibraries.

Variable isValidUrl : jsstring → bool.

(** ethers is a dependency of the repository.  [parseUnits value unit]
    stands for [ethers.parseUnits(value, unit)] and [encodeTransferCall
    to amount] for [new ethers.Interface([...]).encodeFunctionData(
    'transfer', [to, amount])]; [None] when the call throws. *)
Variable parseUnits : jsstring → Z → option Z.
Variable encodeTransferCall : jsstring → Z → option jsstring.

(** [ethers.parseEther(ether)] is [parseUnits(ether, 18)]. *)
Definition parseEther (ether : jsstring) : option Z := parseUnits ether 18.

(** [chains.find(chain => chain.name.toLowerCase() === 'base') || chains[0]] *)
Definition preferredChain (chains : list SupportedChain) : option SupportedChain :=
  match List.find (λ chain, streq (toLowerCase (name chain)) (str "base")) chains with
  | Some chain => Some chain
  | None => head chains
  end.

(** The body of [POST] once the limiter has let the request through. *)
Definition prepare (isProduction : bool) (req : Request) : Response :=
  match body req with
  | None => ErrorFrame
  | Some message =>
      if negb (validateFrameMessage isValidUrl message) then InvalidFrameMessage
      else
        let amount := param_or (query_amount req) (str "0.01") in
        let token := param_or (query_token req) (str "ETH") in
        let recipient := param_or (query_recipient req) [] in
        if negb (tipSchema_safeParse amount token recipient) then InvalidParameters
        else
          match preferredChain (getSupportedChains isProduction) with
          | None => NoSupportedChains
          | Some chain =>
              match parseEther amount with
              | None => ErrorFrame
              | Some amountInWei =>
                  if streq token (str "ETH") then
                    TransactionFrame (id chain)
                      (mkTx (Own recipient) (JSBigInt.toString 10 amountInWei)
                            (str "0x"))
                      amount token recipient
                  else
                    match getTokenContract token (id chain) with
                    | None => TokenNotSupported token (name chain)
                    | Some tokenContract =>
                        match getTokenDecimals token with
                        | Own decimals =>
                            match parseUnits amount decimals with
                            | None => ErrorFrame
                            | Some tokenAmount =>
                                match encodeTransferCall recipient tokenAmount with
                                | None => ErrorFrame
                                | Some transferData =>
                                    TransactionFrame (id chain)
                                      (mkTx (address tokenContract) (str "0")
                                            transferData)
                                      amount token recipient
                                end
                            end
                        | _ =>
                            (* a unit that is neither a string nor a number
                               makes parseUnits throw *)
                            ErrorFrame
                        end
                    end
              end
          end
  end.

(** [POST(request)]: the shared [rateLimit] instance is threaded through;
    [now] and [rnd] are what its [limit] reads. *)
Definition POST (rateLimit : InMemoryRateLimiter) (now : Z) (rnd : bool)
    (isProduction : bool) (req : Request) : Response * InMemoryRateLimiter :=
  let identifier := default (str "anonymous") (ip req) in
  let '(result, rateLimit') := limit rateLimit identifier now rnd in
  if negb (success result) then (TooManyRequests, rateLimit')
  else (prepare isProduction req, rateLimit').

End WithLibraries.

(** The shared instance [rateLimit] of lib/rate-limit.ts. *)
Definition rateLimit : InMemoryRateLimiter :=
  createRateLimiter RATE_LIMIT_CONFIGS_api.

End PrepareTip.

(** ** Decimal strings and the contract of the ethers calls *)

Module Decimal.

(** The whole and the fraction digits of a string of the form
    [digits], [digits.digits], [digits.] or [.digits] with at least one
    digit; [None] for any other string. *)
Definition parts (s : jsstring) : option (jsstring * jsstring) :=
  let '(whole, r1) := span is_digit s in
  match r1 with
  | [] => match whole with [] => None | _ => Some (whole, []) end
  | c :: r =>
      if (c =? 46)%N then
        let '(frac, r2) := span is_digit r in
        match r2, whole ++ frac with
        | [], _ :: _ => Some (whole, frac)
        | _, _ => None
        end
      else None
  end.


(** The number of fraction digits of a decimal string. *)
Definition fraction_digits (s : jsstring) : nat :=
  match parts s with Some (_, frac) => length frac | None => 0 end.

(** The rational that a decimal string denotes. *)
Definition decimal_value (s : jsstring) : Q :=
  match parts s with
  | Some (whole, frac) =>
      (inject_Z (digits_value (whole ++ frac))
       / inject_Z (10 ^ Z.of_nat (length frac)))%Q
  | None => 0%Q
  end.

End Decimal.

Module Ethers.
Import Decimal.


(** Modelled from the spec: the ethers library is not under src/.  The
    spec asks for "exact integer arithmetic on the decimal string
    representation (no floating-point conversion)" with scaling by the
    decimal count of the unit; this is [parseUnits] of ethers 6: an
    optional minus sign, digits, an optional point and digits; fraction
    digits beyond the unit's decimals must all be zero; the result must
    fit 512 bits with sign; a unit of more than 80 decimals is refused. *)
Definition parseUnits (value : jsstring) (decimals : Z) : option Z :=
  let '(neg, magnitude) :=
    match value with
    | c :: r => if (c =? 45)%N then (true, r) else (false, value)
    | [] => (false, value)
    end in
  match parts magnitude with
  | None => None
  | Some (whole, frac) =>
      if (decimals <? 0) || (80 <? decimals) then None
      else
        let d := Z.to_nat decimals in
        let padded := frac ++ replicate (d - length frac) 48%N in
        if negb (forallb (λ c, (c =? 48)%N) (drop d padded)) then None
        else
          let v := digits_value (whole ++ take d padded) in
          let v := if neg then - v else v in
          if (- 2 ^ 511 <=? v) && (v <? 2 ^ 511) then Some v else None
  end.

(** [[0-9a-f]] *)
Definition is_lower_hex (c : N) : bool :=
  (is_digit c || (97 <=? c) && (c <=? 102))%N.

(** What the handler relies on from [Interface.encodeFunctionData] of
    ethers for [transfer(address,uint256)]: for an address written without
    capital letters and an amount that fits a [uint256], the data is the
    selector, the 40 digits of the address behind 24 zeros, and the amount
    as a word of 64 hexadecimal digits in lower case. *)
Definition abi_transfer_encoder (encode : jsstring → Z → option jsstring) : Prop :=
  ∀ (digits : jsstring) (amount : Z),
    length digits = 40%nat →
    Forall (λ c, is_lower_hex c = true) digits →
    (0 <= amount < 2 ^ 256)%Z →
    ∃ word : jsstring,
      encode (str "0x" ++ digits) amount
      = Some (str "0xa9059cbb" ++ replicate 24 48%N ++ digits ++ word)
      ∧ length word = 64%nat
      ∧ Forall (λ c, is_lower_hex c = true) word
      ∧ JSBigInt.parse_digits 16 word = Some amount.

End Ethers.

(** ** Reading a token-transfer call back *)

Module CallData.

(** The two arguments of a token-transfer call, read from its call data
    as the ABI lays them out after the ten characters [0x] + selector: the
    recipient is the low 20 bytes of the first 32-byte word, the amount is
    the second word.  The slices follow [decodeTransferEvent] of
    lib/contracts.ts, which reads an address as the last 40 digits of a
    word and a value with [BigInt]. *)
Definition decodeTransfer (data : jsstring) : option (jsstring * Z) :=
  let to := str "0x" ++ slice 34 74 data in
  amount ← JSBigInt.parse_digits 16 (slice 74 138 data);
  Some (to, amount).

(** The selector, the first ten characters of the call data. *)
Definition selector (data : jsstring) : jsstring := slice 0 10 data.

End CallData.

(** ** lib/rate-limit.ts : the other entry points *)

Module RateLimitMore.
Import RateLimit.

(** [reset(identifier)] *)
Definition reset (rl : InMemoryRateLimiter) (identifier : jsstring)
  : InMemoryRateLimiter :=
  mkLimiter (delete identifier (requests rl)) (maxRequests rl) (windowMs rl).

(** [clear()] *)
Definition clear (rl : InMemoryRateLimiter) : InMemoryRateLimiter :=
  mkLimiter ∅ (maxRequests rl) (windowMs rl).

(** The keys of [RATE_LIMIT_CONFIGS]. *)
Inductive ConfigName := api | frames | tips | images | auth.

Definition RATE_LIMIT_CONFIGS (type : ConfigName) : Z * Z :=
  match type with
  | api => RATE_LIMIT_CONFIGS_api
  | frames => RATE_LIMIT_CONFIGS_frames
  | tips => RATE_LIMIT_CONFIGS_tips
  | images => RATE_LIMIT_CONFIGS_images
  | auth => RATE_LIMIT_CONFIGS_auth
  end.

(** [checkRateLimit(identifier, type)]: the limiter is created inside the
    call. *)
Definition checkRateLimit (identifier : jsstring) (type : ConfigName)
    (now : Z) (rnd : bool) : RateLimitResult :=
  let limiter := createRateLimiter (RATE_LIMIT_CONFIGS type) in
  (limit limiter identifier now rnd).1.

(** What [getIPIdentifier] reads of a request; a header or field that is
    absent is [None], and a header has one string value. *)
Record IncomingRequest := mkIncoming {
  x_forwarded_for : option jsstring;
  x_real_ip : option jsstring;
  cf_connecting_ip : option jsstring;
  socket_remoteAddress : option jsstring;
  req_ip : option jsstring
}.

(** The value of an optional string when it is truthy. *)
Definition truthy_string (o : option jsstring) : option jsstring :=
  match o with
  | Some (c :: s) => Some (c :: s)
  | _ => None
  end.

(** [getIPIdentifier(req)] *)
Definition getIPIdentifier (req : IncomingRequest) : jsstring :=
  match truthy_string (x_forwarded_for req) with
  | Some forwarded => trim (default [] (head (split 44 forwarded)))
  | None =>
      match truthy_string (x_real_ip req) with
      | Some realIP => realIP
      | None =>
          match truthy_string (cf_connecting_ip req) with
          | Some cfConnectingIP => cfConnectingIP
          | None =>
              match truthy_string (socket_remoteAddress req) with
              | Some address => address
              | None =>
                  match truthy_string (req_ip req) with
                  | Some ip => ip
                  | None => str "anonymous"
                  end
              end
          end
      end
  end.

End RateLimitMore.

(** ** lib/validation.ts : the other validators *)

Module ValidationMore.
Import JSNumber Validation.

(** The [amount] field of [tipRequestSchema]: [min(1)] and two
    refinements; the field passes when none of them raises an issue. *)
Definition tipRequestSchema_amount (val : jsstring) : bool :=
  (1 <=? length val)%nat
  && (negb (isNaN (parseFloat val)) && gt (parseFloat val) (of_Z 0))
  && le (parseFloat val) (of_Z 1000000).

(** [validateChainId]; a chain id is an integer below [10^21], which
    the template literal prints in full. *)
Definition validateChainId (chainId : Z) : ValidationResult :=
  if negb (bool_decide (chainId ∈ [1; 8453; 10]))
  then mkValidation false
         (Some (str "Chain ID " ++ JSBigInt.toString 10 chainId
                ++ str " is not supported"))
  else valid.

(** [validateTxHash]: [/^0x[a-fA-F0-9]{64}$/] *)
Definition validateTxHash (hash : jsstring) : ValidationResult :=
  if negb match strip_prefix (str "0x") hash with
          | Some digits => (length digits =? 64)%nat && forallb is_hex digits
          | None => false
          end
  then invalid "Invalid transaction hash format"
  else valid.

(** [validateFID] *)
Definition validateFID (fid : number) : ValidationResult :=
  if negb (isInteger fid) || le fid (of_Z 0) || gt fid (of_Z 1000000)
  then invalid "Invalid Farcaster ID"
  else valid.

(** [validateFrameMessage_Length] *)
Definition validateFrameMessage_Length (message : jsstring) : ValidationResult :=
  if (256 <? length message)%nat
  then invalid "Message is too long. Maximum 256 characters allowed."
  else valid.

End ValidationMore.

(** ** lib/chain.ts : look-ups *)

Module ChainMore.
Import Chain.

(** [getChainById(chainId)] *)
Definition getChainById (isProduction : bool) (chainId : Z) : option SupportedChain :=
  List.find (λ chain, id chain =? chainId) (getSupportedChains isProduction).

(** [isChainSupported(chainId)] *)
Definition isChainSupported (isProduction : bool) (chainId : Z) : bool :=
  bool_decide (is_Some (getChainById isProduction chainId)).

(** [getDefaultChain()]; [None] if the registry were empty. *)
Definition getDefaultChain : option SupportedChain :=
  match List.find (λ chain, id chain =? 8453) SUPPORTED_CHAINS with
  | Some chain => Some chain
  | None => head SUPPORTED_CHAINS
  end.

(** [isL2Chain(chainId)] *)
Definition isL2Chain (chainId : Z) : bool :=
  bool_decide (chainId ∈ [8453; 10; 137; 42161]).

Inductive Category := mainnet | l2 | testnet.

(** [getChainCategory(chainId)] *)
Definition getChainCategory (chainId : Z) : Category :=
  if existsb (λ chain, id chain =? chainId) TESTNET_CHAINS then testnet
  else if isL2Chain chainId then l2
  else mainnet.

(** The table [bridges] of [getBridgeUrl]; the key [`${from}-${to}`] is
    kept as the pair of the two chain ids. *)
Definition bridges : list (Z * Z * jsstring) :=
  [(1, 8453, str "https://bridge.base.org");
   (8453, 1, str "https://bridge.base.org");
   (1, 10, str "https://app.optimism.io/bridge");
   (10, 1, str "https://app.optimism.io/bridge")].

(** [getBridgeUrl(fromChainId, toChainId)]; [None] is [null]. *)
Definition getBridgeUrl (fromChainId toChainId : Z) : option jsstring :=
  match List.find (λ entry : Z * Z * jsstring,
                     (entry.1.1 =? fromChainId) && (entry.1.2 =? toChainId))
                  bridges with
  | Some entry => Some entry.2
  | None => None
  end.

End ChainMore.

(** ** lib/contracts.ts and lib/currency.ts : the other helpers *)

Module ContractsMore.
Import Contracts.

(** [encodeApprove(spender, amount)] *)
Definition encodeApprove (spender : jsstring) (amount : Z) : jsstring :=
  str "0x095ea7b3"
  ++ padStart 64 48 (slice_from 2 spender)
  ++ padStart 64 48 (JSBigInt.toString 16 amount).

(** [isContract(address)]: [address.length === 42 && address.startsWith('0x')] *)
Definition isContract (address : jsstring) : bool :=
  (length address =? 42)%nat
  && bool_decide (is_Some (strip_prefix (str "0x") address)).

(** ToBoolean of what a record look-up gives. *)
Definition Boolean (address : looked jsstring) : bool :=
  match address with
  | Own a => negb (streq a [])
  | Inherited => true
  | Undefined => false
  end.

(** [TOKEN_ADDRESSES[chainId]?.[symbol]] *)
Definition token_address (symbol : jsstring) (chainId : Z) : looked jsstring :=
  match chain_tokens chainId TOKEN_ADDRESSES with
  | Some tokens => lookup_property tokens symbol
  | None => Undefined
  end.

(** lib/currency.ts [isTokenSupportedOnChain(symbol, chainId)] *)
Definition isTokenSupportedOnChain (symbol : jsstring) (chainId : Z) : bool :=
  if streq symbol (str "ETH") then true
  else Boolean (token_address symbol chainId).

(** The entries of [TOKEN_LIST], without [name] and [icon]. *)
Record ListedToken := mkListed {
  listed_symbol : jsstring;
  listed_decimals : Z;
  isNative : bool
}.

Definition TOKEN_LIST : list ListedToken :=
  [mkListed (str "ETH") 18 true; mkListed (str "USDC") 6 false;
   mkListed (str "USDT") 6 false; mkListed (str "WETH") 18 false].

(** [getTokenListForChain(chainId)] *)
Definition getTokenListForChain (chainId : Z) : list ListedToken :=
  List.filter
    (λ token, if isNative token then true
              else Boolean (token_address (listed_symbol token) chainId))
    TOKEN_LIST.

(** [BigInt(string)]: white space is trimmed, the empty string is 0, a
    literal is [0x], [0o] or [0b] (either case) followed by digits of the
    radix, or decimal digits behind an optional sign; [None] stands for
    the SyntaxError. *)
Definition BigInt (s : jsstring) : option Z :=
  let digits (radix : Z) (ds : jsstring) : option Z :=
    match ds with
    | [] => None
    | _ => JSBigInt.parse_digits radix ds
    end in
  match trim s with
  | [] => Some 0
  | 48%N :: p :: ds =>
      if ((p =? 120) || (p =? 88))%N then digits 16 ds
      else if ((p =? 111) || (p =? 79))%N then digits 8 ds
      else if ((p =? 98) || (p =? 66))%N then digits 2 ds
      else if forallb is_digit (48%N :: p :: ds)
           then digits 10 (48%N :: p :: ds) else None
  | c :: ds =>
      if (c =? 45)%N
      then (if forallb is_digit ds then v ← digits 10 ds; Some (- v) else None)
      else if (c =? 43)%N
      then (if forallb is_digit ds then digits 10 ds else None)
      else if forallb is_digit (c :: ds) then digits 10 (c :: ds) else None
  end.

(** [EVENT_SIGNATURES.Transfer] *)
Definition EVENT_SIGNATURES_Transfer : jsstring :=
  str "0xddf252ad1be2c89b69c2b068fc378daa952ba7f163c4a11628f55a4df523b3ef".

(** A log entry: [log.topics] and [log.data]. *)
Record Log := mkLog { topics : list jsstring; data : jsstring }.

Record TransferEvent := mkTransfer {
  event_from : jsstring;
  event_to : jsstring;
  event_value : Z
}.

(** [decodeTransferEvent(log)]; [None] is [null], returned for another
    first topic and from the [catch] block (a missing topic, a [data] that
    [BigInt] refuses). *)
Definition decodeTransferEvent (log : Log) : option TransferEvent :=
  if negb (bool_decide (topics log !! 0%nat = Some EVENT_SIGNATURES_Transfer))
  then None
  else
    match topics log !! 1%nat, topics log !! 2%nat with
    | Some topic1, Some topic2 =>
        match BigInt (data log) with
        | Some v =>
            Some (mkTransfer (str "0x" ++ slice_from 26 topic1)
                             (str "0x" ++ slice_from 26 topic2) v)
        | None => None
        end
    | _, _ => None
    end.

End ContractsMore.

(** ** app/api/frame/route.ts *)

Module FrameRoute.
Import JSNumber JSValue Validation RateLimit.

(** A string is well formed when every surrogate is half of a pair;
    [encodeURIComponent] throws a URIError on any other string. *)
Fixpoint isWellFormed (s : jsstring) : bool :=
  match s with
  | [] => true
  | c :: rest =>
      if ((55296 <=? c) && (c <=? 56319))%N then
        match rest with
        | c' :: rest' =>
            ((56320 <=? c') && (c' <=? 57343))%N && isWellFormed rest'
        | [] => false
        end
      else if ((56320 <=? c) && (c <=? 57343))%N then false
      else isWellFormed rest
  end.

(** What [POST] reads of a request. *)
Record Request := mkRequest {
  ip : option jsstring;
  body : option value;
  query_recipient : option jsstring
}.

Inductive Response :=
| TooManyRequests                                      (* 429 *)
| InvalidFrameMessage                                  (* 400 *)
| SelectedFrame (amount token recipient : jsstring)    (* 200, frame document *)
| InternalServerError.                                 (* 500, the catch block *)

(** The [switch (buttonIndex)] of [POST]: strict equality with 1, 2, 3. *)
Definition selected_amount (buttonIndex : value) : jsstring :=
  match buttonIndex with
  | VNumber (Finite q) =>
      if Qeq_bool q 1 then str "0.01"
      else if Qeq_bool q 2 then str "0.05"
      else if Qeq_bool q 3 then str "0.1"
      else str "0.01"
  | _ => str "0.01"
  end.

Section WithPlatform.

Variable isValidUrl : jsstring → bool.

(** The body of [POST] once the limiter has let the request through.
    [recipient] is [searchParams.get('recipient') || inputText || ''];
    the frame document embeds [encodeURIComponent(recipient)]. *)
Definition select (req : Request) : Response :=
  match body req with
  | None => InternalServerError
  | Some message =>
      if negb (validateFrameMessage isValidUrl message) then InvalidFrameMessage
      else
        let buttonIndex := prop (str "buttonIndex") message in
        let inputText := prop (str "inputText") message in
        let recipient :=
          match query_recipient req with
          | Some (c :: r) => c :: r
          | _ => match inputText with
                 | VString (c :: t) => c :: t
                 | _ => []
                 end
          end in
        let amount := selected_amount buttonIndex in
        let token := str "ETH" in
        if negb (isWellFormed recipient) then InternalServerError
        else SelectedFrame amount token recipient
  end.

(** [POST(request)] *)
Definition POST (rateLimit : InMemoryRateLimiter) (now : Z) (rnd : bool)
    (req : Request) : Response * InMemoryRateLimiter :=
  let identifier := default (str "anonymous") (ip req) in
  let '(result, rateLimit') := limit rateLimit identifier now rnd in
  if negb (success result) then (TooManyRequests, rateLimit')
  else (select req, rateLimit').

End WithPlatform.

End FrameRoute.

(** ** lib/validation.ts and lib/currency.ts : token symbols *)

Module Tokens.
Import Validation Contracts ContractsMore.

(** The fields of lib/types.ts [Token] apart from [name] and [icon]. *)
Record Token := mkToken {
  token_symbol : jsstring;
  token_decimals : Z;
  token_chainId : Z;
  token_isNative : bool;
  token_address : option jsstring
}.

(** lib/currency.ts [SUPPORTED_TOKENS] *)
Definition SUPPORTED_TOKENS : list (jsstring * Token) :=
  [(str "ETH", mkToken (str "ETH") 18 1 true None);
   (str "USDC", mkToken (str "USDC") 6 1 false
                  (Some (str "0xA0b86a33E6C17B8D8600Ff3C9C6d5f8a9A1F8C7E")));
   (str "USDT", mkToken (str "USDT") 6 1 false
                  (Some (str "0xdAC17F958D2ee523a2206206994597C13D831ec7")));
   (str "WETH", mkToken (str "WETH") 18 1 false
                  (Some (str "0xC02aaA39b223FE8D0A0e5C4F27eAD9083C756Cc2")))].

(** [getTokenAddress(symbol, chainId)]; [Undefined] is [undefined]. *)
Definition getTokenAddress (symbol : jsstring) (chainId : Z) : looked jsstring :=
  if streq symbol (str "ETH") then Undefined
  else ContractsMore.token_address symbol chainId.

(** [getSupportedTokensForChain(chainId)].  The symbols are the own keys
    of [TOKEN_ADDRESSES[chainId] || {}] in the order of the literal; none
    of them is the name of a member of [Object.prototype], so
    [SUPPORTED_TOKENS[symbol]] is an own property or [undefined]. *)
Definition getSupportedTokensForChain (chainId : Z) : list Token :=
  let eth := mkToken (str "ETH") 18 chainId true None in
  let chainTokens := default [] (chain_tokens chainId TOKEN_ADDRESSES) in
  eth :: omap (λ entry : jsstring * jsstring,
                 match assoc entry.1 SUPPORTED_TOKENS with
                 | Some tokenInfo =>
                     Some (mkToken (token_symbol tokenInfo) (token_decimals tokenInfo)
                                   chainId (token_isNative tokenInfo) (Some entry.2))
                 | None => None
                 end) chainTokens.

(** [list.join(sep)] *)
Fixpoint join (sep : jsstring) (parts : list jsstring) : jsstring :=
  match parts with
  | [] => []
  | [part] => part
  | part :: rest => part ++ sep ++ join sep rest
  end.

(** The table [permitTokens] of lib/contracts.ts [supportsPermit]. *)
Definition permitTokens : list (Z * list jsstring) :=
  [(1, [str "DAI"; str "USDC"]); (8453, [str "USDC"]); (10, [str "USDC"])].

(** [supportsPermit(symbol, chainId)]:
    [permitTokens[chainId]?.includes(symbol) || false] *)
Definition supportsPermit (symbol : jsstring) (chainId : Z) : bool :=
  match List.find (λ entry : Z * list jsstring, entry.1 =? chainId) permitTokens with
  | Some entry => bool_decide (symbol ∈ entry.2)
  | None => false
  end.

Section WithCaseMapping.

(** [String.prototype.toUpperCase], which follows the Unicode case
    mappings, is part of the platform. *)
Variable toUpperCase : jsstring → jsstring.

Definition allowedTokens : list jsstring :=
  [str "ETH"; str "USDC"; str "USDT"; str "WETH"; str "DAI"].

(** lib/validation.ts [validateToken] *)
Definition validateToken (token : jsstring) : ValidationResult :=
  if negb (bool_decide (toUpperCase token ∈ allowedTokens))
  then mkValidation false
         (Some (str "Token " ++ token ++ str " is not supported. Allowed tokens: "
                ++ join (str ", ") allowedTokens))
  else valid.

(** The [token] field of [tipRequestSchema] *)
Definition tipRequestSchema_token (val : jsstring) : bool :=
  (1 <=? length val)%nat && bool_decide (toUpperCase val ∈ allowedTokens).

(** lib/currency.ts [getTokenInfo(symbol)] *)
Definition getTokenInfo (symbol : jsstring) : looked Token :=
  lookup_property SUPPORTED_TOKENS (toUpperCase symbol).

(** lib/currency.ts [validateAmountDecimals(amount, symbol)]; a member
    of [Object.prototype] in the place of the token has no [decimals], and
    [n <= undefined] is false. *)
Definition validateAmountDecimals (amount symbol : jsstring) : bool :=
  match getTokenInfo symbol with
  | Undefined => false
  | token =>
      match split 46 amount with
      | _ :: fraction :: _ =>
          match token with
          | Own t => Z.of_nat (length fraction) <=? token_decimals t
          | _ => false
          end
      | _ => true
      end
  end.

End WithCaseMapping.

End Tokens.

(** ** lib/frames.ts *)

Module Frames.
Import JSNumber JSValue.

(** lib/types.ts [FrameButton] *)
Record FrameButton := mkButton {
  content : jsstring;
  action : jsstring;
  target : option jsstring;
  postUrl : option jsstring
}.

(** lib/types.ts [FrameConfig]; an optional field that is absent is
    [None]. *)
Record FrameConfig := mkConfig {
  image : jsstring;
  imageAspectRatio : option jsstring;
  buttons : option (list FrameButton);
  inputText : option jsstring;
  state : option jsstring
}.

(** [new FrameBuilder()] *)
Definition new_builder : FrameConfig :=
  mkConfig [] (Some (str "1.91:1")) (Some []) None None.

(** The methods of [FrameBuilder] that change the configuration; [None]
    stands for a thrown error. *)
Definition setImage (config : FrameConfig) (imageUrl : jsstring) : FrameConfig :=
  mkConfig imageUrl (imageAspectRatio config) (buttons config) (inputText config)
           (state config).

Definition setAspectRatio (config : FrameConfig) (ratio : jsstring) : FrameConfig :=
  mkConfig (image config) (Some ratio) (buttons config) (inputText config)
           (state config).

Definition addButton (config : FrameConfig) (button : FrameButton)
  : option FrameConfig :=
  match buttons config with
  | Some bs =>
      if (4 <=? length bs)%nat then None
      else Some (mkConfig (image config) (imageAspectRatio config)
                          (Some (bs ++ [button])) (inputText config) (state config))
  | None => None
  end.

Definition setInputText (config : FrameConfig) (placeholder : jsstring) : FrameConfig :=
  mkConfig (image config) (imageAspectRatio config) (buttons config)
           (Some placeholder) (state config).

Definition setState (config : FrameConfig) (s : jsstring) : FrameConfig :=
  mkConfig (image config) (imageAspectRatio config) (buttons config)
           (inputText config) (Some s).

(** [build()]; the copy it returns shares the array of buttons with the
    builder. *)
Definition build (config : FrameConfig) : option FrameConfig :=
  if streq (image config) [] then None else Some config.

(** A chain of calls on one builder. *)
Inductive BuilderCall :=
| SetImage (imageUrl : jsstring)
| SetAspectRatio (ratio : jsstring)
| AddButton (button : FrameButton)
| SetInputText (placeholder : jsstring)
| SetState (s : jsstring).

Definition call (config : FrameConfig) (c : BuilderCall) : option FrameConfig :=
  match c with
  | SetImage imageUrl => Some (setImage config imageUrl)
  | SetAspectRatio ratio => Some (setAspectRatio config ratio)
  | AddButton button => addButton config button
  | SetInputText placeholder => Some (setInputText config placeholder)
  | SetState s => Some (setState config s)
  end.

Fixpoint calls (config : FrameConfig) (cs : list BuilderCall) : option FrameConfig :=
  match cs with
  | [] => Some config
  | c :: rest =>
      match call config c with
      | Some config' => calls config' rest
      | None => None
      end
  end.

(** The errors that [FrameValidator.validateConfig] raises for the button
    at [index]. *)
Definition button_errors (index : nat) (button : FrameButton) : list jsstring :=
  let n := JSBigInt.toString 10 (Z.of_nat index + 1) in
  (if streq (content button) []
   then [str "Button " ++ n ++ str " content is required"] else [])
  ++ (if (32 <? length (content button))%nat
      then [str "Button " ++ n ++ str " content too long (max 32 characters)"]
      else [])
  ++ (if negb (bool_decide (action button ∈ [str "post"; str "link"; str "tx"]))
      then [str "Button " ++ n ++ str " has invalid action"] else []).

(** [FrameValidator.validateConfig(config)]: [valid] and [errors]. *)
Definition validateConfig (config : FrameConfig) : bool * list jsstring :=
  let errors :=
    (if streq (image config) [] then [str "Image URL is required"] else [])
    ++ match buttons config with
       | Some bs =>
           (if (4 <? length bs)%nat then [str "Maximum 4 buttons allowed"] else [])
           ++ concat (imap button_errors bs)
       | None => []
       end
    ++ match inputText config with
       | Some (c :: t) =>
           if (32 <? length (c :: t))%nat
           then [str "Input text too long (max 32 characters)"] else []
       | _ => []
       end in
  (bool_decide (errors = []), errors).

(** [FrameValidator.validateMessage(message)]: [valid] and [errors]. *)
Definition validateMessage (message : value) : bool * list jsstring :=
  if negb (truthy message) then (false, [str "Message is required"])
  else
    let errors :=
      (if match prop (str "fid") message with
          | VNumber n => le n (of_Z 0)
          | _ => true
          end then [str "Valid FID is required"] else [])
      ++ (if negb (truthy (prop (str "url") message))
             || match prop (str "url") message with
                | VString _ => false
                | _ => true
                end then [str "Valid URL is required"] else [])
      ++ (if negb (truthy (prop (str "messageHash") message))
             || match prop (str "messageHash") message with
                | VString _ => false
                | _ => true
                end then [str "Valid message hash is required"] else [])
      ++ (if match prop (str "timestamp") message with
             | VNumber n => le n (of_Z 0)
             | _ => true
             end then [str "Valid timestamp is required"] else [])
      ++ (if match prop (str "network") message with
             | VNumber _ => false
             | _ => true
             end then [str "Valid network is required"] else [])
      ++ (if truthy (prop (str "buttonIndex") message)
             && match prop (str "buttonIndex") message with
                | VNumber n => lt n (of_Z 1) || gt n (of_Z 4)
                | _ => true
                end then [str "Button index must be between 1 and 4"] else [])
      ++ (if truthy (prop (str "inputText") message)
             && match prop (str "inputText") message with
                | VString t => (256 <? length t)%nat
                | _ => true
                end
          then [str "Input text must be a string with max 256 characters"]
          else []) in
    (bool_decide (errors = []), errors).

(** [FrameMessageParser.parse(body)]; [None] is [null].  No property
    read throws: [body] and a truthy [castId] are neither [null] nor
    [undefined]. *)
Definition parse (body : value) : option value :=
  if negb (truthy body) || negb (typeof_object body) then None
  else
    let castId := prop (str "castId") body in
    Some (VObject
      ([(str "fid", prop (str "fid") body);
        (str "url", prop (str "url") body);
        (str "messageHash", prop (str "messageHash") body);
        (str "timestamp", prop (str "timestamp") body);
        (str "network", prop (str "network") body);
        (str "buttonIndex",
         if truthy (prop (str "buttonIndex") body)
         then prop (str "buttonIndex") body else VNumber (of_Z 1))]
       ++ (if truthy (prop (str "inputText") body)
           then [(str "inputText", prop (str "inputText") body)] else [])
       ++ (if truthy castId
           then [(str "castId",
                  VObject [(str "fid", prop (str "fid") castId);
                           (str "hash", prop (str "hash") castId)])]
           else []))).

End Frames.

(** ** More notions used by the statements *)

Module SpecMore.
Import RateLimit.

(** The answer that the record [entry] of an identifier calls for at
    [now], under the limit [N] and the window [W]. *)
Definition answer (N W : Z) (entry : option Entry) (now : Z) : RateLimitResult :=
  match entry with
  | Some e =>
      if now >? resetTime e then mkResult true N (N - 1) (now + W)
      else if count e + 1 >? N then mkResult false N 0 (resetTime e)
      else mkResult true N (N - (count e + 1)) (resetTime e)
  | None => mkResult true N (N - 1) (now + W)
  end.

(** Every stored count is at least 1. *)
Definition counted (rl : InMemoryRateLimiter) : Prop :=
  ∀ identifier e, requests rl !! identifier = Some e → 1 <= count e.

(** The shape of the messages that [validateFrameMessage] accepts. *)
Definition well_formed_message (isValidUrl : jsstring → bool)
    (message : JSValue.value) : Prop :=
  ∃ fields, message = JSValue.VObject fields
    ∧ (∃ n, JSValue.get (str "fid") fields = Some (JSValue.VNumber n)
            ∧ JSNumber.le n (JSNumber.of_Z 0) = false)
    ∧ (∃ u, JSValue.get (str "url") fields = Some (JSValue.VString u)
            ∧ isValidUrl u = true)
    ∧ (∃ h, JSValue.get (str "messageHash") fields = Some (JSValue.VString h)
            ∧ (10 <= length h)%nat)
    ∧ (∃ n, JSValue.get (str "timestamp") fields = Some (JSValue.VNumber n)
            ∧ JSNumber.le n (JSNumber.of_Z 0) = false)
    ∧ (∃ n, JSValue.get (str "network") fields = Some (JSValue.VNumber n))
    ∧ (∀ v, JSValue.get (str "buttonIndex") fields = Some v →
         ∃ n, v = JSValue.VNumber n
              ∧ JSNumber.lt n (JSNumber.of_Z 1) = false
              ∧ JSNumber.gt n (JSNumber.of_Z 4) = false)
    ∧ (∀ v, JSValue.get (str "inputText") fields = Some v →
         ∃ t, v = JSValue.VString t ∧ (length t <= 256)%nat)
    ∧ (∀ v, JSValue.get (str "castId") fields = Some v →
         JSValue.truthy v = true
         ∧ (∃ n, JSValue.prop (str "fid") v = JSValue.VNumber n)
         ∧ (∃ h, JSValue.prop (str "hash") v = JSValue.VString h)).

(** [message.buttonIndex === k] for an integer [k]. *)
Definition buttonIndex_is (message : JSValue.value) (k : Z) : Prop :=
  ∃ q, JSValue.prop (str "buttonIndex") message
       = JSValue.VNumber (JSNumber.Finite q)
       ∧ (q == inject_Z k)%Q.

(** Call data in its textual form: [0x], a selector of 8 hexadecimal
    digits and two words of 64. *)
Definition is_call_data (data : jsstring) : Prop :=
  ∃ digits, data = str "0x" ++ digits ∧ length digits = 136%nat
            ∧ Forall (λ c, is_hex c = true) digits.

(** The topic of an indexed address: the 32-byte word that holds the 20
    bytes of the address behind 12 zero bytes. *)
Definition address_topic (address : jsstring) : jsstring :=
  str "0x" ++ replicate 24 48%N ++ slice_from 2 address.

(** The data word of a [uint256]. *)
Definition uint256_word (v : Z) : jsstring :=
  str "0x" ++ padStart 64 48 (JSBigInt.toString 16 v).

(** The upper case of an ASCII letter. *)
Definition ascii_upper (c : N) : N := if is_lower c then (c - 32)%N else c.

Definition is_ascii (s : jsstring) : bool := forallb (λ c, c <? 128)%N s.

(** On ASCII strings [toUpperCase] maps [a-z] to [A-Z] and nothing
    else. *)
Definition upper_on_ascii (toUpperCase : jsstring → jsstring) : Prop :=
  ∀ s, is_ascii s = true → toUpperCase s = List.map ascii_upper s.

(** The buttons that a chain of builder calls adds, in order. *)
Definition added_buttons (cs : list Frames.BuilderCall) : list Frames.FrameButton :=
  omap (λ c, match c with Frames.AddButton button => Some button | _ => None end) cs.

End SpecMore.

(** ** Sample requests *)

Module Fixtures.
Import JSNumber JSValue.

(** A well-formed frame message. *)
Definition message : value :=
  VObject [(str "fid", VNumber (of_Z 3));
           (str "url", VString (str "https://example.com/"));
           (str "messageHash", VString (str "0x1234567890abcdef"));
           (str "timestamp", VNumber (of_Z 1700000000));
           (str "network", VNumber (of_Z 1));
           (str "buttonIndex", VNumber (of_Z 1))].

(** The same message with another [buttonIndex]. *)
Definition message_with_button (buttonIndex : number) : value :=
  VObject [(str "fid", VNumber (of_Z 3));
           (str "url", VString (str "https://example.com/"));
           (str "messageHash", VString (str "0x1234567890abcdef"));
           (str "timestamp", VNumber (of_Z 1700000000));
           (str "network", VNumber (of_Z 1));
           (str "buttonIndex", VNumber buttonIndex)].

(** A URL parser that accepts the url of [message] and nothing else. *)
Definition isValidUrl (url : jsstring) : bool :=
  streq url (str "https://example.com/").

(** The repository's own [encodeTransfer] in the place of the encoder of
    ethers. *)
Definition encoder (to : jsstring) (amount : Z) : option jsstring :=
  Some (Contracts.encodeTransfer to amount).

(** [POST /frame/prepare-tip?amount=..&token=..&recipient=0x00..01] *)
Definition request (amount token : string) : PrepareTip.Request :=
  PrepareTip.mkRequest (Some (str "203.0.113.7")) (Some message)
    (Some (str amount)) (Some (str token))
    (Some (str "0x0000000000000000000000000000000000000001")).

End Fixtures.

(** ** Notions used by the statements *)

Module Spec.
Import RateLimit.

(** The identifier has no record, or its record has expired at [now]. *)
Definition fresh_or_expired (rl : InMemoryRateLimiter) (identifier : jsstring)
    (now : Z) : Prop :=
  requests rl !! identifier = None
  ∨ ∃ e, requests rl !! identifier = Some e ∧ now > resetTime e.

(** The answer to a request that is the [c]-th of a window ending at
    [windowEnd], under the limit [N]. *)
Definition window_result (N windowEnd c : Z) : RateLimitResult :=
  if c >? N then mkResult false N 0 windowEnd
  else mkResult true N (N - c) windowEnd.

(** The test that [validateFrameMessage] makes on [buttonIndex], in
    isolation. *)
Definition buttonIndex_refused (message : JSValue.value) : bool :=
  JSValue.has (str "buttonIndex") message &&
  match JSValue.prop (str "buttonIndex") message with
  | JSValue.VNumber n =>
      JSNumber.lt n (JSNumber.of_Z 1) || JSNumber.gt n (JSNumber.of_Z 4)
  | _ => true
  end.

(** [v] is the decimal numeral of [n >= 0]: decimal digits only, at least
    one, and no leading zero. *)
Definition decimal_numeral (v : jsstring) (n : Z) : Prop :=
  JSBigInt.parse_digits 10 v = Some n
  ∧ v ≠ []
  ∧ (head v = Some 48%N → v = [48%N]).

(** [v] is what [n.toString()] gives for the integer [n]: its decimal
    numeral, behind a minus sign when [n] is negative. *)
Definition integer_numeral (v : jsstring) (n : Z) : Prop :=
  if n <? 0 then ∃ ds, v = 45%N :: ds ∧ decimal_numeral ds (- n)
  else decimal_numeral v n.

(** No [<] and no [>]. *)
Definition no_angle_brackets (s : jsstring) : Prop :=
  Forall (λ c, c ≠ 60%N ∧ c ≠ 62%N) s.

End Spec.

(** * Properties *)

(** ** The in-memory rate limiter *)

Section RateLimiterProperties.
Import RateLimit Spec.

Implicit Types (rl : InMemoryRateLimiter) (identifier : jsstring) (e : Entry).
Implicit Types (now : Z) (rnd : bool).

Lemma cleanup_keeps_live now (reqs : gmap jsstring Entry) identifier e :
  reqs !! identifier = Some e → now <= resetTime e →
  cleanup now reqs !! identifier = Some e.
Proof.
  intros Hlook Hlive. unfold cleanup.
  apply map_lookup_filter_Some. split; [done | simpl; lia].
Qed.

Lemma limit_fresh rl identifier now rnd :
  fresh_or_expired rl identifier now →
  limit rl identifier now rnd =
    (mkResult true (maxRequests rl) (maxRequests rl - 1) (now + windowMs rl),
     mkLimiter
       (<[identifier := mkEntry 1 (now + windowMs rl)]>
          (if rnd then cleanup now (requests rl) else requests rl))
       (maxRequests rl) (windowMs rl)).
Proof.
  intros [Hnone | (e & Hsome & Hexp)]; unfold limit.
  - by rewrite Hnone.
  - rewrite Hsome. by replace (now >? resetTime e) with true by lia.
Qed.

Lemma limit_in_window rl identifier now rnd e :
  requests rl !! identifier = Some e → now <= resetTime e →
  ∃ rl',
    limit rl identifier now rnd =
      (window_result (maxRequests rl) (resetTime e) (count e + 1), rl')
    ∧ requests rl' !! identifier = Some (mkEntry (count e + 1) (resetTime e))
    ∧ maxRequests rl' = maxRequests rl ∧ windowMs rl' = windowMs rl.
Proof.
  intros Hsome Hlive. unfold limit, window_result. rewrite Hsome.
  replace (now >? resetTime e) with false by lia.
  set (reqs := if rnd then _ else _).
  assert (Hreqs : reqs !! identifier = Some e).
  { subst reqs. destruct rnd; [by apply cleanup_keeps_live | done]. }
  eexists. split; [by destruct (count e + 1 >? maxRequests rl) |].
  destruct (count e + 1 >? maxRequests rl); simpl;
    by rewrite lookup_alter_eq, Hreqs.
Qed.

(** A request of another identifier leaves a live record as it is. *)
Lemma limit_other_identifier rl identifier other now rnd e :
  other ≠ identifier →
  requests rl !! identifier = Some e → now <= resetTime e →
  requests (limit rl other now rnd).2 !! identifier = Some e.
Proof.
  intros Hne Hsome Hlive. unfold limit.
  set (reqs := if rnd then _ else _).
  assert (Hreqs : reqs !! identifier = Some e).
  { subst reqs. destruct rnd; [by apply cleanup_keeps_live | done]. }
  destruct (requests rl !! other) as [e' |]; simpl.
  - destruct (now >? resetTime e'); simpl; [by rewrite lookup_insert_ne |].
    destruct (count e' + 1 >? maxRequests rl); simpl; by rewrite lookup_alter_ne.
  - by rewrite lookup_insert_ne.
Qed.

(** Requests of one identifier inside one window: the [k]-th of them
    (from 0) is answered as request number [c + 1 + k] of the window. *)
Lemma limit_many_in_window calls : ∀ rl identifier c windowEnd,
  requests rl !! identifier = Some (mkEntry c windowEnd) →
  Forall (λ call : Z * bool, call.1 <= windowEnd) calls →
  let out := limit_many rl identifier calls in
  (∀ k call, calls !! k = Some call →
     out.1 !! k = Some (window_result (maxRequests rl) windowEnd
                          (c + 1 + Z.of_nat k)))
  ∧ requests out.2 !! identifier
    = Some (mkEntry (c + Z.of_nat (length calls)) windowEnd)
  ∧ maxRequests out.2 = maxRequests rl ∧ windowMs out.2 = windowMs rl.
Proof.
  induction calls as [| [now rnd] calls IH]; intros rl identifier c windowEnd Hsome Hall.
  - simpl. repeat split; [intros k call Hk; by destruct k | ].
    rewrite Hsome. do 2 f_equal. lia.
  - apply Forall_cons in Hall as [Hnow Hall]. simpl in Hnow.
    destruct (limit_in_window rl identifier now rnd _ Hsome Hnow)
      as (rl1 & Hlimit & Hsome1 & HN & HW).
    simpl in Hlimit, Hsome1. cbn [limit_many]. rewrite Hlimit.
    specialize (IH rl1 identifier (c + 1) windowEnd Hsome1 Hall).
    destruct (limit_many rl1 identifier calls) as [rs rl2].
    simpl in IH |- *. destruct IH as (Hrs & Hfinal & HN2 & HW2).
    repeat split; [| rewrite Hfinal; do 2 f_equal; lia | congruence | congruence].
    intros [| k] call Hk; simpl.
    + do 2 f_equal. lia.
    + rewrite (Hrs k call Hk), HN. do 2 f_equal. lia.
Qed.

(** What a call finds stored after taking the fresh-window path. *)
Lemma limit_fresh_status rl identifier now rnd :
  fresh_or_expired rl identifier now →
  let out := limit rl identifier now rnd in
  out.1 = mkResult true (maxRequests rl) (maxRequests rl - 1) (now + windowMs rl)
  ∧ requests out.2 !! identifier = Some (mkEntry 1 (now + windowMs rl))
  ∧ maxRequests out.2 = maxRequests rl ∧ windowMs out.2 = windowMs rl.
Proof.
  intros Hfresh out. subst out. rewrite (limit_fresh _ _ _ _ Hfresh).
  simpl. by rewrite lookup_insert_eq.
Qed.

(** C10.  The first request of a fresh or expired window is allowed
    whatever the limit is: for an identifier with no record, or with a
    record whose reset time lies before [now], [limit] answers
    [success = true] with [remaining = maxRequests - 1] (so [-1] under a
    limit of 0) and stores a record with [count = 1]; the count is not
    compared with the limit on this path. *)
Theorem limit_first_request_always_allowed rl identifier now rnd :
  fresh_or_expired rl identifier now →
  let out := limit rl identifier now rnd in
  out.1 = mkResult true (maxRequests rl) (maxRequests rl - 1) (now + windowMs rl)
  ∧ getStatus out.2 identifier = Some (mkEntry 1 (now + windowMs rl))
  ∧ maxRequests out.2 = maxRequests rl ∧ windowMs out.2 = windowMs rl.
Proof.
  intros Hfresh out. subst out. rewrite (limit_fresh _ _ _ _ Hfresh).
  unfold getStatus. simpl. by rewrite lookup_insert_eq.
Qed.

Lemma limit_first_request_always_allowed_witness :
  let rl := mkLimiter {[str "198.51.100.4" := mkEntry 7 500]} 0 60000 in
  let out := limit rl (str "198.51.100.4") 501 true in
  out.1 = mkResult true 0 (-1) 60501
  ∧ getStatus out.2 (str "198.51.100.4") = Some (mkEntry 1 60501)
  ∧ maxRequests out.2 = 0 ∧ windowMs out.2 = 60000.
Proof.
  intros rl.
  apply (limit_first_request_always_allowed rl (str "198.51.100.4") 501 true).
  right. exists (mkEntry 7 500). split; [reflexivity | simpl; lia].
Defined.

(** C1 (amended).  Under a limit [N >= 1] and a window of [W] ms: the
    first call of an identifier with no live record is accepted with
    [remaining = N - 1] and creates a record with [count = 1]; every later
    call made no later than the reset time adds one to the count, the
    call that brings the count to [c] being accepted with
    [remaining = N - c] while [c <= N] and refused with [remaining = 0]
    afterwards, so the [(N+1)]-th call of the window is refused; and the
    first call after the reset time is accepted with [remaining = N - 1]. *)
Theorem limit_fixed_window rl identifier t0 rnd0 calls t1 rnd1 :
  1 <= maxRequests rl →
  fresh_or_expired rl identifier t0 →
  Forall (λ call : Z * bool, call.1 <= t0 + windowMs rl) calls →
  t1 > t0 + windowMs rl →
  let N := maxRequests rl in
  let W := windowMs rl in
  let first := limit rl identifier t0 rnd0 in
  let later := limit_many first.2 identifier calls in
  let after := limit later.2 identifier t1 rnd1 in
  first.1 = mkResult true N (N - 1) (t0 + W)
  ∧ getStatus first.2 identifier = Some (mkEntry 1 (t0 + W))
  ∧ (∀ k call, calls !! k = Some call →
       later.1 !! k =
         Some (if Z.of_nat k + 2 <=? N
               then mkResult true N (N - (Z.of_nat k + 2)) (t0 + W)
               else mkResult false N 0 (t0 + W)))
  ∧ getStatus later.2 identifier
    = Some (mkEntry (1 + Z.of_nat (length calls)) (t0 + W))
  ∧ (∀ call, calls !! (Z.to_nat N - 1)%nat = Some call →
       later.1 !! (Z.to_nat N - 1)%nat = Some (mkResult false N 0 (t0 + W)))
  ∧ after.1 = mkResult true N (N - 1) (t1 + W).
Proof.
  intros HN Hfresh Hcalls Ht1 N W first later after.
  destruct (limit_fresh_status rl identifier t0 rnd0 Hfresh)
    as (Hfirst & Hstatus & HN1 & HW1).
  fold first in Hfirst, Hstatus, HN1, HW1.
  destruct (limit_many_in_window calls first.2 identifier 1 (t0 + W) Hstatus Hcalls)
    as (Hrs & Hfinal & HN2 & HW2).
  fold later in Hrs, Hfinal, HN2, HW2. rewrite HN1 in Hrs. fold N in Hrs.
  assert (Hlater : ∀ k call, calls !! k = Some call →
            later.1 !! k =
              Some (if Z.of_nat k + 2 <=? N
                    then mkResult true N (N - (Z.of_nat k + 2)) (t0 + W)
                    else mkResult false N 0 (t0 + W))).
  { intros k call Hk. rewrite (Hrs k call Hk). unfold window_result.
    replace (1 + 1 + Z.of_nat k) with (Z.of_nat k + 2) by lia.
    destruct (Z.leb_spec (Z.of_nat k + 2) N);
      [replace (Z.of_nat k + 2 >? N) with false by lia
      | replace (Z.of_nat k + 2 >? N) with true by lia]; done. }
  repeat split; [done | done | done | by rewrite <- Hfinal | |].
  - intros call Hk. rewrite (Hlater _ call Hk).
    destruct (Z.leb_spec (Z.of_nat (Z.to_nat N - 1) + 2) N); [| done].
    subst N. lia.
  - destruct (limit_fresh_status later.2 identifier t1 rnd1)
      as (Hafter & _).
    { right. eexists. split; [exact Hfinal |]. simpl. subst W. lia. }
    fold after in Hafter. rewrite Hafter, HN2, HW2, HN1, HW1. done.
Qed.

Lemma limit_fixed_window_witness :
  let rl := mkLimiter ∅ 2 1000 in
  let identifier := str "203.0.113.7" in
  let calls := [(10, false); (1000, true); (1000, false)] in
  let first := limit rl identifier 0 false in
  let later := limit_many first.2 identifier calls in
  let after := limit later.2 identifier 1001 true in
  first.1 = mkResult true 2 1 1000
  ∧ getStatus first.2 identifier = Some (mkEntry 1 1000)
  ∧ (∀ k call, calls !! k = Some call →
       later.1 !! k =
         Some (if Z.of_nat k + 2 <=? 2
               then mkResult true 2 (2 - (Z.of_nat k + 2)) 1000
               else mkResult false 2 0 1000))
  ∧ getStatus later.2 identifier = Some (mkEntry 4 1000)
  ∧ (∀ call, calls !! 1%nat = Some call →
       later.1 !! 1%nat = Some (mkResult false 2 0 1000))
  ∧ after.1 = mkResult true 2 1 2001.
Proof.
  intros rl identifier calls.
  apply (limit_fixed_window rl identifier 0 false calls 1001 true).
  - simpl. lia.
  - left. reflexivity.
  - repeat constructor; simpl; lia.
  - simpl. lia.
Defined.

(** C1, as stated, fails under a limit of 0: the [(N+1)]-th call is then
    the first one, and it is accepted. *)
Lemma limit_zero_quota_counterexample :
  let rl := mkLimiter ∅ 0 60000 in
  let first := (limit rl (str "203.0.113.7") 0 false).1 in
  first = mkResult true 0 (-1) 60000
  ∧ ¬ (success first = false ∧ remaining first = 0).
Proof. split; [reflexivity | intros [H _]; discriminate H]. Qed.

(** C2 (amended).  For an identifier with a record, a call at a time
    equal to the reset time of the record still belongs to the window:
    the count grows by one, the reset time stays, and the call is allowed
    only while the new count does not exceed the limit.  A new window
    (count 1, call allowed) starts only when [now > resetTime]. *)
Theorem limit_at_reset_time rl identifier e now rnd :
  requests rl !! identifier = Some e →
  let out := limit rl identifier now rnd in
  (now = resetTime e →
     out.1 = (if count e + 1 <=? maxRequests rl
              then mkResult true (maxRequests rl)
                     (maxRequests rl - (count e + 1)) (resetTime e)
              else mkResult false (maxRequests rl) 0 (resetTime e))
     ∧ getStatus out.2 identifier = Some (mkEntry (count e + 1) (resetTime e)))
  ∧ (now > resetTime e →
     out.1 = mkResult true (maxRequests rl) (maxRequests rl - 1) (now + windowMs rl)
     ∧ getStatus out.2 identifier = Some (mkEntry 1 (now + windowMs rl))).
Proof.
  intros Hsome out. split.
  - intros Hnow.
    destruct (limit_in_window rl identifier now rnd e Hsome) as (rl' & Hlimit & Hrec & _);
      [lia |].
    subst out. rewrite Hlimit. unfold getStatus, window_result. simpl. split; [| done].
    destruct (Z.leb_spec (count e + 1) (maxRequests rl));
      [replace (count e + 1 >? maxRequests rl) with false by lia
      | replace (count e + 1 >? maxRequests rl) with true by lia]; done.
  - intros Hnow.
    destruct (limit_fresh_status rl identifier now rnd) as (H1 & H2 & _);
      [right; eauto | done].
Qed.

Lemma limit_at_reset_time_witness :
  let rl := mkLimiter {[str "203.0.113.7" := mkEntry 3 1000]} 5 60000 in
  let out := limit rl (str "203.0.113.7") 1000 false in
  (1000 = 1000 →
     out.1 = mkResult true 5 1 1000
     ∧ getStatus out.2 (str "203.0.113.7") = Some (mkEntry 4 1000))
  ∧ (1000 > 1000 →
     out.1 = mkResult true 5 4 61000
     ∧ getStatus out.2 (str "203.0.113.7") = Some (mkEntry 1 61000)).
Proof.
  intros rl.
  apply (limit_at_reset_time rl (str "203.0.113.7") (mkEntry 3 1000) 1000 false).
  reflexivity.
Defined.

(** C2, as stated, fails: with the limit used up, a call at exactly the
    reset time is refused and the old window goes on with count 2. *)
Lemma limit_at_reset_time_counterexample :
  let rl := mkLimiter {[str "203.0.113.7" := mkEntry 1 1000]} 1 60000 in
  let out := limit rl (str "203.0.113.7") 1000 false in
  out.1 = mkResult false 1 0 1000
  ∧ getStatus out.2 (str "203.0.113.7") = Some (mkEntry 2 1000)
  ∧ ¬ (success out.1 = true
       ∧ getStatus out.2 (str "203.0.113.7") = Some (mkEntry 1 61000)).
Proof.
  split; [reflexivity | split; [reflexivity |]].
  intros [H _]. discriminate H.
Qed.

End RateLimiterProperties.

(** ** lib/validation.ts *)

Section SanitizeProperties.
Import Validation Spec.

Implicit Types s : jsstring.

Lemma trimStart_suffix s : ∃ spaces, s = spaces ++ trimStart s.
Proof.
  induction s as [| c s [spaces IH]]; [by exists [] |].
  simpl. destruct (is_whitespace c); [| by exists []].
  exists (c :: spaces). simpl. by f_equal.
Qed.

Lemma trimEnd_prefix s : ∃ spaces, s = trimEnd s ++ spaces.
Proof.
  unfold trimEnd. destruct (trimStart_suffix (rev s)) as [spaces H].
  exists (rev spaces). rewrite <- rev_app_distr, <- H. by rewrite rev_involutive.
Qed.

(** Trimming only drops characters at the two ends. *)
Lemma trim_infix s : ∃ before after, s = before ++ trim s ++ after.
Proof.
  unfold trim. destruct (trimStart_suffix s) as [before Hb].
  destruct (trimEnd_prefix (trimStart s)) as [after Ha].
  exists before, after. by rewrite <- Ha.
Qed.

Lemma filter_keeps_only (p : N → bool) s : Forall (λ c, p c = true) (List.filter p s).
Proof.
  induction s as [| c s IH]; simpl; [constructor |].
  destruct (p c) eqn:Hp; [by constructor | done].
Qed.

Lemma filter_all (p : N → bool) s : Forall (λ c, p c = true) s → List.filter p s = s.
Proof.
  induction 1 as [| c s Hp _ IH]; simpl; [done |]. by rewrite Hp, IH.
Qed.

Lemma sanitizeInput_filtered s :
  Forall (λ c, negb ((c =? 60) || (c =? 62))%N = true) (sanitizeInput s).
Proof. unfold sanitizeInput. apply Forall_take, filter_keeps_only. Qed.

Lemma sanitizeInput_length s : (length (sanitizeInput s) <= 1000)%nat.
Proof. unfold sanitizeInput. rewrite length_take. lia. Qed.

(** C9 (amended).  The result of [sanitizeInput] never holds [<] or [>]
    and is at most 1000 characters long, but it need not be trimmed; a
    second application only trims the first result,
    [sanitizeInput(sanitizeInput(s)) = sanitizeInput(s).trim()], so
    [sanitizeInput] is idempotent exactly on the inputs whose result is
    already trimmed. *)
Theorem sanitizeInput_twice s :
  no_angle_brackets (sanitizeInput s)
  ∧ (length (sanitizeInput s) <= 1000)%nat
  ∧ sanitizeInput (sanitizeInput s) = trim (sanitizeInput s)
  ∧ (sanitizeInput (sanitizeInput s) = sanitizeInput s
     ↔ trim (sanitizeInput s) = sanitizeInput s).
Proof.
  pose proof (sanitizeInput_filtered s) as Hf.
  pose proof (sanitizeInput_length s) as Hlen.
  assert (Htwice : sanitizeInput (sanitizeInput s) = trim (sanitizeInput s)).
  { destruct (trim_infix (sanitizeInput s)) as (before & after & Hparts).
    unfold sanitizeInput at 1.
    rewrite Hparts in Hf, Hlen.
    apply Forall_app in Hf as [_ Hf]. apply Forall_app in Hf as [Hf _].
    rewrite !length_app in Hlen.
    rewrite (filter_all _ _ Hf). apply take_ge. lia. }
  repeat split; [| done | done | by rewrite Htwice | by rewrite Htwice].
  unfold no_angle_brackets. eapply Forall_impl; [exact Hf |].
  intros c Hc. simpl in Hc. split; intros ->; discriminate Hc.
Qed.

(** C9, as stated, fails: deleting the [<] of ["< a"] leaves a leading
    space, which the second application trims. *)
Lemma sanitizeInput_not_idempotent_counterexample :
  sanitizeInput (str "< a") = str " a"
  ∧ sanitizeInput (sanitizeInput (str "< a")) = str "a"
  ∧ sanitizeInput (sanitizeInput (str "< a")) ≠ sanitizeInput (str "< a").
Proof. split; [reflexivity | split; [reflexivity | discriminate]]. Qed.

End SanitizeProperties.

Section ValidationProperties.
Import JSNumber JSValue Validation PrepareTip Spec.

Implicit Types (s r : jsstring) (message : JSValue.value).

Lemma streq_true s r : streq s r = true ↔ s = r.
Proof. unfold streq. apply bool_decide_eq_true. Qed.

Lemma strip_prefix_Some prefix : ∀ s rest,
  strip_prefix prefix s = Some rest ↔ s = prefix ++ rest.
Proof.
  induction prefix as [| p prefix IH]; intros s rest; simpl.
  - split; [by intros [= ->] | by intros ->].
  - destruct s as [| c s]; [split; [done | discriminate] |].
    destruct (N.eqb_spec p c) as [-> | Hne].
    + rewrite IH. split; [by intros -> | by intros [= ->]].
    + split; [done | intros [= -> _]; done].
Qed.

Lemma forallb_Forall (p : N → bool) s :
  forallb p s = true ↔ Forall (λ c, p c = true) s.
Proof.
  induction s as [| c s IH]; simpl; [by split |].
  rewrite andb_true_iff, Forall_cons, IH. done.
Qed.

(** The pattern [/^0x[a-fA-F0-9]{40}$/], spelled out. *)
Lemma tipSchema_recipient_shape r :
  tipSchema_recipient r = true
  ↔ ∃ digits, r = str "0x" ++ digits ∧ length digits = 40%nat
              ∧ Forall (λ c, is_hex c = true) digits.
Proof.
  unfold tipSchema_recipient. split.
  - destruct (strip_prefix (str "0x") r) as [digits |] eqn:Hp; [| done].
    apply strip_prefix_Some in Hp. intros [Hlen Hhex]%andb_true_iff.
    exists digits. split_and!; [done | by apply Nat.eqb_eq | by apply forallb_Forall].
  - intros (digits & -> & Hlen & Hhex).
    assert (Hp : strip_prefix (str "0x") (str "0x" ++ digits) = Some digits)
      by by apply strip_prefix_Some.
    rewrite Hp, Hlen. simpl. by apply forallb_Forall.
Qed.

(** The pattern [/^[a-zA-Z0-9-]+\.eth$/], spelled out. *)
Lemma validateENS_shape r :
  validateENS r = true
  ↔ ∃ label, r = label ++ str ".eth" ∧ label ≠ []
             ∧ Forall (λ c, is_ens_char c = true) label.
Proof.
  unfold validateENS. split.
  - intros [[Hne Hchars]%andb_true_iff Hsuffix%streq_true]%andb_true_iff.
    exists (take (length r - 4) r). split_and!.
    + by rewrite <- Hsuffix, take_drop.
    + intros Hnil. rewrite Hnil in Hne. done.
    + by apply forallb_Forall.
  - intros (label & -> & Hne & Hchars).
    rewrite length_app. replace (length (str ".eth")) with 4%nat by done.
    replace (length label + 4 - 4)%nat with (length label) by lia.
    rewrite take_app_length, drop_app_length.
    apply andb_true_iff. split; [apply andb_true_iff; split |].
    + apply negb_true_iff, bool_decide_eq_false. done.
    + by apply forallb_Forall.
    + by apply streq_true.
Qed.

Lemma lt_Finite (a b : Q) : lt (Finite a) (Finite b) = true ↔ (a < b)%Q.
Proof.
  simpl. rewrite Qlt_alt. destruct (a ?= b)%Q; split; done.
Qed.

Lemma validateFrameMessage_passes_buttonIndex isValidUrl message :
  validateFrameMessage isValidUrl message = true →
  buttonIndex_refused message = false.
Proof.
  unfold validateFrameMessage, buttonIndex_refused.
  do 7 (match goal with
        | |- (if ?c then false else _) = true → _ =>
            destruct c; [discriminate |]
        end).
  match goal with
  | |- (if ?c then false else _) = true → _ =>
      destruct c; [discriminate | done]
  end.
Qed.

(** C4 (amended).  A message whose [buttonIndex] is present and is not of
    type number, or is a number below 1 or above 4 (5, for one), is
    rejected whatever its other fields are; an accepted message that
    carries a [buttonIndex] carries a number that is neither below 1 nor
    above 4.  The validator does not ask for an integer. *)
Theorem validateFrameMessage_buttonIndex (isValidUrl : jsstring → bool) message :
  has (str "buttonIndex") message = true →
  ((∀ n, prop (str "buttonIndex") message = VNumber n →
         lt n (of_Z 1) = true ∨ gt n (of_Z 4) = true) →
   validateFrameMessage isValidUrl message = false)
  ∧ (validateFrameMessage isValidUrl message = true →
     ∃ n, prop (str "buttonIndex") message = VNumber n
          ∧ match n with
            | Finite q => (1 <= q <= 4)%Q
            | NaN => True
            | Infinity _ => False
            end).
Proof.
  intros Hhas. split.
  - intros Hbad. apply not_true_is_false. intros Hok.
    apply validateFrameMessage_passes_buttonIndex in Hok.
    unfold buttonIndex_refused in Hok. rewrite Hhas, andb_true_l in Hok.
    destruct (prop (str "buttonIndex") message) as [| | | n | | |]; try discriminate.
    destruct (Hbad n eq_refl) as [H | H]; rewrite H in Hok;
      [| rewrite orb_true_r in Hok]; discriminate.
  - intros Hok. apply validateFrameMessage_passes_buttonIndex in Hok.
    unfold buttonIndex_refused in Hok. rewrite Hhas, andb_true_l in Hok.
    destruct (prop (str "buttonIndex") message) as [| | | n | | |]; try discriminate.
    exists n. split; [done |].
    apply orb_false_iff in Hok as [Hlow Hhigh].
    destruct n as [| [|] | q]; try done.
    split.
    + apply Qnot_lt_le. intros Hlt. apply lt_Finite in Hlt.
      change (lt (Finite q) (of_Z 1) = true) in Hlt. congruence.
    + apply Qnot_lt_le. intros Hlt. apply lt_Finite in Hlt.
      change (gt (Finite q) (of_Z 4) = true) in Hlt. congruence.
Qed.

Lemma validateFrameMessage_buttonIndex_witness :
  let message := Fixtures.message_with_button (of_Z 5) in
  has (str "buttonIndex") message = true
  ∧ validateFrameMessage Fixtures.isValidUrl message = false.
Proof.
  intros message. split; [reflexivity |].
  apply (validateFrameMessage_buttonIndex Fixtures.isValidUrl message); [reflexivity |].
  intros n [= <-]. right. reflexivity.
Defined.

(** C4, as stated, fails: 2.5 is not an integer, and a message that
    carries it as [buttonIndex] is accepted as soon as its url parses. *)
Lemma validateFrameMessage_fraction_counterexample :
  let message := Fixtures.message_with_button (Finite (5 # 2)) in
  isInteger (Finite (5 # 2)) = false
  ∧ prop (str "buttonIndex") message = VNumber (Finite (5 # 2))
  ∧ ∀ isValidUrl : jsstring → bool,
      isValidUrl (str "https://example.com/") = true →
      validateFrameMessage isValidUrl message = true.
Proof.
  split; [reflexivity | split; [reflexivity |]].
  intros isValidUrl Hurl. unfold validateFrameMessage. simpl.
  unfold has, prop. simpl. by rewrite Hurl.
Qed.

(** C3.  On the three boundary strings of the specification
    [validateAmount] answers as follows.  The amount
    ["1000000.000000000000000001"] lies above 1,000,000, but [parseFloat]
    rounds it to the double 1000000, which is not above the maximum, and
    the string has exactly 18 fraction digits: the amount is accepted.
    ["1000000"] is accepted; ["0"] is rejected. *)
Theorem validateAmount_boundary :
  (1000000 < Decimal.decimal_value (str "1000000.000000000000000001"))%Q
  ∧ Decimal.fraction_digits (str "1000000.000000000000000001") = 18%nat
  ∧ parseFloat (str "1000000.000000000000000001") = Finite 1000000
  ∧ validateAmount (str "1000000.000000000000000001") = valid
  ∧ validateAmount (str "1000000") = valid
  ∧ validateAmount (str "0") = invalid "Amount must be greater than 0".
Proof.
  split; [reflexivity |].
  repeat split; vm_compute; reflexivity.
Qed.

End ValidationProperties.

(** ** lib/contracts.ts : call data of a token transfer *)

Section CallDataProperties.
Import JSBigInt Contracts CallData PrepareTip.

Implicit Types (s acc : jsstring) (n radix : Z).

Lemma char_digit_digit_char radix d :
  0 <= d < radix → radix <= 36 → char_digit radix (digit_char d) = Some d.
Proof.
  intros Hd Hr. unfold char_digit, digit_char.
  destruct (Z.ltb_spec d 10).
  - assert (is_digit (Z.to_N (48 + d)) = true) as ->.
    { apply andb_true_iff. split; apply N.leb_le; lia. }
    replace (Z.of_N (Z.to_N (48 + d)) - 48) with d by lia.
    by replace (d <? radix) with true by lia.
  - assert (is_digit (Z.to_N (87 + d)) = false) as ->.
    { apply andb_false_iff. right. apply N.leb_gt. lia. }
    assert (is_lower (Z.to_N (87 + d)) = true) as ->.
    { apply andb_true_iff. split; apply N.leb_le; lia. }
    replace (Z.of_N (Z.to_N (87 + d)) - 87) with d by lia.
    by replace (d <? radix) with true by lia.
Qed.

(** [digits_from] writes the digits of [n] in front of [acc]: at least
    one digit, no leading zero unless [n = 0], and reading them back after
    any value [a] gives [a * radix^length + n]. *)
Lemma digits_from_spec radix fuel : ∀ n acc,
  2 <= radix <= 36 → 0 <= n < radix ^ Z.of_nat (S fuel) →
  ∃ ds, digits_from fuel radix n acc = ds ++ acc
        ∧ (1 <= length ds)%nat
        ∧ radix ^ (Z.of_nat (length ds) - 1) <= Z.max n 1
        ∧ ∀ a, fold_left (parse_step radix) ds (Some a)
               = Some (a * radix ^ Z.of_nat (length ds) + n).
Proof.
  induction fuel as [| fuel IH]; intros n acc Hr Hn.
  - exists [digit_char (n mod radix)]. simpl.
    assert (n mod radix = n) as -> by (apply Z.mod_small; lia).
    split_and!; [done | lia | simpl; lia |].
    intros a. simpl. rewrite char_digit_digit_char by lia. simpl. f_equal. lia.
  - cbn [digits_from]. destruct (Z.eqb_spec (n / radix) 0) as [Hq | Hq].
    + exists [digit_char (n mod radix)].
      assert (n < radix) by (apply Z.div_small_iff in Hq; lia).
      assert (n mod radix = n) as -> by (apply Z.mod_small; lia).
      split_and!; [done | simpl; lia | simpl; lia |].
      intros a. simpl. rewrite char_digit_digit_char by lia. simpl. f_equal. lia.
    + assert (Hdiv : 0 <= n / radix < radix ^ Z.of_nat (S fuel)).
      { split; [apply Z.div_pos; lia |].
        apply Z.div_lt_upper_bound; [lia |].
        replace (Z.of_nat (S (S fuel))) with (Z.succ (Z.of_nat (S fuel))) in Hn by lia.
        rewrite Z.pow_succ_r in Hn by lia. lia. }
      destruct (IH (n / radix) (digit_char (n mod radix) :: acc) Hr Hdiv)
        as (ds & Heq & Hlen & Hlead & Hparse).
      exists (ds ++ [digit_char (n mod radix)]).
      rewrite Heq, <- app_assoc, length_app. simpl.
      assert (Hpos : 1 <= n / radix) by (pose proof (Z.div_pos n radix); lia).
      pose proof (Z.mod_pos_bound n radix ltac:(lia)) as Hmod.
      pose proof (Z.div_mod n radix ltac:(lia)) as Hdm.
      split_and!; [done | lia | |].
      * replace (Z.of_nat (length ds + 1) - 1) with (Z.succ (Z.of_nat (length ds) - 1)) by lia.
        rewrite Z.pow_succ_r by lia. nia.
      * intros a. rewrite fold_left_app, Hparse. simpl.
        rewrite char_digit_digit_char by lia. simpl. f_equal.
        replace (Z.of_nat (length ds + 1)) with (Z.succ (Z.of_nat (length ds))) by lia.
        rewrite Z.pow_succ_r by lia. nia.
Qed.

Lemma log2_fuel_enough radix n :
  2 <= radix → 0 <= n → n < radix ^ Z.of_nat (S (Z.to_nat (Z.log2 n))).
Proof.
  intros Hr Hn.
  destruct (Z.eq_dec n 0) as [-> | Hn0]; [simpl; lia |].
  pose proof (Z.log2_spec n ltac:(lia)) as [_ Hlog].
  pose proof (Z.log2_nonneg n) as Hnn.
  replace (Z.of_nat (S (Z.to_nat (Z.log2 n)))) with (Z.succ (Z.log2 n)) by lia.
  eapply Z.lt_le_trans; [exact Hlog |].
  apply Z.pow_le_mono_l. lia.
Qed.

(** [BigInt] reads back what [toString] writes. *)
Lemma toString_spec radix n :
  2 <= radix <= 36 → 0 <= n →
  parse_digits radix (toString radix n) = Some n
  ∧ (1 <= length (toString radix n))%nat
  ∧ radix ^ (Z.of_nat (length (toString radix n)) - 1) <= Z.max n 1.
Proof.
  intros Hr Hn. unfold toString, parse_digits.
  replace (n <? 0) with false by lia.
  destruct (digits_from_spec radix (Z.to_nat (Z.log2 n)) n [] Hr)
    as (ds & Heq & Hlen & Hlead & Hparse);
    [split; [done | apply log2_fuel_enough; lia] |].
  rewrite Heq, app_nil_r. split_and!; [| done | done].
  change (fold_left (parse_step radix) ds (Some 0) = Some n).
  rewrite Hparse. f_equal; lia.
Qed.

Lemma parse_leading_zeros radix k s :
  2 <= radix →
  parse_digits radix (replicate k 48%N ++ s) = parse_digits radix s.
Proof.
  intros Hr. unfold parse_digits. rewrite fold_left_app. f_equal.
  change (fold_left (parse_step radix) (replicate k 48%N) (Some 0) = Some 0).
  induction k as [| k IH]; [done |]. cbn [replicate fold_left].
  assert (parse_step radix (Some 0) 48%N = Some 0) as ->; [| done].
  unfold parse_step, char_digit. simpl.
  replace (48 - 48) with 0 by lia.
  replace (0 <? radix) with true by lia. simpl. f_equal; lia.
Qed.

Lemma char_digit_range radix c d :
  0 < radix → char_digit radix c = Some d → 0 <= d < radix.
Proof.
  unfold char_digit, is_digit, is_lower, is_upper. cbn zeta. intros Hr.
  destruct ((48 <=? c)%N && (c <=? 57)%N) eqn:H1.
  - apply andb_true_iff in H1 as [?%N.leb_le ?%N.leb_le].
    destruct (Z.ltb_spec (Z.of_N c - 48) radix); intros ?; simplify_eq; lia.
  - destruct ((97 <=? c)%N && (c <=? 122)%N) eqn:H2.
    + apply andb_true_iff in H2 as [?%N.leb_le ?%N.leb_le].
      destruct (Z.ltb_spec (Z.of_N c - 87) radix); intros ?; simplify_eq; lia.
    + destruct ((65 <=? c)%N && (c <=? 90)%N) eqn:H3.
      * apply andb_true_iff in H3 as [?%N.leb_le ?%N.leb_le].
        destruct (Z.ltb_spec (Z.of_N c - 55) radix); intros ?; simplify_eq; lia.
      * rewrite Z.ltb_irrefl. discriminate.
Qed.

(** A run of [k] digits denotes a number below [radix^k]. *)
Lemma parse_digits_bound radix s : ∀ a v,
  2 <= radix → 0 <= a →
  fold_left (parse_step radix) s (Some a) = Some v →
  0 <= v < (a + 1) * radix ^ Z.of_nat (length s).
Proof.
  induction s as [| c s IH]; intros a v Hr Ha; cbn [fold_left length].
  - intros [= <-]. simpl. lia.
  - unfold parse_step at 2. cbn [mbind option_bind].
    destruct (char_digit radix c) as [d |] eqn:Hd.
    + cbn [mbind option_bind]. intros Hv.
      apply char_digit_range in Hd; [| lia].
      apply IH in Hv; [| lia | nia].
      replace (Z.of_nat (S (length s))) with (Z.succ (Z.of_nat (length s))) by lia.
      rewrite Z.pow_succ_r by lia.
      assert (0 < radix ^ Z.of_nat (length s)) by (apply Z.pow_pos_nonneg; lia).
      nia.
    + intros Hv. exfalso. clear -Hv.
      induction s as [| c' s IH]; [done | by apply IH].
Qed.

(** [toString()] of an integer that is not negative writes its decimal
    numeral. *)
Lemma toString_decimal_numeral n :
  0 <= n → Spec.decimal_numeral (toString 10 n) n.
Proof.
  intros Hn.
  destruct (toString_spec 10 n) as (Hparse & Hlen & Hlead); [lia | lia |].
  split; [exact Hparse |]. split.
  { intros Hnil. rewrite Hnil in Hlen. simpl in Hlen. lia. }
  destruct (toString 10 n) as [| c rest]; [done |].
  intros [= ->]. f_equal.
  change (48%N :: rest) with (replicate 1 48%N ++ rest) in Hparse.
  rewrite parse_leading_zeros in Hparse by lia.
  apply parse_digits_bound in Hparse; [| lia | lia].
  cbn [length] in Hlead.
  replace (Z.of_nat (S (length rest)) - 1) with (Z.of_nat (length rest)) in Hlead by lia.
  destruct rest as [| c rest]; [done |]. exfalso.
  assert (10 ^ 1 <= 10 ^ Z.of_nat (length (c :: rest)))
    by (apply Z.pow_le_mono_r; cbn [length]; lia).
  lia.
Qed.

(** [toString()] of an integer: the numeral, behind a minus sign for a
    negative integer. *)
Lemma toString_integer_numeral n : Spec.integer_numeral (toString 10 n) n.
Proof.
  unfold Spec.integer_numeral. destruct (Z.ltb_spec n 0) as [Hneg | Hpos].
  - exists (toString 10 (- n)). split; [| apply toString_decimal_numeral; lia].
    unfold toString.
    replace (n <? 0) with true by lia. by replace (- n <? 0) with false by lia.
  - by apply toString_decimal_numeral.
Qed.

(** The two words of the data that [encodeTransfer] builds, and reading
    them back. *)
Lemma encodeTransfer_words (to : jsstring) (amount : Z) :
  tipSchema_recipient to = true →
  0 <= amount < 2 ^ 256 →
  ∃ word1 word2,
    encodeTransfer to amount = str "0xa9059cbb" ++ word1 ++ word2
    ∧ word1 = replicate 24 48%N ++ slice_from 2 to
    ∧ length word1 = 64%nat
    ∧ length word2 = 64%nat
    ∧ parse_digits 16 word2 = Some amount
    ∧ length (encodeTransfer to amount) = 138%nat
    ∧ selector (encodeTransfer to amount) = str "0xa9059cbb"
    ∧ decodeTransfer (encodeTransfer to amount) = Some (to, amount).
Proof.
  intros (digits & -> & Hlen & _)%tipSchema_recipient_shape Hamount.
  destruct (toString_spec 16 amount) as (Hparse & Hlen1 & Hlead); [lia | lia |].
  set (hex := toString 16 amount) in *.
  assert (Hhex : (length hex <= 64)%nat).
  { assert (16 ^ (Z.of_nat (length hex) - 1) < 16 ^ 64) as Hlt.
    { replace (16 ^ 64) with (2 ^ 256) by reflexivity. lia. }
    apply Z.pow_lt_mono_r_iff in Hlt; lia. }
  set (word1 := replicate 24 48%N ++ digits).
  set (word2 := replicate (64 - length hex) 48%N ++ hex).
  assert (Hdata : encodeTransfer (str "0x" ++ digits) amount
                  = str "0xa9059cbb" ++ word1 ++ word2).
  { unfold encodeTransfer, padStart, slice_from. fold hex.
    change (drop 2 (str "0x" ++ digits)) with digits.
    by rewrite Hlen. }
  assert (Hw1 : length word1 = 64%nat).
  { subst word1. rewrite length_app, length_replicate. lia. }
  assert (Hw2 : length word2 = 64%nat).
  { subst word2. rewrite length_app, length_replicate. lia. }
  assert (Hp2 : parse_digits 16 word2 = Some amount).
  { subst word2. by rewrite parse_leading_zeros. }
  exists word1, word2. rewrite Hdata.
  split_and!; [done | done | done | done | done | | done |].
  - rewrite !length_app, Hw1, Hw2. reflexivity.
  - assert (Hs1 : slice 34 74 (str "0xa9059cbb" ++ word1 ++ word2) = digits).
    { unfold slice. subst word1.
      replace (str "0xa9059cbb" ++ (replicate 24 48%N ++ digits) ++ word2)
        with ((str "0xa9059cbb" ++ replicate 24 48%N) ++ digits ++ word2)
        by by rewrite <- !app_assoc.
      rewrite (drop_app_length' _ _ 34) by reflexivity.
      by rewrite (take_app_length' digits word2) by (rewrite Hlen; reflexivity). }
    assert (Hs2 : slice 74 138 (str "0xa9059cbb" ++ word1 ++ word2) = word2).
    { unfold slice. rewrite app_assoc.
      rewrite (drop_app_length' _ word2 74)
        by (rewrite length_app, Hw1; reflexivity).
      apply take_ge. rewrite Hw2. simpl. lia. }
    unfold decodeTransfer. rewrite Hs1, Hs2, Hp2. done.
Qed.

End CallDataProperties.

(** ** Decimal strings and the model of ethers *)

Section DecimalProperties.
Import Decimal Ethers.

Implicit Types (s ds : jsstring).







End DecimalProperties.

(** ** [parseFloat] on decimal strings *)

Section NumberProperties.
Import JSNumber Decimal PrepareTip.

Implicit Types (n d e : Z) (s : jsstring).









End NumberProperties.

(** ** app/api/frame/prepare-tip/route.ts *)

Section PrepareTipProperties.
Import JSNumber Validation RateLimit Chain Contracts Decimal Ethers PrepareTip.

Variable isValidUrl : jsstring → bool.
Variable parseUnits : jsstring → Z → option Z.
Variable encodeTransferCall : jsstring → Z → option jsstring.

Implicit Types (req : Request) (message : JSValue.value).
Implicit Types (amount token recipient : jsstring).

Local Abbreviation prepare := (prepare isValidUrl parseUnits encodeTransferCall).
Local Abbreviation POST := (POST isValidUrl parseUnits encodeTransferCall).

(** The handler always settles on Base. *)
Lemma preferredChain_is_base isProduction :
  preferredChain (getSupportedChains isProduction) = Some (mkChain 8453 (str "Base")).
Proof. by destruct isProduction. Qed.

(** The handler up to the point where it has a wei amount. *)
Lemma prepare_validated isProduction req message amount token recipient wei :
  body req = Some message →
  validateFrameMessage isValidUrl message = true →
  param_or (query_amount req) (str "0.01") = amount →
  param_or (query_token req) (str "ETH") = token →
  param_or (query_recipient req) [] = recipient →
  tipSchema_safeParse amount token recipient = true →
  parseUnits amount 18 = Some wei →
  prepare isProduction req =
    if streq token (str "ETH") then
      TransactionFrame 8453
        (mkTx (Own recipient) (JSBigInt.toString 10 wei) (str "0x"))
        amount token recipient
    else
      match getTokenContract token 8453 with
      | None => TokenNotSupported token (str "Base")
      | Some tokenContract =>
          match getTokenDecimals token with
          | Own decimals =>
              match parseUnits amount decimals with
              | None => ErrorFrame
              | Some tokenAmount =>
                  match encodeTransferCall recipient tokenAmount with
                  | None => ErrorFrame
                  | Some transferData =>
                      TransactionFrame 8453
                        (mkTx (address tokenContract) (str "0") transferData)
                        amount token recipient
                  end
              end
          | _ => ErrorFrame
          end
      end.
Proof.
  intros Hbody Hvalid Hamount Htoken Hrecipient Hparse Hwei.
  unfold PrepareTip.prepare, parseEther.
  rewrite Hbody, Hvalid, Hamount, Htoken, Hrecipient, Hparse.
  rewrite preferredChain_is_base, Hwei. done.
Qed.

(** A token that is not the native one, has no entry in the address table
    of Base and is not the name of a member of [Object.prototype] is
    refused by name. *)
Lemma prepare_unlisted_token isProduction req message amount token recipient wei tokens :
  body req = Some message →
  validateFrameMessage isValidUrl message = true →
  param_or (query_amount req) (str "0.01") = amount →
  param_or (query_token req) (str "ETH") = token →
  param_or (query_recipient req) [] = recipient →
  tipSchema_safeParse amount token recipient = true →
  parseUnits amount 18 = Some wei →
  token ≠ str "ETH" →
  chain_tokens 8453 TOKEN_ADDRESSES = Some tokens →
  assoc token tokens = None →
  token ∉ Object_prototype_keys →
  prepare isProduction req = TokenNotSupported token (str "Base").
Proof.
  intros Hbody Hvalid Hamount Htoken Hrecipient Hparse Hwei Hne Htokens Hassoc Hproto.
  rewrite (prepare_validated _ _ _ _ _ _ _ Hbody Hvalid Hamount Htoken Hrecipient Hparse Hwei).
  unfold streq. rewrite bool_decide_eq_false_2 by done.
  unfold getTokenContract, streq. rewrite bool_decide_eq_false_2 by done.
  rewrite Htokens. unfold lookup_property. rewrite Hassoc.
  by rewrite bool_decide_eq_false_2 by done.
Qed.

(** C5 (amended).  The Transaction Preparer has a recipient rule of its
    own: it accepts as recipient exactly the strings made of [0x] and 40
    hexadecimal digits, with no checksum test.  A request that the limiter
    and the message validator let through is answered 400 "Invalid
    parameters" when its recipient is any other string, and is not
    answered so when the recipient is such a string and the amount passes.
    A name matching the [name.eth] pattern, which the TipRequest schema
    accepts, is rejected; every other recipient that the TipRequest schema
    accepts is accepted by the Transaction Preparer, if [isAddress]
    accepts only strings of [0x] and 40 hexadecimal digits. *)
Theorem prepare_recipient_rule (isAddress : jsstring → bool)
    rateLimit now rnd isProduction req message r :
  (tipSchema_recipient r = true
   ↔ ∃ digits, r = str "0x" ++ digits ∧ length digits = 40%nat
               ∧ Forall (λ c, is_hex c = true) digits)
  ∧ (success (limit rateLimit (default (str "anonymous") (ip req)) now rnd).1 = true →
     body req = Some message →
     validateFrameMessage isValidUrl message = true →
     param_or (query_recipient req) [] = r →
     (tipSchema_recipient r = false →
      (POST rateLimit now rnd isProduction req).1 = InvalidParameters)
     ∧ (tipSchema_recipient r = true →
        tipSchema_amount (param_or (query_amount req) (str "0.01")) = true →
        (POST rateLimit now rnd isProduction req).1 ≠ InvalidParameters))
  ∧ (validateENS r = true →
     tipRequestSchema_recipient isAddress r = true
     ∧ tipSchema_recipient r = false)
  ∧ ((∀ a, isAddress a = true → tipSchema_recipient a = true) →
     tipRequestSchema_recipient isAddress r = true →
     tipSchema_recipient r = true ∨ validateENS r = true).
Proof.
  split; [apply tipSchema_recipient_shape |].
  assert (Hens_rule : validateENS r = true →
            tipRequestSchema_recipient isAddress r = true
            ∧ tipSchema_recipient r = false).
  { intros Hens. split.
    - unfold tipRequestSchema_recipient. rewrite Hens, orb_true_r, andb_true_r.
      apply validateENS_shape in Hens as (label & -> & _).
      rewrite length_app. apply Nat.leb_le. simpl. lia.
    - apply not_true_is_false. intros Haddr.
      apply validateENS_shape in Hens as (label & Hr & _).
      apply tipSchema_recipient_shape in Haddr as (digits & Hr' & Hlen & Hhex).
      assert (Hlast : last r = Some 104%N).
      { rewrite Hr.
        change (str ".eth") with ([46; 101; 116] ++ [104])%N.
        by rewrite app_assoc, last_snoc. }
      rewrite Hr', last_app in Hlast.
      destruct (last digits) as [c |] eqn:Hc.
      + injection Hlast as ->. apply last_Some_elem_of in Hc.
        rewrite Forall_forall in Hhex. specialize (Hhex _ Hc). discriminate Hhex.
      + apply last_None in Hc. subst digits. discriminate Hlen. }
  split; [| split; [exact Hens_rule |]].
  - intros Hlimit Hbody Hvalid Hrecipient. unfold PrepareTip.POST.
    destruct (limit rateLimit (default (str "anonymous") (ip req)) now rnd)
      as [result rateLimit'].
    cbn [fst] in Hlimit. rewrite Hlimit. cbn [negb fst].
    unfold prepare. rewrite Hbody, Hvalid, Hrecipient. cbn [negb]. cbn zeta.
    unfold tipSchema_safeParse. split.
    + intros ->. by rewrite andb_false_r.
    + intros -> ->.
      assert (tipSchema_token (param_or (query_token req) (str "ETH")) = true) as ->.
      { unfold tipSchema_token, param_or.
        by destruct (query_token req) as [[| c v] |]. }
      cbn [andb negb]. rewrite preferredChain_is_base.
      destruct (parseEther _); [| done].
      destruct (streq _ _); [done |].
      destruct (getTokenContract _ _); [| done].
      destruct (getTokenDecimals _); try done.
      destruct (parseUnits _ _); [| done].
      by destruct (encodeTransferCall _ _).
  - intros Haddress. unfold tipRequestSchema_recipient.
    intros [_ [Ha | Hens]%orb_true_iff]%andb_true_iff; [left | by right].
    by apply Haddress.
Qed.


(** C8, at the inputs where the handler departs from it.  A token whose
    name is that of a member of [Object.prototype] ([toString],
    [constructor], ...) has no entry in the address table of Base and is
    not the native token, yet [getTokenContract] does not answer [null]
    for it: the handler goes on and ends in its [catch] block with the
    500 error frame instead of the rejection that names the token and the
    chain. *)
Theorem prepare_inherited_token_name isProduction req message
    amount token recipient wei :
  body req = Some message →
  validateFrameMessage isValidUrl message = true →
  param_or (query_amount req) (str "0.01") = amount →
  param_or (query_token req) (str "ETH") = token →
  param_or (query_recipient req) [] = recipient →
  tipSchema_safeParse amount token recipient = true →
  parseUnits amount 18 = Some wei →
  token ∈ Object_prototype_keys →
  token ≠ str "ETH"
  ∧ (∃ tokens, chain_tokens 8453 TOKEN_ADDRESSES = Some tokens
               ∧ assoc token tokens = None)
  ∧ getTokenContract token 8453
    = Some (mkTokenContract Inherited 8453 token Inherited)
  ∧ prepare isProduction req = ErrorFrame
  ∧ prepare isProduction req ≠ TokenNotSupported token (str "Base").
Proof.
  intros Hbody Hvalid Hamount Htoken Hrecipient Hparse Hwei Hproto.
  rewrite (prepare_validated _ _ _ _ _ _ _ Hbody Hvalid Hamount Htoken Hrecipient Hparse Hwei).
  clear Htoken Hparse. unfold Object_prototype_keys in Hproto.
  repeat (apply elem_of_cons in Hproto as [-> | Hproto]);
    [.. | by apply elem_of_nil in Hproto];
    (split_and!;
     [discriminate | eexists; split; reflexivity | reflexivity
     | reflexivity | discriminate]).
Qed.

End PrepareTipProperties.

Section PrepareTipWitnesses.
Import JSNumber JSValue Validation RateLimit Chain Contracts Decimal Ethers PrepareTip.
Import Fixtures.

(** C5, as stated, fails: [vitalik.eth] matches the [name.eth] pattern of
    the TipRequest schema, and the Transaction Preparer answers a request
    for this recipient with 400 "Invalid parameters". *)
Lemma prepare_rejects_ens_counterexample :
  validateENS (str "vitalik.eth") = true
  ∧ (∀ isAddress,
       Validation.tipRequestSchema_recipient isAddress (str "vitalik.eth") = true)
  ∧ tipSchema_recipient (str "vitalik.eth") = false
  ∧ (POST isValidUrl parseUnits encoder rateLimit 1700000000000 false true
       (mkRequest (Some (str "203.0.113.7")) (Some message)
          (Some (str "0.01")) (Some (str "ETH")) (Some (str "vitalik.eth")))).1
    = InvalidParameters.
Proof.
  split; [reflexivity | split; [| split; reflexivity]].
  intros isAddress. unfold Validation.tipRequestSchema_recipient.
  replace (validateENS (str "vitalik.eth")) with true by reflexivity.
  by rewrite orb_true_r.
Qed.


(** USDT has no address on Base: the request is refused by name. *)
Lemma prepare_usdt_on_base :
  prepare isValidUrl parseUnits encoder true (request "0.1" "USDT")
  = TokenNotSupported (str "USDT") (str "Base").
Proof.
  eapply (prepare_unlisted_token isValidUrl parseUnits encoder true
            (request "0.1" "USDT") message (str "0.1") (str "USDT")
            (str "0x0000000000000000000000000000000000000001")
            100000000000000000); try reflexivity.
  - discriminate.
  - apply (bool_decide_eq_false_1 (str "USDT" ∈ Object_prototype_keys)). reflexivity.
Qed.

(** USDC on Base, with the repository's encoder: the call data of the
    frame gives back the recipient and 0.1 USDC in units of [10^-6]. *)
Lemma prepare_usdc_on_base :
  ∃ data,
    prepare isValidUrl parseUnits encoder true (request "0.1" "USDC")
    = TransactionFrame 8453
        (mkTx (Own (str "0x833589fCD6eDb6E08f4c7C32D4f71b54bdA02913")) (str "0") data)
        (str "0.1") (str "USDC") (str "0x0000000000000000000000000000000000000001")
    ∧ CallData.decodeTransfer data
      = Some (str "0x0000000000000000000000000000000000000001", 100000).
Proof. eexists. split; reflexivity. Qed.

Lemma prepare_inherited_token_name_witness :
  str "toString" ≠ str "ETH"
  ∧ (∃ tokens, chain_tokens 8453 TOKEN_ADDRESSES = Some tokens
               ∧ assoc (str "toString") tokens = None)
  ∧ getTokenContract (str "toString") 8453
    = Some (mkTokenContract Inherited 8453 (str "toString") Inherited)
  ∧ prepare isValidUrl parseUnits encoder true (request "0.1" "toString") = ErrorFrame
  ∧ prepare isValidUrl parseUnits encoder true (request "0.1" "toString")
    ≠ TokenNotSupported (str "toString") (str "Base").
Proof.
  apply (prepare_inherited_token_name isValidUrl parseUnits encoder true
           (request "0.1" "toString") message (str "0.1") (str "toString")
           (str "0x0000000000000000000000000000000000000001")
           100000000000000000).
  - reflexivity.
  - reflexivity.
  - reflexivity.
  - reflexivity.
  - reflexivity.
  - reflexivity.
  - reflexivity.
  - unfold Object_prototype_keys. do 5 apply list_elem_of_further.
    apply list_elem_of_here.
Defined.

End PrepareTipWitnesses.

(** * Further properties *)

(** ** The rate limiter: clean-up, isolation, invariants *)

Section RateLimiterMore.
Import RateLimit RateLimitMore Spec SpecMore.

Implicit Types (rl : InMemoryRateLimiter) (identifier other : jsstring) (e : Entry).
Implicit Types (now : Z) (rnd : bool).

Lemma cleanup_lookup now (reqs : gmap jsstring Entry) identifier e :
  cleanup now reqs !! identifier = Some e
  ↔ reqs !! identifier = Some e ∧ now <= resetTime e.
Proof.
  unfold cleanup. rewrite map_lookup_filter_Some. simpl. split; intros [? ?]; split; [done | lia | done | lia].
Qed.

(** The answer is a function of the caller's own record. *)
Lemma limit_answer rl identifier now rnd :
  (limit rl identifier now rnd).1
  = answer (maxRequests rl) (windowMs rl) (requests rl !! identifier) now.
Proof.
  unfold limit, answer. destruct (requests rl !! identifier) as [e |]; [| done].
  destruct (now >? resetTime e); [done |].
  by destruct (count e + 1 >? maxRequests rl).
Qed.

Lemma limit_config rl identifier now rnd :
  maxRequests (limit rl identifier now rnd).2 = maxRequests rl
  ∧ windowMs (limit rl identifier now rnd).2 = windowMs rl.
Proof.
  unfold limit. destruct (requests rl !! identifier) as [e |]; [| done].
  destruct (now >? resetTime e); [done |].
  by destruct (count e + 1 >? maxRequests rl).
Qed.

(** The record that a call leaves for its caller. *)
Lemma limit_own_record rl identifier now rnd :
  requests (limit rl identifier now rnd).2 !! identifier
  = Some match requests rl !! identifier with
         | Some e =>
             if now >? resetTime e then mkEntry 1 (now + windowMs rl)
             else mkEntry (count e + 1) (resetTime e)
         | None => mkEntry 1 (now + windowMs rl)
         end.
Proof.
  unfold limit. destruct (requests rl !! identifier) as [e |] eqn:Hsome;
    [| simpl; by rewrite lookup_insert_eq].
  destruct (Z.gtb_spec now (resetTime e)) as [Hexp | Hlive];
    [simpl; by rewrite lookup_insert_eq |].
  assert (Hreqs : (if rnd then cleanup now (requests rl) else requests rl)
                  !! identifier = Some e).
  { destruct rnd; [apply cleanup_lookup; split; [done | lia] | done]. }
  destruct (count e + 1 >? maxRequests rl); simpl;
    by rewrite lookup_alter_eq, Hreqs.
Qed.

(** The records that a call leaves for the others: untouched without
    the clean-up, and with it the live ones only. *)
Lemma limit_other_records rl identifier other now rnd :
  other ≠ identifier →
  requests (limit rl identifier now rnd).2 !! other
  = if rnd then cleanup now (requests rl) !! other else requests rl !! other.
Proof.
  intros Hne. unfold limit. destruct (requests rl !! identifier) as [e |];
    [| simpl; rewrite lookup_insert_ne by done; by destruct rnd].
  destruct (now >? resetTime e);
    [simpl; rewrite lookup_insert_ne by done; by destruct rnd |].
  destruct (count e + 1 >? maxRequests rl); simpl;
    rewrite lookup_alter_ne by done; by destruct rnd.
Qed.

(** X1.  The clean-up that [limit] runs once in a hundred calls changes
    neither the answer nor the record of the caller; for the other
    identifiers it only drops records that have expired. *)
Theorem limit_cleanup_only_drops_expired rl identifier now :
  (limit rl identifier now true).1 = (limit rl identifier now false).1
  ∧ requests (limit rl identifier now true).2 !! identifier
    = requests (limit rl identifier now false).2 !! identifier
  ∧ ∀ other e, other ≠ identifier →
      (requests (limit rl identifier now true).2 !! other = Some e
       ↔ requests (limit rl identifier now false).2 !! other = Some e
         ∧ now <= resetTime e).
Proof.
  split_and!.
  - by rewrite !limit_answer.
  - by rewrite !limit_own_record.
  - intros other e Hne. rewrite !limit_other_records by done.
    apply cleanup_lookup.
Qed.

(** X2.  With a clock that does not go back, a call made by one
    identifier never changes the answer that another identifier gets
    afterwards. *)
Theorem limit_isolation rl identifier other now rnd now' rnd' :
  other ≠ identifier → now <= now' →
  (limit (limit rl identifier now rnd).2 other now' rnd').1
  = (limit rl other now' rnd').1.
Proof.
  intros Hne Hclock. rewrite !limit_answer.
  destruct (limit_config rl identifier now rnd) as [-> ->].
  rewrite limit_other_records by done.
  destruct rnd; [| done].
  destruct (requests rl !! other) as [e |] eqn:Hother.
  - destruct (Z.le_gt_cases now (resetTime e)) as [Hlive | Hexp].
    + by rewrite (proj2 (cleanup_lookup now _ other e) (conj Hother Hlive)).
    + destruct (cleanup now (requests rl) !! other) as [e' |] eqn:Hc.
      * apply cleanup_lookup in Hc as [Hc _]. congruence.
      * unfold answer. by replace (now' >? resetTime e) with true by lia.
  - destruct (cleanup now (requests rl) !! other) as [e' |] eqn:Hc; [| done].
    apply cleanup_lookup in Hc as [Hc _]. congruence.
Qed.

Lemma limit_isolation_witness :
  let rl := mkLimiter {[str "a" := mkEntry 2 1000; str "b" := mkEntry 5 900]} 5 1000 in
  (limit (limit rl (str "a") 950 true).2 (str "b") 960 false).1
  = (limit rl (str "b") 960 false).1.
Proof.
  intros rl. apply (limit_isolation rl (str "a") (str "b") 950 true 960 false).
  - discriminate.
  - lia.
Defined.

(** X3.  If every stored count is at least 1, as in every state reached
    from an empty limiter, a call keeps it so, and its answer agrees with
    the record it leaves: [reset] is the reset time of the record, an
    accepted call has [remaining = maxRequests - count], a refused call
    has [remaining = 0] and a count above the limit, and under a limit of
    at least 1 [remaining] lies between 0 and [maxRequests - 1]. *)
Theorem limit_answer_matches_record rl identifier now rnd :
  counted rl →
  let out := limit rl identifier now rnd in
  counted out.2
  ∧ ∃ e', requests out.2 !! identifier = Some e'
          ∧ RateLimit.reset out.1 = resetTime e'
          ∧ limit_ out.1 = maxRequests rl
          ∧ (success out.1 = true → remaining out.1 = maxRequests rl - count e')
          ∧ (success out.1 = false →
             remaining out.1 = 0 ∧ maxRequests rl < count e')
          ∧ (1 <= maxRequests rl → 0 <= remaining out.1 <= maxRequests rl - 1).
Proof.
  intros Hcounted out. subst out. split.
  - intros k e Hk. destruct (decide (k = identifier)) as [-> | Hne].
    + rewrite limit_own_record in Hk. injection Hk as <-.
      destruct (requests rl !! identifier) as [e0 |] eqn:H0; [| simpl; lia].
      specialize (Hcounted _ _ H0). destruct (now >? resetTime e0); simpl; lia.
    + rewrite limit_other_records in Hk by done.
      destruct rnd; [apply cleanup_lookup in Hk as [Hk _] |]; by eapply Hcounted.
  - eexists. split; [apply limit_own_record |]. rewrite limit_answer. unfold answer.
    destruct (requests rl !! identifier) as [e0 |] eqn:H0; [| simpl; split_and!; [done .. | lia]; intros; lia ].
    specialize (Hcounted _ _ H0).
    destruct (Z.gtb_spec now (resetTime e0)); simpl;
      [split_and!; try done; intros; lia |].
    destruct (Z.gtb_spec (count e0 + 1) (maxRequests rl)); simpl;
      split_and!; try done; intros; lia.
Qed.

Lemma limit_answer_matches_record_witness :
  let rl := mkLimiter {[str "a" := mkEntry 3 1000]} 3 1000 in
  let out := limit rl (str "a") 990 false in
  counted out.2
  ∧ ∃ e', requests out.2 !! str "a" = Some e'
          ∧ RateLimit.reset out.1 = resetTime e'
          ∧ limit_ out.1 = 3
          ∧ (success out.1 = true → remaining out.1 = 3 - count e')
          ∧ (success out.1 = false → remaining out.1 = 0 ∧ 3 < count e')
          ∧ (1 <= 3 → 0 <= remaining out.1 <= 3 - 1).
Proof.
  intros rl. apply (limit_answer_matches_record rl (str "a") 990 false).
  intros k e Hk. subst rl. cbn [requests] in Hk.
  apply lookup_singleton_Some in Hk as [_ <-]. simpl. lia.
Defined.

(** X4.  [reset] gives an identifier its whole quota back and leaves the
    others alone; after [clear] every identifier is answered as a first
    caller. *)
Theorem reset_restores_quota rl identifier now rnd :
  getStatus (reset rl identifier) identifier = None
  ∧ (∀ other, other ≠ identifier →
       getStatus (reset rl identifier) other = getStatus rl other)
  ∧ (limit (reset rl identifier) identifier now rnd).1
    = mkResult true (maxRequests rl) (maxRequests rl - 1) (now + windowMs rl)
  ∧ (∀ other, (limit (clear rl) other now rnd).1
       = mkResult true (maxRequests rl) (maxRequests rl - 1) (now + windowMs rl)).
Proof.
  unfold getStatus, reset, clear. simpl. split_and!.
  - apply lookup_delete_eq.
  - intros other Hne. by apply lookup_delete_ne.
  - rewrite limit_answer. simpl. by rewrite lookup_delete_eq.
  - intros other. rewrite limit_answer. simpl. by rewrite lookup_empty.
Qed.

(** X5.  [checkRateLimit] builds its limiter inside the call, so it has
    no memory: whatever was asked before, it accepts, with
    [remaining = maxRequests - 1] of the chosen configuration. *)
Theorem checkRateLimit_never_rejects identifier type now rnd :
  checkRateLimit identifier type now rnd
  = mkResult true (RATE_LIMIT_CONFIGS type).1 ((RATE_LIMIT_CONFIGS type).1 - 1)
      (now + (RATE_LIMIT_CONFIGS type).2)
  ∧ 4 <= remaining (checkRateLimit identifier type now rnd).
Proof.
  unfold checkRateLimit. rewrite limit_answer.
  unfold createRateLimiter, new. simpl. rewrite lookup_empty. simpl.
  split; [done |]. destruct type; simpl; lia.
Qed.

End RateLimiterMore.

(** ** The identifier of a request *)

Section IdentifierProperties.
Import RateLimitMore.

Implicit Types (s part : jsstring).

Lemma trimStart_head s c rest :
  trimStart s = c :: rest → is_whitespace c = false.
Proof.
  induction s as [| c0 s IH]; simpl; [done |].
  destruct (is_whitespace c0) eqn:Hc0; [done |]. by intros [= <- _].
Qed.

Lemma trimStart_fixed s :
  match s with c :: _ => is_whitespace c = false | [] => True end →
  trimStart s = s.
Proof. destruct s as [| c s]; simpl; [done |]. by intros ->. Qed.

Lemma trimStart_idempotent s : trimStart (trimStart s) = trimStart s.
Proof.
  apply trimStart_fixed. destruct (trimStart s) as [| c rest] eqn:Hs; [done |].
  by eapply trimStart_head.
Qed.

(** What [trim] returns is trimmed. *)
Lemma trim_idempotent s : trim (trim s) = trim s.
Proof.
  unfold trim at 1.
  assert (Hstart : trimStart (trim s) = trim s).
  { apply trimStart_fixed. unfold trim.
    destruct (trimEnd_prefix (trimStart s)) as [spaces Hpre].
    destruct (trimEnd (trimStart s)) as [| c rest] eqn:Hr; [done |].
    rewrite <- app_comm_cons in Hpre. by eapply trimStart_head. }
  rewrite Hstart. unfold trim, trimEnd.
  by rewrite rev_involutive, trimStart_idempotent.
Qed.

Lemma split_head_no_separator sep s :
  ∃ part, head (split sep s) = Some part ∧ sep ∉ part.
Proof.
  induction s as [| c s (part & Hhead & Hno)]; simpl.
  - exists []. split; [done | apply not_elem_of_nil].
  - destruct (N.eqb_spec c sep) as [-> | Hne].
    + exists []. split; [done | apply not_elem_of_nil].
    + destruct (split sep s) as [| p parts]; [done |].
      injection Hhead as ->. exists (c :: part). split; [done |].
      apply not_elem_of_cons. split; [congruence | done].
Qed.

(** X6.  [getIPIdentifier] prefers [x-forwarded-for]: it answers with the
    first entry of the header, trimmed, which holds no comma and no white
    space at either end; without any header or address it answers
    ["anonymous"]. *)
Theorem getIPIdentifier_forwarded (req : IncomingRequest) :
  (∀ c forwarded, x_forwarded_for req = Some (c :: forwarded) →
     ∃ first rest,
       split 44 (c :: forwarded) = first :: rest
       ∧ getIPIdentifier req = trim first
       ∧ (44%N ∉ getIPIdentifier req)
       ∧ trim (getIPIdentifier req) = getIPIdentifier req)
  ∧ (truthy_string (x_forwarded_for req) = None →
     truthy_string (x_real_ip req) = None →
     truthy_string (cf_connecting_ip req) = None →
     truthy_string (socket_remoteAddress req) = None →
     truthy_string (req_ip req) = None →
     getIPIdentifier req = str "anonymous").
Proof.
  split.
  - intros c forwarded Hfwd. unfold getIPIdentifier. rewrite Hfwd. cbn [truthy_string].
    destruct (split_head_no_separator 44 (c :: forwarded)) as (part & Hhead & Hno).
    destruct (split 44 (c :: forwarded)) as [| first rest] eqn:Hsplit; [done |].
    injection Hhead as ->. exists part, rest. cbn [head default].
    split_and!; [done | done | | apply trim_idempotent].
    destruct (trim_infix part) as (before & after & Hparts).
    intros Hin. apply Hno. rewrite Hparts.
    apply elem_of_app. right. apply elem_of_app. by left.
  - intros H1 H2 H3 H4 H5. unfold getIPIdentifier. by rewrite H1, H2, H3, H4, H5.
Qed.

End IdentifierProperties.

(** ** lib/validation.ts : what the validators accept *)

Section ValidatorsMore.
Import JSNumber JSValue Validation ValidationMore PrepareTip Decimal Spec SpecMore.

Implicit Types (s a : jsstring) (message : JSValue.value).

Lemma has_true key fields :
  has key (VObject fields) = true
  ↔ ∃ v, get key fields = Some v.
Proof. unfold has. rewrite bool_decide_eq_true. reflexivity. Qed.

Lemma has_false key fields :
  has key (VObject fields) = false ↔ get key fields = None.
Proof.
  unfold has. rewrite bool_decide_eq_false. rewrite <- eq_None_not_Some. done.
Qed.

(** What [validateFrameMessage] has checked when it returns true. *)
Lemma validateFrameMessage_shape (isValidUrl : jsstring → bool) message :
  validateFrameMessage isValidUrl message = true →
  well_formed_message isValidUrl message.
Proof.
  unfold validateFrameMessage.
  destruct message as [| | b | n0 | t | items | fields]; try discriminate;
    [by destruct b | by destruct (truthy (VNumber n0))
    | by destruct (truthy (VString t)) |].
  cbn [truthy typeof_object negb orb forallb].
  destruct (has (str "fid") (VObject fields)) eqn:Hfid; [| discriminate].
  destruct (has (str "url") (VObject fields)) eqn:Hurl; [| discriminate].
  destruct (has (str "messageHash") (VObject fields)) eqn:Hhash; [| discriminate].
  destruct (has (str "timestamp") (VObject fields)) eqn:Hts; [| discriminate].
  destruct (has (str "network") (VObject fields)) eqn:Hnet; [| discriminate].
  cbn [andb negb].
  apply has_true in Hfid as [vfid Hfid], Hurl as [vurl Hurl],
    Hhash as [vhash Hhash], Hts as [vts Hts], Hnet as [vnet Hnet].
  unfold prop at 1 2 3 4 5. rewrite Hfid, Hurl, Hhash, Hts, Hnet. cbn [default from_option id].
  destruct vfid as [| | | nfid | | |]; cbn beta iota; try discriminate.
  destruct (le nfid (of_Z 0)) eqn:Hfid0; [discriminate |].
  destruct vurl as [| | | | u | |]; cbn beta iota; try discriminate.
  destruct (isValidUrl u) eqn:Hu; [| discriminate]. cbn [negb].
  destruct vhash as [| | | | h | |]; cbn beta iota; try discriminate.
  destruct (Nat.ltb_spec (length h) 10) as [| Hh]; [discriminate |].
  destruct vts as [| | | nts | | |]; cbn beta iota; try discriminate.
  destruct (le nts (of_Z 0)) eqn:Hts0; [discriminate |].
  destruct vnet as [| | | nnet | | |]; cbn beta iota; try discriminate.
  intros Hrest. exists fields. split; [done |].
  split; [by exists nfid |]. split; [by exists u |]. split; [by exists h |].
  split; [by exists nts |]. split; [by exists nnet |].
  revert Hrest.
  destruct (has (str "buttonIndex") (VObject fields)
            && match prop (str "buttonIndex") (VObject fields) with
               | VNumber n => lt n (of_Z 1) || gt n (of_Z 4)
               | _ => true
               end) eqn:Hbutton; [discriminate |].
  destruct (has (str "inputText") (VObject fields)
            && match prop (str "inputText") (VObject fields) with
               | VString t => (256 <? length t)%nat
               | _ => true
               end) eqn:Hinput; [discriminate |].
  destruct (has (str "castId") (VObject fields) && _) eqn:Hcast; [discriminate |].
  intros _. split_and!.
  + intros v Hv. unfold prop in Hbutton.
    rewrite (proj2 (has_true _ _) (ex_intro _ v Hv)), Hv in Hbutton.
    cbn [andb default from_option id] in Hbutton.
    destruct v as [| | | n | | |]; try discriminate.
    apply orb_false_iff in Hbutton as [? ?]. by exists n.
  + intros v Hv. unfold prop in Hinput.
    rewrite (proj2 (has_true _ _) (ex_intro _ v Hv)), Hv in Hinput.
    cbn [andb default from_option id] in Hinput.
    destruct v as [| | | | t | |]; try discriminate.
    exists t. split; [done |]. apply Nat.ltb_ge in Hinput. lia.
  + intros v Hv.
    assert (Hprop : prop (str "castId") (VObject fields) = v)
      by (unfold prop; by rewrite Hv).
    rewrite (proj2 (has_true _ _) (ex_intro _ v Hv)) in Hcast.
    cbn zeta in Hcast. rewrite !Hprop in Hcast. cbn [andb] in Hcast.
    apply orb_false_iff in Hcast as [[Htruthy Hcf]%orb_false_iff Hch].
    apply negb_false_iff in Htruthy. split; [done |].
    split.
    * revert Hcf.
      destruct (prop (str "fid") v) as [| | | n | | |]; try discriminate.
      intros _. by exists n.
    * revert Hch.
      destruct (prop (str "hash") v) as [| | | | h' | |]; try discriminate.
      intros _. by exists h'.
Qed.

(** A message of that shape is accepted. *)
Lemma validateFrameMessage_complete (isValidUrl : jsstring → bool) message :
  well_formed_message isValidUrl message →
  validateFrameMessage isValidUrl message = true.
Proof.
  intros (fields & -> & (nfid & Hfid & Hfid0) & (u & Hurl & Hu) & (h & Hhash & Hh)
          & (nts & Hts & Hts0) & (nnet & Hnet) & Hbutton & Hinput & Hcast).
  unfold validateFrameMessage.
  cbn [truthy typeof_object negb orb forallb].
  rewrite (proj2 (has_true _ _) (ex_intro _ _ Hfid)),
    (proj2 (has_true _ _) (ex_intro _ _ Hurl)),
    (proj2 (has_true _ _) (ex_intro _ _ Hhash)),
    (proj2 (has_true _ _) (ex_intro _ _ Hts)),
    (proj2 (has_true _ _) (ex_intro _ _ Hnet)).
  cbn [andb negb].
  unfold prop at 1 2 3 4 5. rewrite Hfid, Hurl, Hhash, Hts, Hnet. cbn [default from_option id].
  rewrite Hfid0, Hu, Hts0. cbn [negb].
  replace (length h <? 10)%nat with false by (symmetry; apply Nat.ltb_ge; lia).
  assert (Hb : has (str "buttonIndex") (VObject fields)
               && match prop (str "buttonIndex") (VObject fields) with
                  | VNumber n => lt n (of_Z 1) || gt n (of_Z 4)
                  | _ => true
                  end = false).
  { destruct (get (str "buttonIndex") fields) as [v |] eqn:Hv.
    - destruct (Hbutton v eq_refl) as (n & -> & Hlo & Hhi).
      unfold prop. rewrite Hv. cbn [default from_option id]. rewrite Hlo, Hhi. apply andb_false_r.
    - by rewrite (proj2 (has_false _ _) Hv). }
  assert (Hi : has (str "inputText") (VObject fields)
               && match prop (str "inputText") (VObject fields) with
                  | VString t => (256 <? length t)%nat
                  | _ => true
                  end = false).
  { destruct (get (str "inputText") fields) as [v |] eqn:Hv.
    - destruct (Hinput v eq_refl) as (t & -> & Hlen).
      unfold prop. rewrite Hv. cbn [default from_option id].
      replace (256 <? length t)%nat with false by (symmetry; apply Nat.ltb_ge; lia).
      apply andb_false_r.
    - by rewrite (proj2 (has_false _ _) Hv). }
  rewrite Hb, Hi.
  destruct (get (str "castId") fields) as [v |] eqn:Hv.
  + destruct (Hcast v eq_refl) as (Htruthy & (n & Hn) & (h' & Hh')).
    assert (Hprop : prop (str "castId") (VObject fields) = v)
      by (unfold prop; by rewrite Hv).
    cbn zeta. rewrite !Hprop, Htruthy, Hn, Hh'. cbn [negb orb].
    by rewrite andb_false_r.
  + by rewrite (proj2 (has_false _ _) Hv).
Qed.

(** X7.  [validateFrameMessage] accepts a value exactly when it is an
    object whose [fid] and [timestamp] are numbers not [<= 0], whose [url]
    is a string that parses, whose [messageHash] is a string of at least 10
    characters, whose [network] is a number, and whose optional
    [buttonIndex], [inputText] and [castId] are a number neither below 1
    nor above 4, a string of at most 256 characters, and a truthy value
    with a number [fid] and a string [hash]. *)
Theorem validateFrameMessage_accepts_exactly (isValidUrl : jsstring → bool) message :
  validateFrameMessage isValidUrl message = true
  ↔ well_formed_message isValidUrl message.
Proof.
  split.
  - apply validateFrameMessage_shape.
  - apply validateFrameMessage_complete.
Qed.

Lemma le_negb_gt x z :
  isNaN x = false → le x (of_Z z) = negb (gt x (of_Z z)).
Proof. by destruct x as [| [] | q]. Qed.

Lemma gt_negb_le x z :
  isNaN x = false → gt x (of_Z z) = negb (le x (of_Z z)).
Proof. intros H. rewrite le_negb_gt by done. by rewrite negb_involutive. Qed.

Lemma parseFloat_empty : parseFloat [] = NaN.
Proof. reflexivity. Qed.

Lemma validateAmount_valid a :
  isValid (validateAmount a) = true
  ↔ isNaN (parseFloat a) = false
    ∧ le (parseFloat a) (of_Z 0) = false
    ∧ gt (parseFloat a) (of_Z 1000000) = false
    ∧ ∀ whole fraction rest, split 46 a = whole :: fraction :: rest →
        (length fraction <= 18)%nat.
Proof.
  unfold validateAmount. cbn zeta.
  destruct (isNaN (parseFloat a)); [cbn; intuition discriminate |].
  destruct (le (parseFloat a) (of_Z 0)); [cbn; intuition discriminate |].
  destruct (gt (parseFloat a) (of_Z 1000000)); [cbn; intuition discriminate |].
  destruct (split 46 a) as [| whole [| fraction rest]]; cbn [isValid valid].
  - intuition discriminate.
  - intuition discriminate.
  - destruct (Nat.ltb_spec 18 (length fraction)); cbn.
    + split; [discriminate |]. intros (_ & _ & _ & H'). specialize (H' _ _ _ eq_refl). lia.
    + split; [| done]. intros _. split_and!; try done. intros ? ? ? [= <- <- <-]. lia.
Qed.

(** X8.  The three checks of an amount are nested: what [validateAmount]
    accepts passes the [amount] field of [tipRequestSchema]; what that
    field accepts passes the [amount] field of the prepare-tip route; and
    the only ground on which [validateAmount] refuses an amount that
    [tipRequestSchema] accepts is ["Too many decimal places"]. *)
Theorem amount_validators_nest a :
  (isValid (validateAmount a) = true → tipRequestSchema_amount a = true)
  ∧ (tipRequestSchema_amount a = true → tipSchema_amount a = true)
  ∧ (tipRequestSchema_amount a = true →
       validateAmount a = valid
       ∨ validateAmount a = invalid "Too many decimal places").
Proof.
  split_and!.
  - intros (Hnan & Hpos & Hmax & _)%validateAmount_valid.
    unfold tipRequestSchema_amount.
    rewrite Hnan, (gt_negb_le _ 0), Hpos, (le_negb_gt _ 1000000), Hmax by done.
    destruct a; [discriminate Hnan | done].
  - unfold tipRequestSchema_amount, tipSchema_amount.
    intros [[_ H]%andb_true_iff _]%andb_true_iff. done.
  - unfold tipRequestSchema_amount, validateAmount.
    intros [[_ [Hnan Hpos]%andb_true_iff]%andb_true_iff Hmax]%andb_true_iff.
    apply negb_true_iff in Hnan. cbn zeta.
    rewrite Hnan, (le_negb_gt _ 0), Hpos, (gt_negb_le _ 1000000), Hmax by done.
    cbn [negb].
    destruct (split 46 a) as [| whole [| fraction rest]]; auto.
    destruct (18 <? length fraction)%nat; auto.
Qed.

Lemma Qred_integer q :
  Zpos (Qden (Qred q)) = 1 ↔ ∃ z, (q == inject_Z z)%Q.
Proof.
  split.
  - intros H. exists (Qnum (Qred q)).
    rewrite <- (Qred_correct q) at 1.
    destruct (Qred q) as [n d]. cbn in *. injection H as ->. reflexivity.
  - intros [z Hz]. apply Qred_complete in Hz. rewrite Hz.
    rewrite Qcanon.Qred_identity; [done |]. cbn. apply Z.gcd_1_r.
Qed.

Lemma lt_Finite_false (a b : Q) : lt (Finite a) (Finite b) = false ↔ (b <= a)%Q.
Proof.
  rewrite <- not_true_iff_false, lt_Finite. split; [apply Qnot_lt_le | apply Qle_not_lt].
Qed.

(** X9.  [validateFID] accepts exactly the numbers that are an integer
    from 1 to 1000000; NaN, the infinities and every fraction are
    refused. *)
Theorem validateFID_accepts_exactly fid :
  isValid (validateFID fid) = true
  ↔ ∃ z q, 1 <= z <= 1000000 ∧ fid = Finite q ∧ (q == inject_Z z)%Q.
Proof.
  unfold validateFID. split.
  - destruct (negb (isInteger fid)) eqn:Hint; [discriminate |].
    destruct (le fid (of_Z 0)) eqn:Hpos; [discriminate |].
    destruct (gt fid (of_Z 1000000)) eqn:Hmax; [discriminate |].
    intros _. apply negb_false_iff in Hint.
    destruct fid as [| |q]; try discriminate.
    cbn [isInteger] in Hint. apply Z.eqb_eq, Qred_integer in Hint as [z Hz].
    exists z, q. split; [| done].
    apply negb_false_iff, lt_Finite in Hpos. apply lt_Finite_false in Hmax.
    rewrite Hz in Hpos, Hmax. rewrite <- Zlt_Qlt in Hpos. rewrite <- Zle_Qle in Hmax. lia.
  - intros (z & q & Hz & -> & Hq).
    assert (Hint : isInteger (Finite q) = true).
    { cbn [isInteger]. apply Z.eqb_eq, Qred_integer. by exists z. }
    assert (Hpos : le (Finite q) (of_Z 0) = false).
    { apply negb_false_iff, lt_Finite. rewrite Hq, <- Zlt_Qlt. lia. }
    assert (Hmax : gt (Finite q) (of_Z 1000000) = false).
    { apply lt_Finite_false. rewrite Hq, <- Zle_Qle. lia. }
    by rewrite Hint, Hpos, Hmax.
Qed.

End ValidatorsMore.

(** ** lib/contracts.ts : the other encoders and the event decoder *)

Section CallDataMore.
Import JSNumber JSValue Validation ValidationMore PrepareTip Decimal Spec SpecMore.
Import JSBigInt Contracts ContractsMore CallData PrepareTip SpecMore.

Implicit Types (s acc : jsstring) (n radix amount : Z).

Lemma digit_char_hex d : 0 <= d < 16 → is_hex (digit_char d) = true.
Proof.
  intros Hd. unfold digit_char, is_hex, is_digit.
  destruct (Z.ltb_spec d 10).
  - apply orb_true_iff. left. apply orb_true_iff. left.
    apply andb_true_iff. split; apply N.leb_le; lia.
  - apply orb_true_iff. left. apply orb_true_iff. right.
    apply andb_true_iff. split; apply N.leb_le; lia.
Qed.

Lemma digits_from_hex fuel : ∀ n acc,
  Forall (λ c, is_hex c = true) acc →
  Forall (λ c, is_hex c = true) (digits_from fuel 16 n acc).
Proof.
  induction fuel as [| fuel IH]; intros n acc Hacc; cbn [digits_from].
  - constructor; [| done]. apply digit_char_hex, Z.mod_pos_bound. lia.
  - assert (Hacc' : Forall (λ c, is_hex c = true) (digit_char (n mod 16) :: acc)).
    { constructor; [| done]. apply digit_char_hex, Z.mod_pos_bound. lia. }
    destruct (n / 16 =? 0); [done | by apply IH].
Qed.

(** The digits that [toString(16)] writes for a number that is not
    negative are hexadecimal digits. *)
Lemma toString_hex n : 0 <= n → Forall (λ c, is_hex c = true) (toString 16 n).
Proof.
  intros Hn. unfold toString. replace (n <? 0) with false by lia.
  apply digits_from_hex. constructor.
Qed.

(** The hexadecimal form of a number that is not negative has at most 64
    digits exactly when the number is below [2^256]. *)
Lemma toString_length_uint256 n :
  0 <= n → (length (toString 16 n) <= 64)%nat ↔ n < 2 ^ 256.
Proof.
  intros Hn.
  destruct (toString_spec 16 n) as (Hparse & Hlen1 & Hlead); [lia | lia |].
  split.
  - intros Hlen. apply parse_digits_bound in Hparse; [| lia | lia].
    assert (16 ^ Z.of_nat (length (toString 16 n)) <= 16 ^ 64)
      by (apply Z.pow_le_mono_r; lia).
    replace (2 ^ 256) with (16 ^ 64) by reflexivity. lia.
  - intros Hlt.
    assert (16 ^ (Z.of_nat (length (toString 16 n)) - 1) < 16 ^ 64) as Hpow.
    { replace (16 ^ 64) with (2 ^ 256) by reflexivity. lia. }
    apply Z.pow_lt_mono_r_iff in Hpow; lia.
Qed.

(** The layout of the data that [encodeTransfer] and [encodeApprove]
    build behind their selector. *)
Lemma call_layout (sel to : jsstring) amount :
  length sel = 10%nat →
  tipSchema_recipient to = true →
  0 <= amount < 2 ^ 256 →
  let data := sel ++ padStart 64 48 (slice_from 2 to)
                  ++ padStart 64 48 (toString 16 amount) in
  length data = 138%nat
  ∧ selector data = sel
  ∧ decodeTransfer data = Some (to, amount).
Proof.
  intros Hsel (digits & -> & Hlen & _)%tipSchema_recipient_shape Hamount.
  destruct (toString_spec 16 amount) as (Hparse & Hlen1 & _); [lia | lia |].
  pose proof (proj2 (toString_length_uint256 amount ltac:(lia)) ltac:(lia)) as Hhex.
  set (hex := toString 16 amount) in *.
  set (word1 := replicate 24 48%N ++ digits).
  set (word2 := replicate (64 - length hex) 48%N ++ hex).
  assert (Hw1 : length word1 = 64%nat).
  { subst word1. rewrite length_app, length_replicate. lia. }
  assert (Hw2 : length word2 = 64%nat).
  { subst word2. rewrite length_app, length_replicate. lia. }
  assert (Hdata : sel ++ padStart 64 48 (slice_from 2 (str "0x" ++ digits))
                      ++ padStart 64 48 hex = sel ++ word1 ++ word2).
  { unfold padStart, slice_from.
    change (drop 2 (str "0x" ++ digits)) with digits. by rewrite Hlen. }
  cbn zeta. rewrite Hdata. split_and!.
  - rewrite !length_app. lia.
  - unfold selector, slice. rewrite drop_0.
    by rewrite take_app_length' by lia.
  - unfold decodeTransfer, slice.
    assert (Hs1 : take (74 - 34) (drop 34 (sel ++ word1 ++ word2)) = digits).
    { subst word1.
      replace (sel ++ (replicate 24 48%N ++ digits) ++ word2)
        with ((sel ++ replicate 24 48%N) ++ digits ++ word2)
        by by rewrite <- !app_assoc.
      rewrite drop_app_length' by (rewrite length_app, length_replicate; lia).
      by rewrite take_app_length' by lia. }
    assert (Hs2 : take (138 - 74) (drop 74 (sel ++ word1 ++ word2)) = word2).
    { rewrite app_assoc.
      rewrite drop_app_length' by (rewrite length_app; lia).
      apply take_ge. lia. }
    rewrite Hs1, Hs2. subst word2.
    rewrite parse_leading_zeros by lia. fold hex in Hparse. by rewrite Hparse.
Qed.

(** X10.  For a spender address and an amount that fits a [uint256],
    [encodeApprove] builds 138 characters: the selector [0x095ea7b3] and
    two words from which the spender and the amount are read back; the
    words are those of [encodeTransfer] for the same arguments. *)
Theorem encodeApprove_roundtrip (spender : jsstring) amount :
  tipSchema_recipient spender = true →
  0 <= amount < 2 ^ 256 →
  length (encodeApprove spender amount) = 138%nat
  ∧ selector (encodeApprove spender amount) = str "0x095ea7b3"
  ∧ decodeTransfer (encodeApprove spender amount) = Some (spender, amount)
  ∧ slice_from 10 (encodeApprove spender amount)
    = slice_from 10 (encodeTransfer spender amount).
Proof.
  intros Hspender Hamount.
  destruct (call_layout (str "0x095ea7b3") spender amount eq_refl Hspender Hamount)
    as (Hlen & Hsel & Hdec).
  split_and!; [exact Hlen | exact Hsel | exact Hdec | reflexivity].
Qed.

Lemma encodeApprove_roundtrip_witness :
  length (encodeApprove (str "0x833589fCD6eDb6E08f4c7C32D4f71b54bdA02913") 100000)
  = 138%nat
  ∧ selector (encodeApprove (str "0x833589fCD6eDb6E08f4c7C32D4f71b54bdA02913") 100000)
    = str "0x095ea7b3"
  ∧ decodeTransfer (encodeApprove (str "0x833589fCD6eDb6E08f4c7C32D4f71b54bdA02913") 100000)
    = Some (str "0x833589fCD6eDb6E08f4c7C32D4f71b54bdA02913", 100000)
  ∧ slice_from 10 (encodeApprove (str "0x833589fCD6eDb6E08f4c7C32D4f71b54bdA02913") 100000)
    = slice_from 10 (encodeTransfer (str "0x833589fCD6eDb6E08f4c7C32D4f71b54bdA02913") 100000).
Proof.
  apply (encodeApprove_roundtrip (str "0x833589fCD6eDb6E08f4c7C32D4f71b54bdA02913") 100000).
  - reflexivity.
  - split; [lia | reflexivity].
Defined.

Lemma Forall_hex_app s1 s2 :
  Forall (λ c, is_hex c = true) (s1 ++ s2)
  ↔ Forall (λ c, is_hex c = true) s1 ∧ Forall (λ c, is_hex c = true) s2.
Proof. apply Forall_app. Qed.

(** X11.  For a recipient address, what [encodeTransfer] builds is call
    data of the ABI (0x and 136 hexadecimal digits) exactly when the
    amount fits a [uint256]: a larger amount gives more than 64 digits,
    which are not cut, and a negative amount puts a minus sign in the
    data. *)
Theorem encodeTransfer_call_data_iff (to : jsstring) amount :
  tipSchema_recipient to = true →
  is_call_data (encodeTransfer to amount) ↔ 0 <= amount < 2 ^ 256.
Proof.
  intros (digits & -> & Hlen & Hdigits)%tipSchema_recipient_shape.
  assert (Hdata : encodeTransfer (str "0x" ++ digits) amount
                  = str "0x" ++ (str "a9059cbb" ++ replicate 24 48%N ++ digits)
                    ++ padStart 64 48 (toString 16 amount)).
  { unfold encodeTransfer, padStart at 1, slice_from.
    change (drop 2 (str "0x" ++ digits)) with digits. rewrite Hlen.
    change (str "0xa9059cbb") with (str "0x" ++ str "a9059cbb").
    by rewrite <- !app_assoc. }
  rewrite Hdata. unfold is_call_data. split.
  - intros (all & Heq & Hall & Hhex). apply app_inv_head in Heq. subst all.
    rewrite !length_app, length_replicate, Hlen in Hall.
    change (length (str "a9059cbb")) with 8%nat in Hall.
    rewrite !Forall_hex_app in Hhex. destruct Hhex as [_ Hword].
    unfold padStart in Hall, Hword. rewrite length_app, length_replicate in Hall.
    apply Forall_hex_app in Hword as [_ Hword].
    destruct (Z.ltb_spec amount 0) as [Hneg | Hpos].
    + exfalso. unfold toString in Hword. replace (amount <? 0) with true in Hword by lia.
      by apply Forall_cons in Hword as [? _].
    + split; [done |]. apply toString_length_uint256; [done | lia].
  - intros Hamount.
    pose proof (proj2 (toString_length_uint256 amount ltac:(lia)) ltac:(lia)) as Hhex.
    eexists. split; [reflexivity |]. split.
    + unfold padStart. rewrite !length_app, !length_replicate, Hlen.
      change (length (str "a9059cbb")) with 8%nat. lia.
    + unfold padStart. rewrite !Forall_hex_app. split_and!.
      * by apply forallb_Forall.
      * by apply Forall_replicate.
      * done.
      * by apply Forall_replicate.
      * apply toString_hex. lia.
Qed.

Lemma encodeTransfer_call_data_iff_witness :
  is_call_data (encodeTransfer (str "0x0000000000000000000000000000000000000001") 100000)
  ↔ 0 <= 100000 < 2 ^ 256.
Proof.
  apply (encodeTransfer_call_data_iff (str "0x0000000000000000000000000000000000000001")).
  reflexivity.
Defined.

End CallDataMore.

(** ** Call data of a token transfer: lib/contracts.ts and the route *)

Section TransferCallData.
Import JSNumber JSValue Validation RateLimit Chain Contracts Decimal Ethers PrepareTip.
Import JSBigInt CallData.

Implicit Types (to data : jsstring) (amount : Z).

Lemma digit_char_lower_hex d : 0 <= d < 16 → is_lower_hex (digit_char d) = true.
Proof.
  intros Hd. unfold digit_char, is_lower_hex, is_digit.
  destruct (Z.ltb_spec d 10).
  - apply orb_true_iff. left. apply andb_true_iff. split; apply N.leb_le; lia.
  - apply orb_true_iff. right. apply andb_true_iff. split; apply N.leb_le; lia.
Qed.

Lemma digits_from_lower_hex fuel : ∀ n acc,
  Forall (λ c, is_lower_hex c = true) acc →
  Forall (λ c, is_lower_hex c = true) (digits_from fuel 16 n acc).
Proof.
  induction fuel as [| fuel IH]; intros n acc Hacc; cbn [digits_from].
  - constructor; [| done]. apply digit_char_lower_hex, Z.mod_pos_bound. lia.
  - assert (Hacc' : Forall (λ c, is_lower_hex c = true) (digit_char (n mod 16) :: acc)).
    { constructor; [| done]. apply digit_char_lower_hex, Z.mod_pos_bound. lia. }
    destruct (n / 16 =? 0); [done | by apply IH].
Qed.

(** [encodeTransfer] of lib/contracts.ts lays the data out as the ABI
    does. *)
Lemma encodeTransfer_abi :
  abi_transfer_encoder (λ to amount, Some (encodeTransfer to amount)).
Proof.
  intros digits amount Hlen Hhex Hamount.
  destruct (toString_spec 16 amount) as (Hparse & _ & _); [lia | lia |].
  pose proof (proj2 (toString_length_uint256 amount ltac:(lia)) ltac:(lia)) as Hshort.
  exists (padStart 64 48 (toString 16 amount)). split_and!.
  - unfold encodeTransfer, slice_from.
    change (drop 2 (str "0x" ++ digits)) with digits.
    unfold padStart at 1. rewrite Hlen. by rewrite <- app_assoc.
  - unfold padStart. rewrite length_app, length_replicate. lia.
  - unfold padStart. apply Forall_app. split; [by apply Forall_replicate |].
    unfold toString. replace (amount <? 0) with false by lia.
    apply digits_from_lower_hex. constructor.
  - unfold padStart. by rewrite parse_leading_zeros.
Qed.

(** Reading back data of the ABI layout. *)
Lemma abi_layout_decodes (digits word : jsstring) amount :
  length digits = 40%nat → length word = 64%nat →
  parse_digits 16 word = Some amount →
  let data := str "0xa9059cbb" ++ replicate 24 48%N ++ digits ++ word in
  length data = 138%nat
  ∧ selector data = str "0xa9059cbb"
  ∧ decodeTransfer data = Some (str "0x" ++ digits, amount).
Proof.
  intros Hlen Hword Hparse. cbn zeta. split_and!.
  - rewrite !length_app, length_replicate, Hlen, Hword. reflexivity.
  - reflexivity.
  - unfold decodeTransfer, slice.
    assert (Hs1 : take (74 - 34) (drop 34 (str "0xa9059cbb" ++ replicate 24 48%N
                                            ++ digits ++ word)) = digits).
    { change (drop 34 (str "0xa9059cbb" ++ replicate 24 48%N ++ digits ++ word))
        with (digits ++ word).
      by rewrite take_app_length' by lia. }
    assert (Hs2 : take (138 - 74) (drop 74 (str "0xa9059cbb" ++ replicate 24 48%N
                                             ++ digits ++ word)) = word).
    { change (drop 74 (str "0xa9059cbb" ++ replicate 24 48%N ++ digits ++ word))
        with (drop 40 (digits ++ word)).
      rewrite drop_app_length' by lia. apply take_ge. lia. }
    rewrite Hs1, Hs2, Hparse. done.
Qed.

Lemma lower_address_digits to :
  tipSchema_recipient to = true →
  Forall (λ c, is_upper c = false) to →
  ∃ digits, to = str "0x" ++ digits ∧ length digits = 40%nat
            ∧ Forall (λ c, is_lower_hex c = true) digits.
Proof.
  intros (digits & -> & Hlen & Hhex)%tipSchema_recipient_shape Hlower.
  exists digits. split_and!; [done | done |].
  apply Forall_app in Hlower as [_ Hlower].
  rewrite Forall_forall in *. intros c Hc.
  specialize (Hhex c Hc). specialize (Hlower c Hc).
  unfold is_hex, is_lower_hex, is_upper, is_digit in *.
  destruct ((48 <=? c)%N && (c <=? 57)%N); [done |].
  destruct ((97 <=? c)%N && (c <=? 102)%N); [done |].
  cbn [orb] in Hhex. apply andb_true_iff in Hhex as [?%N.leb_le ?%N.leb_le].
  apply andb_false_iff in Hlower as [?%N.leb_gt | ?%N.leb_gt]; lia.
Qed.

(** C7 (amended).  The call data that [encodeTransfer] builds for a
    recipient address (0x and 40 hexadecimal digits) and an amount that
    fits the uint256 argument of [transfer] is the selector [0xa9059cbb]
    followed by two words of 64 hexadecimal digits: the address digits
    behind 24 zeros, and the amount in hexadecimal behind zeros.  Reading
    the recipient and the amount back out of the data gives the original
    address and the original amount.  The same holds for the data of the
    transaction frame that the prepare-tip route answers with for USDC or
    WETH, when the recipient is written without capital letters and the
    encoder of ethers follows the ABI layout: the data gives back the
    recipient and the amount scaled by the decimals of the token (6 for
    USDC, 18 for WETH). *)
Theorem encodeTransfer_roundtrip to amount :
  tipSchema_recipient to = true →
  0 <= amount < 2 ^ 256 →
  (∃ word1 word2,
     encodeTransfer to amount = str "0xa9059cbb" ++ word1 ++ word2
     ∧ word1 = replicate 24 48%N ++ slice_from 2 to
     ∧ length word1 = 64%nat
     ∧ length word2 = 64%nat
     ∧ parse_digits 16 word2 = Some amount
     ∧ length (encodeTransfer to amount) = 138%nat
     ∧ selector (encodeTransfer to amount) = str "0xa9059cbb"
     ∧ decodeTransfer (encodeTransfer to amount) = Some (to, amount))
  ∧ ∀ (isValidUrl : jsstring → bool) (parseUnits : jsstring → Z → option Z)
      (encodeTransferCall : jsstring → Z → option jsstring)
      rateLimit now rnd isProduction (req : Request) message
      (amountText token : jsstring) (wei : Z),
      abi_transfer_encoder encodeTransferCall →
      Forall (λ c, is_upper c = false) to →
      success (limit rateLimit (default (str "anonymous") (ip req)) now rnd).1 = true →
      body req = Some message →
      validateFrameMessage isValidUrl message = true →
      param_or (query_amount req) (str "0.01") = amountText →
      param_or (query_token req) (str "ETH") = token →
      param_or (query_recipient req) [] = to →
      tipSchema_amount amountText = true →
      token = str "USDC" ∨ token = str "WETH" →
      parseUnits amountText 18 = Some wei →
      parseUnits amountText (if streq token (str "USDC") then 6 else 18) = Some amount →
      ∃ data contract,
        (POST isValidUrl parseUnits encodeTransferCall rateLimit now rnd
           isProduction req).1
        = TransactionFrame 8453 (mkTx (Own contract) (str "0") data)
            amountText token to
        ∧ getTokenContract token 8453
          = Some (mkTokenContract (Own contract) 8453 token
                    (Own (if streq token (str "USDC") then 6 else 18)))
        ∧ length data = 138%nat
        ∧ selector data = str "0xa9059cbb"
        ∧ decodeTransfer data = Some (to, amount).
Proof.
  intros Hto Hamount. split; [by apply encodeTransfer_words |].
  intros isValidUrl parseUnits encodeTransferCall rateLimit now rnd isProduction req
    message amountText token wei Habi Hlower Hlimit Hbody Hvalid Hq1 Hq2 Hq3
    Hamt Htoken Hwei Hunits.
  destruct (lower_address_digits to Hto Hlower) as (digits & -> & Hlen & Hdigits).
  destruct (Habi digits amount Hlen Hdigits Hamount)
    as (word & Hdata & Hword & _ & Hparse).
  destruct (abi_layout_decodes digits word amount Hlen Hword Hparse)
    as (Hl & Hsel & Hdec).
  assert (Hparsed : tipSchema_safeParse amountText token (str "0x" ++ digits) = true).
  { unfold tipSchema_safeParse. rewrite Hamt, Hto.
    by destruct Htoken as [-> | ->]. }
  unfold PrepareTip.POST.
  destruct (limit rateLimit (default (str "anonymous") (ip req)) now rnd)
    as [result rateLimit'].
  cbn [fst] in Hlimit. rewrite Hlimit. cbn [negb fst].
  rewrite (prepare_validated isValidUrl parseUnits encodeTransferCall isProduction req
             message amountText token (str "0x" ++ digits) wei) by done.
  destruct Htoken as [-> | ->].
  - change (streq (str "USDC") (str "ETH")) with false.
    change (streq (str "USDC") (str "USDC")) with true in *.
    change (getTokenContract (str "USDC") 8453)
      with (Some (mkTokenContract
                    (Own (str "0x833589fCD6eDb6E08f4c7C32D4f71b54bdA02913"))
                    8453 (str "USDC") (Own 6))).
    change (getTokenDecimals (str "USDC")) with (@Own Z 6).
    cbn beta iota. rewrite Hunits, Hdata. cbn [address].
    by eexists _, _.
  - change (streq (str "WETH") (str "ETH")) with false.
    change (streq (str "WETH") (str "USDC")) with false in *.
    change (getTokenContract (str "WETH") 8453)
      with (Some (mkTokenContract
                    (Own (str "0x4200000000000000000000000000000000000006"))
                    8453 (str "WETH") (Own 18))).
    change (getTokenDecimals (str "WETH")) with (@Own Z 18).
    cbn beta iota. rewrite Hunits, Hdata. cbn [address].
    by eexists _, _.
Qed.

End TransferCallData.

Section TransferCallDataWitnesses.
Import JSNumber JSValue Validation RateLimit Chain Contracts Decimal Ethers PrepareTip.
Import JSBigInt CallData Fixtures.

Lemma encodeTransfer_roundtrip_witness :
  (∃ word1 word2,
     encodeTransfer (str "0x0000000000000000000000000000000000000001") 100000 = str "0xa9059cbb" ++ word1 ++ word2
     ∧ word1 = replicate 24 48%N ++ slice_from 2 (str "0x0000000000000000000000000000000000000001")
     ∧ length word1 = 64%nat
     ∧ length word2 = 64%nat
     ∧ parse_digits 16 word2 = Some 100000
     ∧ length (encodeTransfer (str "0x0000000000000000000000000000000000000001") 100000) = 138%nat
     ∧ selector (encodeTransfer (str "0x0000000000000000000000000000000000000001") 100000) = str "0xa9059cbb"
     ∧ decodeTransfer (encodeTransfer (str "0x0000000000000000000000000000000000000001") 100000) = Some ((str "0x0000000000000000000000000000000000000001"), 100000))
  ∧ ∃ data contract,
      (POST isValidUrl parseUnits encoder rateLimit 1700000000000 false true
         (request "0.1" "USDC")).1
      = TransactionFrame 8453 (mkTx (Own contract) (str "0") data)
          (str "0.1") (str "USDC") (str "0x0000000000000000000000000000000000000001")
      ∧ getTokenContract (str "USDC") 8453
        = Some (mkTokenContract (Own contract) 8453 (str "USDC")
                  (Own (if streq (str "USDC") (str "USDC") then 6 else 18)))
      ∧ length data = 138%nat
      ∧ selector data = str "0xa9059cbb"
      ∧ decodeTransfer data = Some ((str "0x0000000000000000000000000000000000000001"), 100000).
Proof.
  destruct (encodeTransfer_roundtrip (str "0x0000000000000000000000000000000000000001") 100000)
    as [Hwords Hroute]; [reflexivity | split; [lia | reflexivity] |].
  split; [exact Hwords |].
  apply (Hroute isValidUrl parseUnits encoder rateLimit 1700000000000 false true
           (request "0.1" "USDC") message (str "0.1") (str "USDC")
           100000000000000000).
  - exact encodeTransfer_abi.
  - repeat constructor.
  - reflexivity.
  - reflexivity.
  - reflexivity.
  - reflexivity.
  - reflexivity.
  - reflexivity.
  - reflexivity.
  - by left.
  - reflexivity.
  - reflexivity.
Defined.

(** C7, as stated, fails outside the range of a [uint256]: the amount
    [2^256] gives 139 characters, from which another amount is read back,
    and a negative amount puts a minus sign into the data, from which no
    amount is read back. *)
Lemma encodeTransfer_uint256_counterexample :
  tipSchema_recipient (str "0x0000000000000000000000000000000000000001") = true
  ∧ length (encodeTransfer (str "0x0000000000000000000000000000000000000001") (2 ^ 256)) = 139%nat
  ∧ decodeTransfer (encodeTransfer (str "0x0000000000000000000000000000000000000001") (2 ^ 256)) = Some ((str "0x0000000000000000000000000000000000000001"), 16 ^ 63)
  ∧ decodeTransfer (encodeTransfer (str "0x0000000000000000000000000000000000000001") (2 ^ 256)) ≠ Some ((str "0x0000000000000000000000000000000000000001"), 2 ^ 256)
  ∧ decodeTransfer (encodeTransfer (str "0x0000000000000000000000000000000000000001") (-1)) = None.
Proof.
  split_and!; [reflexivity | by vm_compute | by vm_compute | | by vm_compute].
  intros H. vm_compute in H. discriminate H.
Qed.

End TransferCallDataWitnesses.

Section EventProperties.
Import JSNumber JSValue Validation ValidationMore PrepareTip Decimal Spec SpecMore.
Import JSBigInt Contracts ContractsMore CallData PrepareTip SpecMore.

Implicit Types (s : jsstring) (v : Z).

Lemma trimEnd_fixed s c :
  is_whitespace c = false → trimEnd (s ++ [c]) = s ++ [c].
Proof.
  intros Hc. unfold trimEnd. rewrite rev_app_distr. cbn [rev app].
  cbn [trimStart]. rewrite Hc. cbn [rev]. by rewrite rev_involutive.
Qed.

Lemma is_hex_range c : is_hex c = true → (48 <= c <= 102)%N.
Proof.
  unfold is_hex, is_digit. intros H.
  repeat (apply orb_true_iff in H as [H | H]);
    apply andb_true_iff in H as [?%N.leb_le ?%N.leb_le]; lia.
Qed.

Lemma is_hex_not_whitespace c : is_hex c = true → is_whitespace c = false.
Proof.
  intros H%is_hex_range. unfold is_whitespace.
  repeat match goal with
  | |- context [(?a <=? ?b)%N] => destruct (N.leb_spec a b); try lia
  | |- context [(?a =? ?b)%N] => destruct (N.eqb_spec a b); try lia
  end; reflexivity.
Qed.

(** [BigInt] reads the data word of a [uint256]. *)
Lemma BigInt_uint256_word v : 0 <= v → BigInt (uint256_word v) = Some v.
Proof.
  intros Hv. destruct (toString_spec 16 v) as (Hparse & Hlen & _); [lia | lia |].
  pose proof (toString_hex v Hv) as Hhex.
  unfold BigInt, uint256_word, padStart.
  set (hex := toString 16 v) in *.
  destruct (exists_last (l := hex)) as (front & c & Hlast);
    [intros Hnil; rewrite Hnil in Hlen; simpl in Hlen; lia |].
  assert (Hc : is_whitespace c = false).
  { apply is_hex_not_whitespace. rewrite Hlast in Hhex.
    by apply Forall_app in Hhex as [_ [? _]%Forall_cons]. }
  assert (Htrim : trim (str "0x" ++ replicate (64 - length hex) 48%N ++ hex)
                  = str "0x" ++ replicate (64 - length hex) 48%N ++ hex).
  { unfold trim. rewrite trimStart_fixed by done.
    rewrite Hlast, !app_assoc. by apply trimEnd_fixed. }
  rewrite Htrim.
  change (str "0x" ++ replicate (64 - length hex) 48%N ++ hex)
    with (48%N :: 120%N :: (replicate (64 - length hex) 48%N ++ hex)).
  cbn beta iota. change (120 =? 120)%N with true. cbn [orb].
  destruct (replicate (64 - length hex) 48%N ++ hex) eqn:Hd.
  - apply app_eq_nil in Hd as [_ Hd]. rewrite Hd in Hlen. simpl in Hlen. lia.
  - by rewrite <- Hd, parse_leading_zeros by lia.
Qed.

(** X12.  A Transfer log (the event signature, the two indexed addresses
    as topics, the value as the data word) is decoded to the addresses and
    the value it was built from. *)
Theorem decodeTransferEvent_roundtrip (from to : jsstring) v :
  tipSchema_recipient from = true →
  tipSchema_recipient to = true →
  0 <= v →
  decodeTransferEvent
    (mkLog [EVENT_SIGNATURES_Transfer; address_topic from; address_topic to]
           (uint256_word v))
  = Some (mkTransfer from to v).
Proof.
  intros (dfrom & -> & Hfrom & _)%tipSchema_recipient_shape
         (dto & -> & Hto & _)%tipSchema_recipient_shape Hv.
  unfold decodeTransferEvent. cbn [topics ContractsMore.data lookup list_lookup].
  rewrite bool_decide_eq_true_2 by done. cbn [negb].
  rewrite BigInt_uint256_word by done.
  unfold address_topic, slice_from.
  change (drop 2 (str "0x" ++ dfrom)) with dfrom.
  change (drop 2 (str "0x" ++ dto)) with dto.
  change (drop 26 (str "0x" ++ replicate 24 48%N ++ dfrom)) with dfrom.
  change (drop 26 (str "0x" ++ replicate 24 48%N ++ dto)) with dto.
  done.
Qed.

Lemma decodeTransferEvent_roundtrip_witness :
  decodeTransferEvent
    (mkLog [EVENT_SIGNATURES_Transfer;
            address_topic (str "0x833589fCD6eDb6E08f4c7C32D4f71b54bdA02913");
            address_topic (str "0x0000000000000000000000000000000000000001")]
           (uint256_word 100000))
  = Some (mkTransfer (str "0x833589fCD6eDb6E08f4c7C32D4f71b54bdA02913")
                     (str "0x0000000000000000000000000000000000000001") 100000).
Proof.
  apply (decodeTransferEvent_roundtrip
           (str "0x833589fCD6eDb6E08f4c7C32D4f71b54bdA02913")
           (str "0x0000000000000000000000000000000000000001") 100000).
  - reflexivity.
  - reflexivity.
  - lia.
Defined.

(** X13.  [decodeTransferEvent] answers [null] for a log of another event,
    for a log with fewer than three topics and for data that [BigInt]
    refuses; otherwise it answers, and the value is what [BigInt] reads. *)
Theorem decodeTransferEvent_null (log : Log) :
  decodeTransferEvent log = None
  ↔ topics log !! 0%nat ≠ Some EVENT_SIGNATURES_Transfer
    ∨ (length (topics log) < 3)%nat
    ∨ BigInt (ContractsMore.data log) = None.
Proof.
  unfold decodeTransferEvent.
  destruct (topics log) as [| t0 [| t1 [| t2 rest]]]; cbn [lookup list_lookup length].
  - split; [intros _ | done]. right. left. lia.
  - case_bool_decide; cbn [negb]; (split; [intros _ | done]); right; left; lia.
  - case_bool_decide; cbn [negb]; (split; [intros _ | done]); right; left; lia.
  - case_bool_decide as Hsig; cbn [negb].
    + destruct (BigInt (ContractsMore.data log)) as [v |].
      * split; [done |]. intros [? | [? | ?]]; [done | lia | done].
      * split; [intros _; by right; right | done].
    + split; [intros _; by left | done].
Qed.

End EventProperties.

(** ** lib/contracts.ts, lib/currency.ts and lib/chain.ts : the registries *)

Section TokenProperties.
Import JSNumber JSValue Validation ValidationMore PrepareTip Decimal Spec SpecMore.
Import Chain ChainMore Contracts ContractsMore PrepareTip.

Implicit Types (symbol : jsstring) (chainId : Z).

Lemma chain_tokens_Some chainId tokens :
  chain_tokens chainId TOKEN_ADDRESSES = Some tokens →
  chainId = 1 ∨ chainId = 8453 ∨ chainId = 10.
Proof.
  unfold TOKEN_ADDRESSES. cbn [chain_tokens].
  destruct (Z.eqb_spec 1 chainId); [auto |].
  destruct (Z.eqb_spec 8453 chainId); [auto |].
  destruct (Z.eqb_spec 10 chainId); [auto | done].
Qed.

Lemma assoc_Some {A} symbol (record : list (jsstring * A)) a :
  assoc symbol record = Some a → (symbol, a) ∈ record.
Proof.
  induction record as [| [k v] record IH]; cbn [assoc]; [done |].
  destruct (streq k symbol) eqn:Hk.
  - apply streq_true in Hk as ->. intros [= ->]. apply list_elem_of_here.
  - intros H. apply list_elem_of_further. by apply IH.
Qed.

(** X14.  A token contract that [getTokenContract] returns for a symbol
    that is not the name of a member of [Object.prototype] is one of
    USDC, USDT and WETH on one of the chains 1, 8453 and 10; its address is
    an address in the sense of the prepare-tip route and of [isContract],
    and its decimals are those of [getTokenDecimals] and, for a token of
    [TOKEN_LIST], of the list. *)
Theorem getTokenContract_sound symbol chainId (contract : TokenContract) :
  symbol ∉ Object_prototype_keys →
  getTokenContract symbol chainId = Some contract →
  symbol ∈ [str "USDC"; str "USDT"; str "WETH"]
  ∧ isValid (validateChainId chainId) = true
  ∧ Contracts.chainId contract = chainId
  ∧ Contracts.symbol contract = symbol
  ∧ (∃ a, address contract = Own a
          ∧ tipSchema_recipient a = true ∧ isContract a = true)
  ∧ (∃ d, decimals contract = Own d ∧ getTokenDecimals symbol = Own d
          ∧ ∀ token, token ∈ TOKEN_LIST → listed_symbol token = symbol →
              listed_decimals token = d).
Proof.
  intros Hproto. unfold getTokenContract.
  destruct (streq symbol (str "ETH")); [done |].
  destruct (chain_tokens chainId TOKEN_ADDRESSES) as [tokens |] eqn:Htokens; [| done].
  destruct (assoc symbol tokens) as [a |] eqn:Ha;
    [| unfold lookup_property; by rewrite Ha, (bool_decide_eq_false_2 _ Hproto)].
  assert (Hlook : lookup_property tokens symbol = Own a)
    by (unfold lookup_property; by rewrite Ha).
  cbn zeta. rewrite Hlook.
  assert (Hcases :
    (symbol = str "USDC" ∨ symbol = str "USDT" ∨ symbol = str "WETH")
    ∧ tipSchema_recipient a = true ∧ isContract a = true).
  { unfold TOKEN_ADDRESSES in Htokens. cbn [chain_tokens] in Htokens.
    destruct (1 =? chainId); [| destruct (8453 =? chainId); [| destruct (10 =? chainId)]];
      try discriminate; injection Htokens as <-;
      apply assoc_Some in Ha;
      repeat (apply elem_of_cons in Ha as [Heq | Ha];
              [injection Heq as ? ?; subst symbol a;
               split; [auto | split; reflexivity] |]);
      by apply elem_of_nil in Ha. }
  destruct Hcases as (Hsym & Haddr & Hcontract).
  assert (streq a [] = false) as ->.
  { apply not_true_is_false. intros ->%streq_true. discriminate. }
  intros Hc.
  assert (isValid (validateChainId chainId) = true) as Hchain.
  { apply chain_tokens_Some in Htokens. unfold validateChainId.
    rewrite bool_decide_eq_true_2; [done |].
    rewrite !elem_of_cons. tauto. }
  destruct Hsym as [Hs | [Hs | Hs]]; subst symbol;
    [change (lookup_property TOKEN_DECIMALS (str "USDC")) with (@Own Z 6) in Hc
    |change (lookup_property TOKEN_DECIMALS (str "USDT")) with (@Own Z 6) in Hc
    |change (lookup_property TOKEN_DECIMALS (str "WETH")) with (@Own Z 18) in Hc];
    injection Hc as <-; cbn [Contracts.chainId Contracts.symbol address decimals];
    (split_and!;
       [rewrite !elem_of_cons; tauto | done | done | done
       | exists a; by split_and! |]);
    eexists; (split_and!; [reflexivity | reflexivity |]);
    intros token Htoken Hs;
    repeat (apply elem_of_cons in Htoken as [-> | Htoken]);
    try (by apply elem_of_nil in Htoken); try discriminate Hs; reflexivity.
Qed.

Lemma getTokenContract_sound_witness :
  str "USDC" ∈ [str "USDC"; str "USDT"; str "WETH"]
  ∧ isValid (validateChainId 8453) = true
  ∧ Contracts.chainId
      (mkTokenContract (Own (str "0x833589fCD6eDb6E08f4c7C32D4f71b54bdA02913"))
                       8453 (str "USDC") (Own 6)) = 8453
  ∧ Contracts.symbol
      (mkTokenContract (Own (str "0x833589fCD6eDb6E08f4c7C32D4f71b54bdA02913"))
                       8453 (str "USDC") (Own 6)) = str "USDC"
  ∧ (∃ a, address
            (mkTokenContract (Own (str "0x833589fCD6eDb6E08f4c7C32D4f71b54bdA02913"))
                             8453 (str "USDC") (Own 6)) = Own a
          ∧ tipSchema_recipient a = true ∧ isContract a = true)
  ∧ (∃ d, decimals
            (mkTokenContract (Own (str "0x833589fCD6eDb6E08f4c7C32D4f71b54bdA02913"))
                             8453 (str "USDC") (Own 6)) = Own d
          ∧ getTokenDecimals (str "USDC") = Own d
          ∧ ∀ token, token ∈ TOKEN_LIST → listed_symbol token = str "USDC" →
              listed_decimals token = d).
Proof.
  apply (getTokenContract_sound (str "USDC") 8453).
  - apply (bool_decide_eq_false_1 (str "USDC" ∈ Object_prototype_keys)). reflexivity.
  - reflexivity.
Defined.

Lemma lookup_property_Own {A} (record : list (jsstring * A)) symbol a :
  lookup_property record symbol = Own a ↔ assoc symbol record = Some a.
Proof.
  unfold lookup_property. destruct (assoc symbol record) as [a' |].
  - split; congruence.
  - case_bool_decide; split; discriminate.
Qed.

Lemma lookup_property_Inherited {A} (record : list (jsstring * A)) symbol :
  lookup_property record symbol = Inherited
  ↔ assoc symbol record = None ∧ symbol ∈ Object_prototype_keys.
Proof.
  unfold lookup_property. destruct (assoc symbol record) as [a' |].
  - split; [discriminate | by intros []].
  - case_bool_decide; split; try done. by intros [].
Qed.

(** Every token that has an address on some chain has decimals. *)
Lemma lookup_decimals_listed symbol a tokens chainId :
  chain_tokens chainId TOKEN_ADDRESSES = Some tokens →
  assoc symbol tokens = Some a →
  ∃ d, lookup_property TOKEN_DECIMALS symbol = Own d.
Proof.
  intros Htokens Ha.
  unfold TOKEN_ADDRESSES in Htokens. cbn [chain_tokens] in Htokens.
  destruct (1 =? chainId); [| destruct (8453 =? chainId); [| destruct (10 =? chainId)]];
    try discriminate; injection Htokens as <-;
    apply assoc_Some in Ha;
    repeat (apply elem_of_cons in Ha as [Heq | Ha];
            [injection Heq as ? ?; subst symbol a; by eexists |]);
    by apply elem_of_nil in Ha.
Qed.

Lemma lookup_decimals_inherited symbol :
  symbol ∈ Object_prototype_keys →
  lookup_property TOKEN_DECIMALS symbol = Inherited.
Proof.
  intros Hproto.
  repeat (apply elem_of_cons in Hproto as [Heq | Hproto]; [by subst symbol |]).
  by apply elem_of_nil in Hproto.
Qed.

Lemma getTokenContract_is_Some symbol chainId :
  symbol ≠ str "ETH" →
  is_Some (getTokenContract symbol chainId)
  ↔ Boolean (token_address symbol chainId) = true.
Proof.
  intros Hne. unfold getTokenContract, token_address.
  assert (streq symbol (str "ETH") = false) as ->.
  { apply not_true_is_false. by intros Heq%streq_true. }
  cbn zeta.
  destruct (chain_tokens chainId TOKEN_ADDRESSES) as [tokens |] eqn:Htokens;
    [| split; [by intros [] | done]].
  destruct (lookup_property tokens symbol) as [a | |] eqn:Hlook; cbn [Boolean].
  - apply lookup_property_Own in Hlook.
    destruct (lookup_decimals_listed _ _ _ _ Htokens Hlook) as [d ->].
    destruct (streq a []); cbn [negb]; split; try done; by intros [].
  - apply lookup_property_Inherited in Hlook as [_ Hproto].
    rewrite (lookup_decimals_inherited _ Hproto). by split.
  - split; [by intros [] | done].
Qed.

(** X15.  [isTokenSupportedOnChain] and [getTokenContract] agree: a token
    is supported on a chain exactly when it is ETH or has a contract
    there.  [getTokenListForChain] lists supported tokens only, ETH among
    them on every chain. *)
Theorem isTokenSupportedOnChain_iff_contract symbol chainId :
  (isTokenSupportedOnChain symbol chainId = true
   ↔ symbol = str "ETH" ∨ is_Some (getTokenContract symbol chainId))
  ∧ (∀ token, token ∈ getTokenListForChain chainId →
       isTokenSupportedOnChain (listed_symbol token) chainId = true)
  ∧ (∃ native, native ∈ getTokenListForChain chainId
               ∧ listed_symbol native = str "ETH").
Proof.
  split_and!.
  - unfold isTokenSupportedOnChain.
    destruct (streq symbol (str "ETH")) eqn:Heth.
    { apply streq_true in Heth. split; [by left | done]. }
    assert (symbol ≠ str "ETH") as Hne.
    { intros Heq%streq_true. congruence. }
    rewrite <- (getTokenContract_is_Some _ _ Hne). split; [by right |].
    by intros [? | ?].
  - intros token Htoken. unfold getTokenListForChain in Htoken.
    apply list_elem_of_In, filter_In in Htoken as [Hin Hkeep].
    apply list_elem_of_In in Hin.
    repeat (apply elem_of_cons in Hin as [Heq | Hin];
            [subst token; first [reflexivity | exact Hkeep] |]).
    by apply elem_of_nil in Hin.
  - exists (mkListed (str "ETH") 18 true). split; [| done].
    unfold getTokenListForChain, TOKEN_LIST. cbn [List.filter isNative].
    apply list_elem_of_here.
Qed.

(** X16.  The chain ids that [validateChainId] accepts are the chains of
    the production registry and the chains that have token addresses;
    outside production the registry also holds the test networks, which
    [validateChainId] refuses. *)
Theorem chain_registries_agree chainId :
  (isValid (validateChainId chainId) = true ↔ isChainSupported true chainId = true)
  ∧ (isValid (validateChainId chainId) = true
     ↔ is_Some (chain_tokens chainId TOKEN_ADDRESSES))
  ∧ (isChainSupported false chainId = true
     ↔ isValid (validateChainId chainId) = true
       ∨ getChainCategory chainId = testnet)
  ∧ (isValid (validateChainId chainId) = true → getChainCategory chainId ≠ testnet).
Proof.
  assert (Hvalid : isValid (validateChainId chainId) = true
                   ↔ chainId = 1 ∨ chainId = 8453 ∨ chainId = 10).
  { unfold validateChainId.
    case_bool_decide as H; cbn [negb isValid valid];
      rewrite !elem_of_cons, elem_of_nil in H; (split; [| tauto]);
      [intros _; tauto | discriminate]. }
  assert (Htest : getChainCategory chainId = testnet
                  ↔ chainId = 11155111 ∨ chainId = 84532 ∨ chainId = 11155420).
  { unfold getChainCategory, TESTNET_CHAINS. cbn [existsb id].
    destruct (Z.eqb_spec 11155111 chainId); [cbn; split; auto |].
    destruct (Z.eqb_spec 84532 chainId); [cbn; split; auto |].
    destruct (Z.eqb_spec 11155420 chainId); [cbn; split; auto |].
    cbn [orb]. split; [by destruct (isL2Chain chainId) | lia]. }
  assert (Hprod : isChainSupported true chainId = true
                  ↔ chainId = 1 ∨ chainId = 8453 ∨ chainId = 10).
  { unfold isChainSupported, getChainById, getSupportedChains, SUPPORTED_CHAINS.
    cbn [List.find id]. rewrite bool_decide_eq_true.
    destruct (Z.eqb_spec 1 chainId); [split; [intros _; lia | intros _; by eauto] |].
    destruct (Z.eqb_spec 8453 chainId); [split; [intros _; lia | intros _; by eauto] |].
    destruct (Z.eqb_spec 10 chainId); [split; [intros _; lia | intros _; by eauto] |].
    split; [by intros [] | lia]. }
  assert (Hdev : isChainSupported false chainId = true
                 ↔ (chainId = 1 ∨ chainId = 8453 ∨ chainId = 10)
                   ∨ (chainId = 11155111 ∨ chainId = 84532 ∨ chainId = 11155420)).
  { unfold isChainSupported, getChainById, getSupportedChains, SUPPORTED_CHAINS,
      TESTNET_CHAINS.
    cbn [app List.find id]. rewrite bool_decide_eq_true.
    destruct (Z.eqb_spec 1 chainId); [split; [intros _; lia | intros _; by eauto] |].
    destruct (Z.eqb_spec 8453 chainId); [split; [intros _; lia | intros _; by eauto] |].
    destruct (Z.eqb_spec 10 chainId); [split; [intros _; lia | intros _; by eauto] |].
    destruct (Z.eqb_spec 11155111 chainId);
      [split; [intros _; lia | intros _; by eauto] |].
    destruct (Z.eqb_spec 84532 chainId);
      [split; [intros _; lia | intros _; by eauto] |].
    destruct (Z.eqb_spec 11155420 chainId);
      [split; [intros _; lia | intros _; by eauto] |].
    split; [by intros [] | lia]. }
  assert (Htokens : is_Some (chain_tokens chainId TOKEN_ADDRESSES)
                    ↔ chainId = 1 ∨ chainId = 8453 ∨ chainId = 10).
  { unfold TOKEN_ADDRESSES. cbn [chain_tokens].
    destruct (Z.eqb_spec 1 chainId); [split; [intros _; lia | intros _; by eauto] |].
    destruct (Z.eqb_spec 8453 chainId); [split; [intros _; lia | intros _; by eauto] |].
    destruct (Z.eqb_spec 10 chainId); [split; [intros _; lia | intros _; by eauto] |].
    split; [by intros [] | lia]. }
  rewrite Hvalid, Htest, Hprod, Hdev, Htokens.
  split_and!; [done | done | done | lia].
Qed.

(** X17.  [getBridgeUrl] does not depend on the direction; it knows a
    bridge exactly between Ethereum and one of Base and Optimism. *)
Theorem getBridgeUrl_symmetric (fromChainId toChainId : Z) :
  getBridgeUrl fromChainId toChainId = getBridgeUrl toChainId fromChainId
  ∧ (is_Some (getBridgeUrl fromChainId toChainId)
     ↔ (fromChainId = 1 ∧ (toChainId = 8453 ∨ toChainId = 10))
       ∨ (toChainId = 1 ∧ (fromChainId = 8453 ∨ fromChainId = 10))).
Proof.
  unfold getBridgeUrl, bridges. cbn [List.find fst snd].
  destruct (Z.eqb_spec 1 fromChainId), (Z.eqb_spec 8453 fromChainId),
    (Z.eqb_spec 10 fromChainId), (Z.eqb_spec 1 toChainId),
    (Z.eqb_spec 8453 toChainId), (Z.eqb_spec 10 toChainId);
    try lia; cbn; (split; [reflexivity |]);
    (split; [try (by intros []); intros _; lia | try lia; by eauto]).
Qed.

End TokenProperties.

(** ** app/api/frame/prepare-tip/route.ts and app/api/frame/route.ts *)

Section RouteProperties.
Import JSNumber JSValue Validation RateLimit Chain Contracts ContractsMore Decimal
  Ethers PrepareTip SpecMore.

Variable isValidUrl : jsstring → bool.
Variable parseUnits : jsstring → Z → option Z.
Variable encodeTransferCall : jsstring → Z → option jsstring.

Implicit Types (amount token recipient : jsstring) (now : Z) (rnd : bool).

(** The tokens for which the handler finds both a contract on Base and
    a number of decimals. *)
Lemma getTokenContract_on_base token contract d :
  getTokenContract token 8453 = Some contract →
  getTokenDecimals token = Own d →
  (token = str "USDC"
   ∧ address contract = Own (str "0x833589fCD6eDb6E08f4c7C32D4f71b54bdA02913")
   ∧ d = 6)
  ∨ (token = str "WETH"
     ∧ address contract = Own (str "0x4200000000000000000000000000000000000006")
     ∧ d = 18).
Proof.
  unfold getTokenContract, getTokenDecimals.
  destruct (streq token (str "ETH")); [done |].
  change (chain_tokens 8453 TOKEN_ADDRESSES)
    with (Some [(str "USDC", str "0x833589fCD6eDb6E08f4c7C32D4f71b54bdA02913");
                (str "WETH", str "0x4200000000000000000000000000000000000006")]).
  cbn zeta. unfold lookup_property at 1 3. cbn [assoc].
  destruct (streq (str "USDC") token) eqn:Husdc.
  { apply streq_true in Husdc as <-. intros [= <-] [= <-]. by left. }
  destruct (streq (str "WETH") token) eqn:Hweth.
  { apply streq_true in Hweth as <-. intros [= <-] [= <-]. by right. }
  case_bool_decide as Hproto; [| done].
  rewrite (lookup_decimals_inherited _ Hproto). done.
Qed.

(** X18.  Whenever the prepare-tip handler answers with a transaction
    frame, the transaction is on Base (8453), the recipient is 0x and 40
    hexadecimal digits and the amount parses to a positive number.  For
    ETH the transaction goes to the recipient with empty data, and its
    value is the decimal numeral (behind a minus sign if negative) of the
    integer that [parseUnits] gives for the amount at 18 decimals;
    otherwise the token is USDC or WETH, the
    transaction goes to the token's contract on Base with value 0, and its
    data is the encoded transfer of the amount, scaled by the token's
    decimals, to the recipient. *)
Theorem POST_transaction_frame_sound rateLimit now rnd isProduction req
    chain tx amount token recipient :
  (POST isValidUrl parseUnits encodeTransferCall rateLimit now rnd isProduction req).1
  = TransactionFrame chain tx amount token recipient →
  chain = 8453
  ∧ success (limit rateLimit (default (str "anonymous") (ip req)) now rnd).1 = true
  ∧ tipSchema_amount amount = true
  ∧ tipSchema_recipient recipient = true
  ∧ ((token = str "ETH"
      ∧ to tx = Own recipient
      ∧ PrepareTip.data tx = str "0x"
      ∧ ∃ wei, parseUnits amount 18 = Some wei
               ∧ Spec.integer_numeral (PrepareTip.value tx) wei)
     ∨ (∃ a decimals units,
          (token = str "USDC"
           ∧ a = str "0x833589fCD6eDb6E08f4c7C32D4f71b54bdA02913" ∧ decimals = 6
           ∨ token = str "WETH"
             ∧ a = str "0x4200000000000000000000000000000000000006"
             ∧ decimals = 18)
          ∧ to tx = Own a
          ∧ PrepareTip.value tx = str "0"
          ∧ parseUnits amount decimals = Some units
          ∧ encodeTransferCall recipient units = Some (PrepareTip.data tx))).
Proof.
  unfold POST.
  destruct (limit rateLimit (default (str "anonymous") (ip req)) now rnd)
    as [result rateLimit'] eqn:Hlimit.
  cbn [fst].
  destruct (success result) eqn:Hsuccess; cbn [negb fst]; [| done].
  unfold prepare.
  destruct (body req) as [message |]; [| done].
  destruct (validateFrameMessage isValidUrl message); cbn [negb]; [| done].
  cbn zeta.
  set (amount0 := param_or (query_amount req) (str "0.01")).
  set (token0 := param_or (query_token req) (str "ETH")).
  set (recipient0 := param_or (query_recipient req) []).
  destruct (tipSchema_safeParse amount0 token0 recipient0) eqn:Hparse;
    cbn [negb]; [| done].
  apply andb_true_iff in Hparse as [[Hamount _]%andb_true_iff Hrecipient].
  rewrite preferredChain_is_base. cbn [id name].
  unfold parseEther.
  destruct (parseUnits amount0 18) as [wei |] eqn:Hwei; [| done].
  destruct (streq token0 (str "ETH")) eqn:Heth.
  - apply streq_true in Heth. intros [= <- <- <- <- <-].
    split_and!; try done. left. split_and!; try done.
    exists wei. split; [done |]. cbn [PrepareTip.value].
    apply toString_integer_numeral.
  - destruct (getTokenContract token0 8453) as [contract |] eqn:Hcontract; [| done].
    destruct (getTokenDecimals token0) as [d | |] eqn:Hdecimals; try done.
    destruct (parseUnits amount0 d) as [units |] eqn:Hunits; [| done].
    destruct (encodeTransferCall recipient0 units) as [transferData |] eqn:Hdata;
      [| done].
    intros [= <- <- <- <- <-].
    split_and!; try done. right.
    destruct (getTokenContract_on_base _ _ _ Hcontract Hdecimals)
      as [(Ht & Ha & Hd) | (Ht & Ha & Hd)].
    + exists (str "0x833589fCD6eDb6E08f4c7C32D4f71b54bdA02913"), d, units.
      cbn [to PrepareTip.value PrepareTip.data]. split_and!; try done. by left.
    + exists (str "0x4200000000000000000000000000000000000006"), d, units.
      cbn [to PrepareTip.value PrepareTip.data]. split_and!; try done. by right.
Qed.

End RouteProperties.

Section FrameRouteProperties.
Import JSNumber JSValue Validation RateLimit PrepareTip FrameRoute SpecMore.

Variable isValidUrl : jsstring → bool.

Implicit Types (amount token recipient : jsstring) (now : Z) (rnd : bool).

Lemma selected_amount_cases (buttonIndex : JSValue.value) :
  selected_amount buttonIndex = str "0.01"
  ∨ selected_amount buttonIndex = str "0.05"
  ∨ selected_amount buttonIndex = str "0.1".
Proof.
  unfold selected_amount. destruct buttonIndex as [| | | [| | q] | | |]; auto.
  destruct (Qeq_bool q 1); [auto |].
  destruct (Qeq_bool q 2); [auto |].
  destruct (Qeq_bool q 3); auto.
Qed.

Lemma selected_amount_switch (message : JSValue.value) :
  (buttonIndex_is message 2 →
   selected_amount (prop (str "buttonIndex") message) = str "0.05")
  ∧ (buttonIndex_is message 3 →
     selected_amount (prop (str "buttonIndex") message) = str "0.1")
  ∧ (¬ buttonIndex_is message 2 → ¬ buttonIndex_is message 3 →
     selected_amount (prop (str "buttonIndex") message) = str "0.01").
Proof.
  unfold buttonIndex_is, selected_amount.
  destruct (prop (str "buttonIndex") message) as [| | | [| | q] | | |];
    try (split_and!; [by intros (? & ? & _) | by intros (? & ? & _) | done]).
  destruct (Qeq_bool q 1) eqn:H1.
  { apply Qeq_bool_iff in H1. split_and!; [| | done].
    - intros (q' & [= <-] & H2). rewrite H1 in H2. discriminate H2.
    - intros (q' & [= <-] & H3). rewrite H1 in H3. discriminate H3. }
  destruct (Qeq_bool q 2) eqn:H2.
  { apply Qeq_bool_iff in H2. split_and!; [done | |].
    - intros (q' & [= <-] & H3). rewrite H2 in H3. discriminate H3.
    - intros Hnot. exfalso. apply Hnot. by exists q. }
  destruct (Qeq_bool q 3) eqn:H3.
  { apply Qeq_bool_iff in H3. split_and!; [| done |].
    - intros (q' & [= <-] & H2'). rewrite H3 in H2'. discriminate H2'.
    - intros _ Hnot. exfalso. apply Hnot. by exists q. }
  apply Qeq_bool_neq in H2, H3. split_and!; [| | done].
  - by intros (q' & [= <-] & ?).
  - by intros (q' & [= <-] & ?).
Qed.

(** X19.  Whenever the frame handler answers with the Tip Selected frame,
    the limiter has let the request through and the body is a valid frame
    message; the token is ETH and the amount is 0.05 when the button index
    of the message is 2, 0.1 when it is 3 and 0.01 in every other case,
    amounts that every amount check of the application accepts.  The
    recipient is the
    query parameter or else the input text of the message, with properly
    paired surrogates; it is not checked to be an address, and the link of
    the Confirm button passes the schema of the prepare-tip route exactly
    when it is one. *)
Theorem POST_selected_frame rateLimit now rnd (req : FrameRoute.Request)
    amount token recipient :
  (FrameRoute.POST isValidUrl rateLimit now rnd req).1
  = SelectedFrame amount token recipient →
  success (limit rateLimit (default (str "anonymous") (FrameRoute.ip req)) now rnd).1
  = true
  ∧ (∃ message, FrameRoute.body req = Some message
                ∧ validateFrameMessage isValidUrl message = true
                ∧ (buttonIndex_is message 2 → amount = str "0.05")
                ∧ (buttonIndex_is message 3 → amount = str "0.1")
                ∧ (¬ buttonIndex_is message 2 → ¬ buttonIndex_is message 3 →
                   amount = str "0.01")
                ∧ (recipient = param_or (FrameRoute.query_recipient req)
                                 match prop (str "inputText") message with
                                 | VString t => t
                                 | _ => []
                                 end))
  ∧ token = str "ETH"
  ∧ amount ∈ [str "0.01"; str "0.05"; str "0.1"]
  ∧ validateAmount amount = valid
  ∧ isWellFormed recipient = true
  ∧ (tipSchema_safeParse amount token recipient = tipSchema_recipient recipient).
Proof.
  unfold FrameRoute.POST.
  destruct (limit rateLimit (default (str "anonymous") (FrameRoute.ip req)) now rnd)
    as [result rateLimit'] eqn:Hlimit.
  cbn [fst].
  destruct (success result) eqn:Hsuccess; cbn [negb fst]; [| done].
  unfold select.
  destruct (FrameRoute.body req) as [message |]; [| done].
  destruct (validateFrameMessage isValidUrl message) eqn:Hvalid; cbn [negb]; [| done].
  cbn zeta.
  set (recipient0 :=
         match FrameRoute.query_recipient req with
         | Some (c :: r) => c :: r
         | _ => match prop (str "inputText") message with
                | VString (c :: t) => c :: t
                | _ => []
                end
         end).
  destruct (isWellFormed recipient0) eqn:Hwell; cbn [negb]; [| done].
  intros [= <- <- <-].
  assert (Hamount : ∀ a, a ∈ [str "0.01"; str "0.05"; str "0.1"] →
            validateAmount a = valid
            ∧ tipSchema_safeParse a (str "ETH") recipient0
              = tipSchema_recipient recipient0).
  { intros a Ha.
    repeat (apply elem_of_cons in Ha as [Heq | Ha];
            [subst a; split; [vm_compute; reflexivity |];
             unfold tipSchema_safeParse;
             match goal with
             | |- ?x && ?y && _ = _ =>
                 replace x with true by (vm_compute; reflexivity);
                 replace y with true by (vm_compute; reflexivity)
             end; reflexivity |]).
    by apply elem_of_nil in Ha. }
  assert (Hin : selected_amount (prop (str "buttonIndex") message)
                ∈ [str "0.01"; str "0.05"; str "0.1"]).
  { rewrite !elem_of_cons.
    destruct (selected_amount_cases (prop (str "buttonIndex") message))
      as [-> | [-> | ->]]; auto. }
  destruct (Hamount _ Hin) as [Hok Hparse].
  destruct (selected_amount_switch message) as (Hb2 & Hb3 & Hb1).
  split_and!; try done.
  exists message. split_and!; try done.
  subst recipient0. unfold param_or.
  destruct (FrameRoute.query_recipient req) as [[| c r] |];
    try done; by destruct (prop (str "inputText") message) as [| | | | [| c t] | |].
Qed.

End FrameRouteProperties.

Section RouteWitnesses.
Import JSNumber JSValue Validation RateLimit Chain Contracts ContractsMore Decimal
  Ethers PrepareTip SpecMore.
Import Fixtures.

Lemma POST_transaction_frame_sound_witness :
  8453 = 8453
  ∧ success (limit rateLimit
               (default (str "anonymous") (ip (request "0.25" "ETH")))
               1700000000000 false).1 = true
  ∧ tipSchema_amount (str "0.25") = true
  ∧ tipSchema_recipient (str "0x0000000000000000000000000000000000000001") = true
  ∧ ((str "ETH" = str "ETH"
      ∧ to (mkTx (Own (str "0x0000000000000000000000000000000000000001"))
          (str "250000000000000000") (str "0x"))
        = Own (str "0x0000000000000000000000000000000000000001")
      ∧ PrepareTip.data (mkTx (Own (str "0x0000000000000000000000000000000000000001"))
          (str "250000000000000000") (str "0x"))
        = str "0x"
      ∧ ∃ wei, parseUnits (str "0.25") 18 = Some wei
               ∧ Spec.integer_numeral
                   (PrepareTip.value (mkTx (Own (str "0x0000000000000000000000000000000000000001"))
          (str "250000000000000000") (str "0x")))
                   wei)
     ∨ (∃ a decimals units,
          (str "ETH" = str "USDC"
           ∧ a = str "0x833589fCD6eDb6E08f4c7C32D4f71b54bdA02913" ∧ decimals = 6
           ∨ str "ETH" = str "WETH"
             ∧ a = str "0x4200000000000000000000000000000000000006"
             ∧ decimals = 18)
          ∧ to (mkTx (Own (str "0x0000000000000000000000000000000000000001"))
          (str "250000000000000000") (str "0x"))
            = Own a
          ∧ PrepareTip.value (mkTx (Own (str "0x0000000000000000000000000000000000000001"))
          (str "250000000000000000") (str "0x"))
            = str "0"
          ∧ parseUnits (str "0.25") decimals = Some units
          ∧ encoder (str "0x0000000000000000000000000000000000000001") units
            = Some (PrepareTip.data (mkTx (Own (str "0x0000000000000000000000000000000000000001"))
          (str "250000000000000000") (str "0x"))))).
Proof.
  apply (POST_transaction_frame_sound isValidUrl parseUnits encoder rateLimit
           1700000000000 false true (request "0.25" "ETH") 8453
           (mkTx (Own (str "0x0000000000000000000000000000000000000001"))
          (str "250000000000000000") (str "0x"))
           (str "0.25") (str "ETH") (str "0x0000000000000000000000000000000000000001")).
  reflexivity.
Defined.

Lemma POST_selected_frame_witness :
  success (limit rateLimit
             (default (str "anonymous") (FrameRoute.ip (FrameRoute.mkRequest (Some (str "203.0.113.7"))
                (Some (message_with_button (of_Z 2)))
                (Some (str "0x0000000000000000000000000000000000000001")))))
             1700000000000 false).1 = true
  ∧ (∃ message', FrameRoute.body (FrameRoute.mkRequest (Some (str "203.0.113.7"))
                (Some (message_with_button (of_Z 2)))
                (Some (str "0x0000000000000000000000000000000000000001"))) = Some message'
                ∧ validateFrameMessage isValidUrl message' = true
                ∧ (buttonIndex_is message' 2 → str "0.05" = str "0.05")
                ∧ (buttonIndex_is message' 3 → str "0.05" = str "0.1")
                ∧ (¬ buttonIndex_is message' 2 → ¬ buttonIndex_is message' 3 →
                   str "0.05" = str "0.01")
                ∧ ((str "0x0000000000000000000000000000000000000001")
                   = param_or (FrameRoute.query_recipient (FrameRoute.mkRequest (Some (str "203.0.113.7"))
                (Some (message_with_button (of_Z 2)))
                (Some (str "0x0000000000000000000000000000000000000001"))))
                       match prop (str "inputText") message' with
                       | VString t => t
                       | _ => []
                       end))
  ∧ str "ETH" = str "ETH"
  ∧ str "0.05" ∈ [str "0.01"; str "0.05"; str "0.1"]
  ∧ validateAmount (str "0.05") = valid
  ∧ FrameRoute.isWellFormed (str "0x0000000000000000000000000000000000000001") = true
  ∧ (tipSchema_safeParse (str "0.05") (str "ETH") (str "0x0000000000000000000000000000000000000001")
     = tipSchema_recipient (str "0x0000000000000000000000000000000000000001")).
Proof.
  apply (POST_selected_frame isValidUrl rateLimit 1700000000000 false
           (FrameRoute.mkRequest (Some (str "203.0.113.7"))
                (Some (message_with_button (of_Z 2)))
                (Some (str "0x0000000000000000000000000000000000000001")))
           (str "0.05") (str "ETH") (str "0x0000000000000000000000000000000000000001")).
  reflexivity.
Defined.

End RouteWitnesses.

(** ** Token symbols, token lists and lib/frames.ts *)

Section TokenSymbolProperties.
Import JSNumber JSValue Validation ValidationMore Contracts ContractsMore Tokens SpecMore.

Variable toUpperCase : jsstring → jsstring.

Implicit Types (symbol token amount : jsstring) (chainId : Z).

Lemma token_address_Own symbol chainId a :
  ContractsMore.token_address symbol chainId = Own a →
  symbol ∈ [str "USDC"; str "USDT"; str "WETH"].
Proof.
  unfold ContractsMore.token_address.
  destruct (chain_tokens chainId TOKEN_ADDRESSES) as [tokens |] eqn:Htokens; [| done].
  intros Ha%lookup_property_Own.
  unfold TOKEN_ADDRESSES in Htokens. cbn [chain_tokens] in Htokens.
  destruct (1 =? chainId); [| destruct (8453 =? chainId); [| destruct (10 =? chainId)]];
    try discriminate; injection Htokens as <-;
    apply assoc_Some in Ha;
    repeat (apply elem_of_cons in Ha as [Heq | Ha];
            [injection Heq as ? ?; subst symbol a; rewrite !elem_of_cons; tauto |]);
    by apply elem_of_nil in Ha.
Qed.

Lemma token_address_Inherited symbol chainId :
  ContractsMore.token_address symbol chainId = Inherited →
  symbol ∈ Object_prototype_keys.
Proof.
  unfold ContractsMore.token_address.
  destruct (chain_tokens chainId TOKEN_ADDRESSES) as [tokens |]; [| done].
  by intros [_ ?]%lookup_property_Inherited.
Qed.

Lemma prototype_key_upper_not_allowed symbol :
  symbol ∈ Object_prototype_keys → List.map ascii_upper symbol ∉ allowedTokens.
Proof.
  intros Hproto.
  repeat (apply elem_of_cons in Hproto as [Heq | Hproto];
          [subst symbol;
           apply (bool_decide_eq_false_1 (List.map ascii_upper _ ∈ allowedTokens));
           reflexivity |]).
  by apply elem_of_nil in Hproto.
Qed.

(** X20.  On ASCII symbols [validateToken] accepts exactly the spellings,
    in either case, of ETH, USDC, USDT, WETH and DAI.  An accepted symbol
    is supported on some chain ([isTokenSupportedOnChain]) exactly when it
    is ETH, USDC, USDT or WETH in upper case: DAI and every lower-case
    spelling pass the validation and are supported on no chain.  The
    [token] field of [tipRequestSchema] accepts the same symbols. *)
Theorem validateToken_supported token :
  upper_on_ascii toUpperCase →
  is_ascii token = true →
  (isValid (validateToken toUpperCase token) = true
   ↔ List.map ascii_upper token ∈ allowedTokens)
  ∧ tipRequestSchema_token toUpperCase token
    = isValid (validateToken toUpperCase token)
  ∧ (isValid (validateToken toUpperCase token) = true →
     (∃ chainId, isTokenSupportedOnChain token chainId = true)
     ↔ token ∈ [str "ETH"; str "USDC"; str "USDT"; str "WETH"]).
Proof.
  intros Hupper Hascii.
  assert (Hvalid : isValid (validateToken toUpperCase token) = true
                   ↔ List.map ascii_upper token ∈ allowedTokens).
  { unfold validateToken. rewrite (Hupper _ Hascii).
    case_bool_decide; cbn [negb isValid valid]; split; done. }
  split; [exact Hvalid |]. split.
  { unfold tipRequestSchema_token, validateToken. rewrite (Hupper _ Hascii).
    destruct token as [| c token]; [reflexivity |].
    cbn [length Nat.leb andb]. by case_bool_decide. }
  intros Hok%Hvalid. split.
  - intros [chainId Hsupported]. unfold isTokenSupportedOnChain in Hsupported.
    destruct (streq token (str "ETH")) eqn:Heth.
    { apply streq_true in Heth as ->. apply list_elem_of_here. }
    destruct (ContractsMore.token_address token chainId) as [a | |] eqn:Haddr;
      [| | done].
    + apply token_address_Own in Haddr. by apply list_elem_of_further.
    + apply token_address_Inherited in Haddr.
      by apply prototype_key_upper_not_allowed in Haddr.
  - intros Hin. exists 1.
    repeat (apply elem_of_cons in Hin as [Heq | Hin]; [by subst token |]).
    by apply elem_of_nil in Hin.
Qed.

Lemma ascii_upper_not_lower c : is_lower (ascii_upper c) = false.
Proof.
  unfold ascii_upper, is_lower.
  destruct ((97 <=? c)%N && (c <=? 122)%N) eqn:Hc; [| done].
  apply andb_true_iff in Hc as [?%N.leb_le ?%N.leb_le].
  apply andb_false_iff. left. apply N.leb_gt. lia.
Qed.

(** The name of a member of [Object.prototype] holds a small letter. *)
Lemma upper_not_prototype_key s : List.map ascii_upper s ∉ Object_prototype_keys.
Proof.
  intros Hin.
  assert (Hall : Forall (λ c, is_lower c = false) (List.map ascii_upper s)).
  { clear Hin. induction s as [| c s IH]; constructor; [apply ascii_upper_not_lower | done]. }
  repeat (apply elem_of_cons in Hin as [Heq | Hin];
          [rewrite Heq in Hall; clear -Hall;
           repeat (apply Forall_cons in Hall as [H Hall];
                   first [discriminate H | clear H]) |]).
  by apply elem_of_nil in Hin.
Qed.

(** X21.  On ASCII symbols [validateAmountDecimals] accepts an amount
    exactly when the symbol is a spelling of ETH, USDC, USDT or WETH and
    the amount has no point or has, between its first point and the next,
    no more characters than the token has decimals according to
    [getTokenDecimals] of lib/contracts.ts.  Every amount that
    [validateAmount] accepts is accepted for ETH and WETH. *)
Theorem validateAmountDecimals_iff amount symbol :
  upper_on_ascii toUpperCase →
  is_ascii symbol = true →
  (validateAmountDecimals toUpperCase amount symbol = true
   ↔ ∃ d, List.map ascii_upper symbol ∈ [str "ETH"; str "USDC"; str "USDT"; str "WETH"]
          ∧ getTokenDecimals (List.map ascii_upper symbol) = Own d
          ∧ ∀ whole fraction rest,
              split 46 amount = whole :: fraction :: rest →
              Z.of_nat (length fraction) <= d)
  ∧ (isValid (validateAmount amount) = true →
     List.map ascii_upper symbol ∈ [str "ETH"; str "WETH"] →
     validateAmountDecimals toUpperCase amount symbol = true).
Proof.
  intros Hupper Hascii.
  pose proof (upper_not_prototype_key symbol) as Hproto.
  unfold validateAmountDecimals, getTokenInfo. rewrite (Hupper _ Hascii).
  set (upper := List.map ascii_upper symbol) in *.
  unfold lookup_property at 1 2. rewrite (bool_decide_eq_false_2 _ Hproto).
  assert (Hlisted : ∀ t, assoc upper SUPPORTED_TOKENS = Some t →
            upper ∈ [str "ETH"; str "USDC"; str "USDT"; str "WETH"]
            ∧ getTokenDecimals upper = Own (token_decimals t)
            ∧ (upper ∈ [str "ETH"; str "WETH"] → token_decimals t = 18)).
  { intros t Ht%assoc_Some.
    repeat (apply elem_of_cons in Ht as [Heq | Ht];
            [injection Heq as -> ->;
             split_and!; [rewrite !elem_of_cons; tauto | reflexivity |];
             first [reflexivity
                   | rewrite !elem_of_cons, elem_of_nil;
                     intros [? | [? | []]]; discriminate] |]).
    by apply elem_of_nil in Ht. }
  assert (Hmissing : assoc upper SUPPORTED_TOKENS = None →
            upper ∉ [str "ETH"; str "USDC"; str "USDT"; str "WETH"]).
  { intros Hnone Hin.
    repeat (apply elem_of_cons in Hin as [Heq | Hin];
            [rewrite Heq in Hnone; discriminate Hnone |]).
    by apply elem_of_nil in Hin. }
  destruct (assoc upper SUPPORTED_TOKENS) as [t |] eqn:Ht.
  - destruct (Hlisted t eq_refl) as (Hin & Hdec & H18). split.
    + destruct (split 46 amount) as [| whole [| fraction rest]].
      * split; [intros _; exists (token_decimals t); by split_and! | done].
      * split; [intros _; exists (token_decimals t); by split_and! | done].
      * split.
        -- intros Hle%Z.leb_le. exists (token_decimals t). split_and!; [done | done |].
           by intros ? ? ? [= _ <- _].
        -- intros (d & _ & Hd & Hall). rewrite Hdec in Hd. injection Hd as <-.
           apply Z.leb_le. by eapply Hall.
    + intros (_ & _ & _ & Hfrac)%validateAmount_valid Heth.
      destruct (split 46 amount) as [| whole [| fraction rest]]; [done | done |].
      apply Z.leb_le. rewrite (H18 Heth). specialize (Hfrac _ _ _ eq_refl). lia.
  - specialize (Hmissing eq_refl). split.
    + split; [done | by intros (d & ? & _)].
    + intros _ Heth. exfalso. apply Hmissing.
      rewrite !elem_of_cons, elem_of_nil in Heth. rewrite !elem_of_cons. tauto.
Qed.

End TokenSymbolProperties.

Section TokenSymbolWitnesses.
Import JSNumber JSValue Validation ValidationMore Contracts ContractsMore Tokens SpecMore.

Lemma validateToken_supported_witness :
  (isValid (validateToken (List.map ascii_upper) (str "dai")) = true
   ↔ List.map ascii_upper (str "dai") ∈ allowedTokens)
  ∧ tipRequestSchema_token (List.map ascii_upper) (str "dai")
    = isValid (validateToken (List.map ascii_upper) (str "dai"))
  ∧ (isValid (validateToken (List.map ascii_upper) (str "dai")) = true →
     (∃ chainId, isTokenSupportedOnChain (str "dai") chainId = true)
     ↔ str "dai" ∈ [str "ETH"; str "USDC"; str "USDT"; str "WETH"]).
Proof.
  apply (validateToken_supported (List.map ascii_upper) (str "dai")).
  - intros s _. reflexivity.
  - reflexivity.
Defined.

Lemma validateAmountDecimals_iff_witness :
  (validateAmountDecimals (List.map ascii_upper) (str "0.1234567") (str "usdc") = true
   ↔ ∃ d, List.map ascii_upper (str "usdc")
            ∈ [str "ETH"; str "USDC"; str "USDT"; str "WETH"]
          ∧ getTokenDecimals (List.map ascii_upper (str "usdc")) = Own d
          ∧ ∀ whole fraction rest,
              split 46 (str "0.1234567") = whole :: fraction :: rest →
              Z.of_nat (length fraction) <= d)
  ∧ (isValid (validateAmount (str "0.1234567")) = true →
     List.map ascii_upper (str "usdc") ∈ [str "ETH"; str "WETH"] →
     validateAmountDecimals (List.map ascii_upper) (str "0.1234567") (str "usdc") = true).
Proof.
  apply (validateAmountDecimals_iff (List.map ascii_upper) (str "0.1234567") (str "usdc")).
  - intros s _. reflexivity.
  - reflexivity.
Defined.

End TokenSymbolWitnesses.

Section TokenListProperties.
Import JSNumber JSValue Validation ValidationMore Contracts ContractsMore Tokens SpecMore.

(** X22.  The token list of lib/currency.ts and that of lib/contracts.ts
    agree on every chain: [getSupportedTokensForChain] and
    [getTokenListForChain] give the same symbols in the same order, with
    the same decimals and the same native flag; every token of the former
    carries the chain id asked for, and every token but ETH carries the
    address that [TOKEN_ADDRESSES] has for it on that chain. *)
Theorem token_lists_agree (chainId : Z) :
  List.map token_symbol (getSupportedTokensForChain chainId)
  = List.map listed_symbol (getTokenListForChain chainId)
  ∧ List.map token_decimals (getSupportedTokensForChain chainId)
    = List.map listed_decimals (getTokenListForChain chainId)
  ∧ List.map token_isNative (getSupportedTokensForChain chainId)
    = List.map isNative (getTokenListForChain chainId)
  ∧ Forall (λ t, token_chainId t = chainId
                 ∧ (token_isNative t = false →
                    ∃ a, Tokens.token_address t = Some a
                         ∧ getTokenAddress (token_symbol t) chainId = Own a))
           (getSupportedTokensForChain chainId).
Proof.
  unfold getSupportedTokensForChain, getTokenListForChain, TOKEN_LIST, getTokenAddress.
  cbn [List.filter isNative listed_symbol]. unfold ContractsMore.token_address.
  unfold TOKEN_ADDRESSES. cbn [chain_tokens].
  destruct (1 =? chainId); [| destruct (8453 =? chainId); [| destruct (10 =? chainId)]];
    (split_and!; [reflexivity | reflexivity | reflexivity |]);
    repeat (constructor; [split; [reflexivity |]; first [discriminate | intros _; eexists; split; reflexivity] |]);
    constructor.
Qed.

End TokenListProperties.

Section FramesProperties.
Import JSNumber JSValue Validation Frames SpecMore.

Variable isValidUrl : jsstring → bool.

Implicit Types (config : FrameConfig) (cs : list BuilderCall).

(** [FrameValidator.validateMessage] on a message of the shape that
    [validateFrameMessage] accepts. *)
Lemma validateMessage_well_formed (message : JSValue.value) :
  isValidUrl [] = false →
  well_formed_message isValidUrl message →
  validateMessage message = (true, []).
Proof.
  intros Hempty (fields & -> & (nfid & Hfid & Hfid0) & (u & Hurl & Hu) & (h & Hhash & Hh)
    & (nts & Hts & Hts0) & (nnet & Hnet) & Hbutton & Hinput & _).
  unfold validateMessage. cbn [truthy negb]. unfold prop.
  rewrite Hfid, Hurl, Hhash, Hts, Hnet. cbn [default from_option id].
  rewrite Hfid0, Hts0.
  assert (Hu' : truthy (VString u) = true).
  { destruct u; [congruence | done]. }
  assert (Hh' : truthy (VString h) = true).
  { destruct h; [simpl in Hh; lia | done]. }
  rewrite Hu', Hh'. cbn [negb orb app].
  assert (Hb : truthy (default VUndefined (get (str "buttonIndex") fields))
               && match default VUndefined (get (str "buttonIndex") fields) with
                  | VNumber n => lt n (of_Z 1) || gt n (of_Z 4)
                  | _ => true
                  end = false).
  { destruct (get (str "buttonIndex") fields) as [v |] eqn:Hv; [| done].
    destruct (Hbutton v eq_refl) as (n & -> & Hlo & Hhi).
    cbn [default from_option id]. rewrite Hlo, Hhi. apply andb_false_r. }
  assert (Hi : truthy (default VUndefined (get (str "inputText") fields))
               && match default VUndefined (get (str "inputText") fields) with
                  | VString t => (256 <? length t)%nat
                  | _ => true
                  end = false).
  { destruct (get (str "inputText") fields) as [v |] eqn:Hv; [| done].
    destruct (Hinput v eq_refl) as (t & -> & Hlen).
    cbn [default from_option id].
    replace (256 <? length t)%nat with false by (symmetry; apply Nat.ltb_ge; lia).
    apply andb_false_r. }
  rewrite Hb, Hi. reflexivity.
Qed.

(** X23.  A message that [validateFrameMessage] of lib/validation.ts
    accepts is valid for [FrameValidator.validateMessage] of lib/frames.ts
    as well, with no error (the URL parser refuses the empty string). *)
Theorem validateMessage_accepts_validated (message : JSValue.value) :
  isValidUrl [] = false →
  validateFrameMessage isValidUrl message = true →
  validateMessage message = (true, []).
Proof.
  intros Hempty Hvalid%validateFrameMessage_shape.
  by apply validateMessage_well_formed.
Qed.

Lemma calls_buttons cs : ∀ config bs,
  buttons config = Some bs →
  (length bs <= 4)%nat →
  match calls config cs with
  | Some config' =>
      buttons config' = Some (bs ++ added_buttons cs)
      ∧ (length (bs ++ added_buttons cs) <= 4)%nat
  | None => (4 < length (bs ++ added_buttons cs))%nat
  end.
Proof.
  induction cs as [| c cs IH]; intros config bs Hbs Hlen; cbn [calls].
  - cbn. by rewrite app_nil_r.
  - destruct c as [imageUrl | ratio | button | placeholder | s]; cbn [call].
    1, 2, 4, 5: by apply IH.
    unfold addButton. rewrite Hbs.
    change (added_buttons (AddButton button :: cs)) with (button :: added_buttons cs).
    destruct (Nat.leb_spec 4 (length bs)) as [Hfull | Hroom].
    + rewrite length_app. cbn [length]. lia.
    + specialize (IH (mkConfig (image config) (imageAspectRatio config)
                               (Some (bs ++ [button])) (inputText config)
                               (state config))
                     (bs ++ [button]) eq_refl).
      rewrite <- app_assoc in IH. cbn [app] in IH. apply IH.
      rewrite length_app. cbn [length]. lia.
Qed.

Lemma button_errors_not (index : nat) button message :
  match message with 66%N :: _ => False | _ => True end →
  message ∉ button_errors index button.
Proof.
  intros Hm Hin. unfold button_errors in Hin.
  repeat (apply elem_of_app in Hin as [Hin | Hin]);
    match type of Hin with
    | _ ∈ (if ?b then _ else _) => destruct b
    end;
    try (by apply elem_of_nil in Hin);
    apply list_elem_of_singleton in Hin; by subst message.
Qed.

(** X24.  A chain of calls on a new [FrameBuilder] goes through exactly
    when it adds at most four buttons; the configuration then holds the
    added buttons in order.  [build] succeeds exactly when an image has
    been set, and [FrameValidator.validateConfig] raises neither
    ["Image URL is required"] nor ["Maximum 4 buttons allowed"] on what it
    returns. *)
Theorem builder_keeps_four_buttons cs :
  (is_Some (calls new_builder cs) ↔ (length (added_buttons cs) <= 4)%nat)
  ∧ ∀ config,
      calls new_builder cs = Some config →
      buttons config = Some (added_buttons cs)
      ∧ (build config = None ↔ image config = [])
      ∧ ∀ built, build config = Some built →
          built = config
          ∧ (str "Image URL is required" ∉ (validateConfig built).2)
          ∧ (str "Maximum 4 buttons allowed" ∉ (validateConfig built).2).
Proof.
  pose proof (calls_buttons cs new_builder [] eq_refl ltac:(simpl; lia)) as Hrun.
  cbn [app] in Hrun. split.
  - destruct (calls new_builder cs) as [config |].
    + destruct Hrun as [_ Hlen]. split; [done | by eauto].
    + split; [by intros [] | lia].
  - intros config Hconfig. rewrite Hconfig in Hrun. destruct Hrun as [Hbs Hlen].
    split; [done |]. unfold build.
    destruct (streq (image config) []) eqn:Himage.
    + apply streq_true in Himage. split; [done | done].
    + assert (image config ≠ []) as Hne.
      { intros Heq%streq_true. congruence. }
      split; [split; [done | done] |].
      intros built [= <-]. split; [done |].
      unfold validateConfig. cbn [snd]. rewrite Himage, Hbs.
      replace (4 <? length (added_buttons cs))%nat with false
        by (symmetry; apply Nat.ltb_ge; lia).
      cbn [app].
      assert (Hnot : ∀ message,
                match message with 66%N :: _ | 73%N :: 110%N :: _ => False | _ => True end →
                message ∉ concat (imap button_errors (added_buttons cs))
                          ++ match inputText config with
                             | Some (c :: t) =>
                                 if (32 <? length (c :: t))%nat
                                 then [str "Input text too long (max 32 characters)"]
                                 else []
                             | _ => []
                             end).
      { intros message Hm [Hin | Hin]%elem_of_app.
        - apply list_elem_of_In, in_concat in Hin as (errors & Herrors & Hin).
          apply list_elem_of_In, elem_of_lookup_imap in Herrors
            as (index & button & -> & _).
          apply list_elem_of_In in Hin.
          revert Hin. apply button_errors_not. by destruct message as [| [| []] ?].
        - destruct (inputText config) as [[| c t] |];
            try (by apply elem_of_nil in Hin).
          destruct (32 <? length (c :: t))%nat; [| by apply elem_of_nil in Hin].
          apply list_elem_of_singleton in Hin. by subst message. }
      split; by apply Hnot.
Qed.

End FramesProperties.

Section FramesWitnesses.
Import JSNumber JSValue Validation Frames SpecMore.

Lemma validateMessage_accepts_validated_witness :
  validateMessage Fixtures.message = (true, []).
Proof.
  apply (validateMessage_accepts_validated Fixtures.isValidUrl Fixtures.message).
  - reflexivity.
  - reflexivity.
Defined.

End FramesWitnesses.

(** ** Transaction hashes, permits and the frame message parser *)

Section HashAndPermitProperties.
Import JSNumber JSValue Validation ValidationMore Contracts ContractsMore Tokens
  PrepareTip SpecMore.

Implicit Types (hash symbol address : jsstring) (chainId v : Z).

Lemma validateTxHash_shape hash :
  isValid (validateTxHash hash) = true
  ↔ ∃ digits, hash = str "0x" ++ digits ∧ length digits = 64%nat
              ∧ Forall (λ c, is_hex c = true) digits.
Proof.
  unfold validateTxHash.
  destruct (strip_prefix (str "0x") hash) as [digits |] eqn:Hp.
  - apply strip_prefix_Some in Hp as ->.
    destruct ((length digits =? 64)%nat && forallb is_hex digits) eqn:Hok;
      cbn [negb isValid valid invalid].
    + apply andb_true_iff in Hok as [Hlen%Nat.eqb_eq Hhex%forallb_Forall].
      split; [intros _; by exists digits | done].
    + split; [done |]. intros (digits' & Heq & Hlen & Hhex).
      apply app_inv_head in Heq as <-.
      apply Nat.eqb_eq in Hlen. apply forallb_Forall in Hhex.
      by rewrite Hlen, Hhex in Hok.
  - cbn [negb isValid invalid]. split; [done |].
    intros (digits & -> & _). by rewrite (proj2 (strip_prefix_Some _ _ _) eq_refl) in Hp.
Qed.

(** X25.  [validateTxHash] accepts exactly 0x followed by 64 hexadecimal
    digits, the text of a 32-byte word: the topic of every address and the
    data word of every [uint256] pass, and nothing that passes is an
    address for the prepare-tip route or for [isContract]. *)
Theorem validateTxHash_words hash :
  (isValid (validateTxHash hash) = true
   ↔ ∃ digits, hash = str "0x" ++ digits ∧ length digits = 64%nat
               ∧ Forall (λ c, is_hex c = true) digits)
  ∧ (isValid (validateTxHash hash) = true →
     tipSchema_recipient hash = false ∧ isContract hash = false)
  ∧ (∀ address, tipSchema_recipient address = true →
       isValid (validateTxHash (address_topic address)) = true)
  ∧ (∀ v, 0 <= v < 2 ^ 256 → isValid (validateTxHash (uint256_word v)) = true).
Proof.
  split_and!.
  - apply validateTxHash_shape.
  - intros (digits & -> & Hlen & _)%validateTxHash_shape. split.
    + apply not_true_is_false.
      intros (digits' & Heq & Hlen' & _)%tipSchema_recipient_shape.
      apply app_inv_head in Heq as <-. lia.
    + unfold isContract. rewrite length_app, Hlen. reflexivity.
  - intros address (digits & -> & Hlen & Hhex)%tipSchema_recipient_shape.
    apply validateTxHash_shape. unfold address_topic, slice_from.
    change (drop 2 (str "0x" ++ digits)) with digits.
    eexists. split; [reflexivity |]. split.
    + rewrite length_app, length_replicate. lia.
    + apply Forall_app. split; [by apply Forall_replicate | done].
  - intros v Hv. apply validateTxHash_shape. unfold uint256_word, padStart.
    pose proof (proj2 (toString_length_uint256 v ltac:(lia)) ltac:(lia)) as Hlen.
    eexists. split; [reflexivity |]. split.
    + rewrite length_app, length_replicate. lia.
    + apply Forall_app. split; [by apply Forall_replicate | apply toString_hex; lia].
Qed.

(** X26.  A token that [supportsPermit] reports for a chain is USDC, which
    has a contract with 6 decimals on that chain, or DAI on Ethereum, for
    which [getTokenContract] has no contract. *)
Theorem supportsPermit_contracts symbol chainId :
  supportsPermit symbol chainId = true →
  (symbol = str "USDC"
   ∧ ∃ contract, getTokenContract symbol chainId = Some contract
                 ∧ decimals contract = Own 6)
  ∨ (symbol = str "DAI" ∧ chainId = 1 ∧ getTokenContract symbol chainId = None).
Proof.
  unfold supportsPermit, permitTokens. cbn [List.find fst snd].
  destruct (Z.eqb_spec 1 chainId) as [<- | _]; cbn [snd].
  { case_bool_decide as Hin; [intros _ | done].
    rewrite !elem_of_cons, elem_of_nil in Hin.
    destruct Hin as [-> | [-> | []]]; [right | left]; [done |].
    split; [done | by eexists]. }
  destruct (Z.eqb_spec 8453 chainId) as [<- | _]; cbn [snd].
  { case_bool_decide as Hin; [intros _ | done].
    rewrite !elem_of_cons, elem_of_nil in Hin.
    destruct Hin as [-> | []]. left. split; [done | by eexists]. }
  destruct (Z.eqb_spec 10 chainId) as [<- | _]; cbn [snd]; [| done].
  case_bool_decide as Hin; [intros _ | done].
  rewrite !elem_of_cons, elem_of_nil in Hin.
  destruct Hin as [-> | []]. left. split; [done | by eexists].
Qed.

Lemma supportsPermit_contracts_witness :
  (str "USDC" = str "USDC"
   ∧ ∃ contract, getTokenContract (str "USDC") 8453 = Some contract
                 ∧ decimals contract = Own 6)
  ∨ (str "USDC" = str "DAI" ∧ 8453 = 1 ∧ getTokenContract (str "USDC") 8453 = None).
Proof.
  apply (supportsPermit_contracts (str "USDC") 8453). reflexivity.
Defined.

End HashAndPermitProperties.

Section ParserProperties.
Import JSNumber JSValue Validation Frames SpecMore.

Variable isValidUrl : jsstring → bool.

(** X27.  [FrameMessageParser.parse] keeps a valid body valid: for a body
    that [validateFrameMessage] accepts it returns a message that
    [validateFrameMessage] and [FrameValidator.validateMessage] accept,
    with the five required fields of the body; the button index is that of
    the body, or 1 when the body has none (or NaN). *)
Theorem parse_keeps_valid (body : JSValue.value) :
  isValidUrl [] = false →
  validateFrameMessage isValidUrl body = true →
  ∃ message,
    parse body = Some message
    ∧ validateFrameMessage isValidUrl message = true
    ∧ validateMessage message = (true, [])
    ∧ (∀ key, key ∈ [str "fid"; str "url"; str "messageHash"; str "timestamp";
                     str "network"] →
         prop key message = prop key body)
    ∧ prop (str "buttonIndex") message
      = (if truthy (prop (str "buttonIndex") body)
         then prop (str "buttonIndex") body else VNumber (of_Z 1)).
Proof.
  intros Hempty Hvalid.
  pose proof Hvalid as (fields & -> & (nfid & Hfid & Hfid0) & (u & Hurl & Hu)
    & (h & Hhash & Hh) & (nts & Hts & Hts0) & (nnet & Hnet) & Hbutton & Hinput
    & Hcast)%validateFrameMessage_shape.
  unfold parse. cbn [truthy typeof_object negb orb].
  set (bi := if truthy (prop (str "buttonIndex") (VObject fields))
             then prop (str "buttonIndex") (VObject fields) else VNumber (of_Z 1)).
  assert (Hbi : ∃ n, bi = VNumber n ∧ lt n (of_Z 1) = false ∧ gt n (of_Z 4) = false
                     ∧ truthy bi = true).
  { subst bi. unfold prop.
    destruct (get (str "buttonIndex") fields) as [v |] eqn:Hv;
      [| exists (of_Z 1); by split_and!].
    destruct (Hbutton v eq_refl) as (n & -> & Hlo & Hhi). cbn [default from_option id].
    destruct (truthy (VNumber n)) eqn:Ht;
      [exists n; by split_and! | exists (of_Z 1); by split_and!]. }
  destruct Hbi as (nbi & Hbi & Hlo & Hhi & Htruthy).
  set (it := prop (str "inputText") (VObject fields)).
  assert (Hit : truthy it = true → ∃ t, it = VString t ∧ (length t <= 256)%nat).
  { subst it. unfold prop.
    destruct (get (str "inputText") fields) as [v |] eqn:Hv; [| done].
    destruct (Hinput v eq_refl) as (t & -> & Hlen). intros _. by exists t. }
  set (cast := prop (str "castId") (VObject fields)).
  assert (Hc : truthy cast = true →
               (∃ n, prop (str "fid") cast = VNumber n)
               ∧ (∃ hs, prop (str "hash") cast = VString hs)).
  { subst cast. destruct (get (str "castId") fields) as [v |] eqn:Hv.
    - assert (Hp : prop (str "castId") (VObject fields) = v)
        by (unfold prop; by rewrite Hv).
      rewrite Hp. destruct (Hcast v eq_refl) as (_ & Hf & Hs). by intros _.
    - assert (Hp : prop (str "castId") (VObject fields) = VUndefined)
        by (unfold prop; by rewrite Hv).
      by rewrite Hp. }
  assert (Pfid : prop (str "fid") (VObject fields) = VNumber nfid)
    by (unfold prop; by rewrite Hfid).
  assert (Purl : prop (str "url") (VObject fields) = VString u)
    by (unfold prop; by rewrite Hurl).
  assert (Phash : prop (str "messageHash") (VObject fields) = VString h)
    by (unfold prop; by rewrite Hhash).
  assert (Pts : prop (str "timestamp") (VObject fields) = VNumber nts)
    by (unfold prop; by rewrite Hts).
  assert (Pnet : prop (str "network") (VObject fields) = VNumber nnet)
    by (unfold prop; by rewrite Hnet).
  cbn zeta. fold it cast. rewrite Pfid, Purl, Phash, Pts, Pnet, Hbi.
  eexists. split; [reflexivity |].
  assert (Hshape : well_formed_message isValidUrl
    (VObject
       ([(str "fid", VNumber nfid); (str "url", VString u);
         (str "messageHash", VString h); (str "timestamp", VNumber nts);
         (str "network", VNumber nnet); (str "buttonIndex", VNumber nbi)]
        ++ (if truthy it then [(str "inputText", it)] else [])
        ++ (if truthy cast
            then [(str "castId",
                   VObject [(str "fid", prop (str "fid") cast);
                            (str "hash", prop (str "hash") cast)])]
            else [])))).
  { eexists. split; [reflexivity |].
    split; [by exists nfid |]. split; [by exists u |]. split; [by exists h |].
    split; [by exists nts |]. split; [by exists nnet |].
    split; [intros v [= <-]; by exists nbi |].
    destruct (truthy it) eqn:Hit'; destruct (truthy cast) eqn:Hc'.
    - destruct (Hit eq_refl) as (t & Heq & Hlen).
      destruct (Hc eq_refl) as ((n & Hn) & (hs & Hs)).
      split; [intros v [= <-]; by exists t |].
      intros v [= <-]. rewrite Hn, Hs. split; [done |].
      split; [by exists n | by exists hs].
    - destruct (Hit eq_refl) as (t & Heq & Hlen).
      split; [intros v [= <-]; by exists t | done].
    - destruct (Hc eq_refl) as ((n & Hn) & (hs & Hs)).
      split; [done |].
      intros v [= <-]. rewrite Hn, Hs. split; [done |].
      split; [by exists n | by exists hs].
    - split; done. }
  split; [by apply validateFrameMessage_complete |].
  split.
  - by apply (validateMessage_well_formed isValidUrl).
  - split.
    + intros key Hkey.
      repeat (apply elem_of_cons in Hkey as [Heq | Hkey];
              [subst key; first [exact (eq_sym Pfid) | exact (eq_sym Purl)
                                | exact (eq_sym Phash) | exact (eq_sym Pts)
                                | exact (eq_sym Pnet)] |]).
      by apply elem_of_nil in Hkey.
    + reflexivity.
Qed.

End ParserProperties.

Section ParserWitnesses.
Import JSNumber JSValue Validation Frames SpecMore.

Lemma parse_keeps_valid_witness :
  ∃ message,
    parse Fixtures.message = Some message
    ∧ validateFrameMessage Fixtures.isValidUrl message = true
    ∧ validateMessage message = (true, [])
    ∧ (∀ key, key ∈ [str "fid"; str "url"; str "messageHash"; str "timestamp";
                     str "network"] →
         prop key message = prop key Fixtures.message)
    ∧ prop (str "buttonIndex") message
      = (if truthy (prop (str "buttonIndex") Fixtures.message)
         then prop (str "buttonIndex") Fixtures.message else VNumber (of_Z 1)).
Proof.
  apply (parse_keeps_valid Fixtures.isValidUrl Fixtures.message).
  - reflexivity.
  - reflexivity.
Defined.

End ParserWitnesses.
